(** * aws-sso-profile-sync: a shallow embedding of [main.go]

    The program logs in to AWS SSO through the OIDC device-authorization
    flow, keeps the resulting bearer token in a cache directory, and
    reconciles [sso-session] and [profile] sections of the AWS config file.

    Conventions of the embedding.
    - Go strings are byte strings: [string] of the Standard Library.
    - The package-level variables set by the flags are the record [Globals];
      [ssoSessionConfigName], the only one rebound after flag parsing, lives
      in the [World] that every effectful function threads.
    - Everything outside [main.go] (the [os] calls that can fail, the [ini]
      and [json] codecs, the AWS endpoints) is the record [Env].
    - The [World] holds what the program reads back after writing it: the
      bytes of the config file, or its absence, and the token cache
      directory, or its absence. A call fails when its file or directory is
      missing, or when [io_error] of the environment says so.
    - An effectful Go function [f(args) (T, error)] becomes
      [f E g args w : T * option error * World].
    - Console output ([fmt.Printf], colours) is not modelled. *)

From Stdlib Require Import String Ascii List ZArith Lia Bool Arith.
From Stdlib Require Import Permutation DecimalString.
Import ListNotations.

Local Open Scope list_scope.
Local Open Scope string_scope.

(** ** The functions of Go's [strings] and [regexp] packages that main.go uses *)

Module strings.

(** [strings.HasPrefix(s, p)] *)
Fixpoint HasPrefix (s p : string) {struct p} : bool :=
  match p, s with
  | EmptyString, _ => true
  | String _ _, EmptyString => false
  | String a p', String b s' => Ascii.eqb a b && HasPrefix s' p'
  end.

Fixpoint drop (n : nat) (s : string) : string :=
  match n, s with
  | O, _ => s
  | S _, EmptyString => EmptyString
  | S n', String _ s' => drop n' s'
  end.

Fixpoint take (n : nat) (s : string) : string :=
  match n, s with
  | O, _ => EmptyString
  | S _, EmptyString => EmptyString
  | S n', String c s' => String c (take n' s')
  end.

(** [strings.HasSuffix(s, suffix)] *)
Definition HasSuffix (s suffix : string) : bool :=
  (String.length suffix <=? String.length s)%nat
  && String.eqb (drop (String.length s - String.length suffix) s) suffix.

(** [strings.TrimPrefix(s, p)] *)
Definition TrimPrefix (s p : string) : string :=
  if HasPrefix s p then drop (String.length p) s else s.

(** [strings.TrimSuffix(s, suffix)] *)
Definition TrimSuffix (s suffix : string) : string :=
  if HasSuffix s suffix
  then take (String.length s - String.length suffix) s
  else s.

Fixpoint inCutset (c : ascii) (cutset : string) : bool :=
  match cutset with
  | EmptyString => false
  | String d rest => Ascii.eqb c d || inCutset c rest
  end.

(** [strings.TrimRight(s, cutset)]: drops every trailing byte that occurs
    in [cutset]. *)
Fixpoint TrimRight (s cutset : string) : string :=
  match s with
  | EmptyString => EmptyString
  | String c s' =>
      match TrimRight s' cutset with
      | EmptyString => if inCutset c cutset then EmptyString
                       else String c EmptyString
      | t => String c t
      end
  end.

(** [strings.Contains(s, substr)] *)
Fixpoint Contains (s substr : string) : bool :=
  HasPrefix s substr
  || match s with
     | EmptyString => false
     | String _ s' => Contains s' substr
     end.

(** [strings.SplitN(s, sep, 2)] for a one-byte separator: the text before
    the first separator and everything after it, or [s] alone when the
    separator does not occur. *)
Fixpoint SplitN2 (s : string) (sep : ascii) : list string :=
  match s with
  | EmptyString => [EmptyString]
  | String c s' =>
      if Ascii.eqb c sep then [EmptyString; s']
      else match SplitN2 s' sep with
           | [a] => [String c a]
           | a :: rest => String c a :: rest
           | [] => []
           end
  end.

(** [strings.Split(s, sep)] for a one-byte separator. *)
Fixpoint Split (s : string) (sep : ascii) : list string :=
  match s with
  | EmptyString => [EmptyString]
  | String c s' =>
      if Ascii.eqb c sep then EmptyString :: Split s' sep
      else match Split s' sep with
           | l :: rest => String c l :: rest
           | [] => [String c EmptyString]
           end
  end.

End strings.

Module regexp.

(** The class [[_\s]]: underscore and Go's [\s], which is
    tab, newline, form feed, carriage return and space. *)
Definition underscoreOrSpace (c : ascii) : bool :=
  let n := nat_of_ascii c in
  Nat.eqb n 95 || Nat.eqb n 9 || Nat.eqb n 10 || Nat.eqb n 12
  || Nat.eqb n 13 || Nat.eqb n 32.

(** [regexp.MustCompile(`[_\s]+`).ReplaceAllString(s, repl)]: every
    maximal run of class bytes becomes one [repl]. [inRun] says that the
    previous byte already belonged to the run being replaced. *)
Fixpoint replaceRuns (inRun : bool) (s repl : string) : string :=
  match s with
  | EmptyString => EmptyString
  | String c s' =>
      if underscoreOrSpace c
      then (if inRun then replaceRuns true s' repl
            else repl ++ replaceRuns true s' repl)
      else String c (replaceRuns false s' repl)
  end.

Definition ReplaceAllString (s repl : string) : string :=
  replaceRuns false s repl.

End regexp.

(** ** Package-level state *)

Definition defaultSSOSessionConfigName : string := "default".
Definition defaultSSORegion : string := "us-east-1".

(** The configuration variables populated by flags, except
    [ssoSessionConfigName] (see [World]). *)
Record Globals := mkGlobals {
  ssoRoleNames : list string;
  profilePrefix : string;
  useAutoPrefix : bool;
  ssoStartURL : string;
  ssoRegion : string;
  ssoConfigFile : string;
  dryRun : bool;
  openBrowser : bool;
  profileOutput : string
}.

Record CombinedRole := mkRole {
  AccountId : string;
  RoleName : string;
  AccountName : string
}.

(** ** Profile naming *)

(** [generatePrefixFromRole] *)
Definition generatePrefixFromRole (roleName : string) : string :=
  let cleaned := strings.TrimPrefix roleName "AWS" in
  let cleaned := strings.TrimSuffix cleaned "Access" in
  if negb (String.eqb cleaned "") then cleaned ++ "_" else "".

(** [getProfileNameFromRole] *)
Definition getProfileNameFromRole (g : Globals) (role : CombinedRole) : string :=
  let safeAccountName := regexp.ReplaceAllString (AccountName role) "-" in
  let prefix :=
    if negb (String.eqb (profilePrefix g) "") then profilePrefix g
    else if useAutoPrefix g then generatePrefixFromRole (RoleName role)
    else "" in
  if negb (String.eqb prefix "")
  then prefix ++ safeAccountName ++ "_" ++ AccountId role
  else safeAccountName ++ "_" ++ AccountId role.

(** ** Errors *)

(** A Go [error] value: where it was made, and its [Error()] text. *)
Inductive error : Type :=
| ExtError (msg : string)   (* returned by a package outside main.go *)
| Errorf (msg : string).    (* built by [fmt.Errorf] in main.go *)

Definition Error (e : error) : string :=
  match e with ExtError m => m | Errorf m => m end.

Inductive result (A : Type) : Type :=
| Ok (a : A)
| Err (e : error).
Arguments Ok {A} a.
Arguments Err {A} e.

(** ** The config document of gopkg.in/ini.v1 *)

Module ini.

(** Modelled from the spec: the ConfigStore, the document type of the
    external library gopkg.in/ini.v1 (not part of the repository): "an
    ordered mapping from section name to an internal key-value mapping;
    keys within a section are insertion-ordered but lookups are by key,
    not position". Of the library's behaviour the model keeps what the
    calls of main.go depend on: lookup of sections and keys by name, the
    creation of what [Section] and [Key] do not find, and child sections,
    where a section named [a.b] answers for a key it does not hold with
    the key of its nearest declared parent section [a]. *)
Record Section := mkSection {
  Name : string;
  keys : list (string * string)
}.

Definition File := list Section.

Definition DefaultSection : string := "DEFAULT".

(** [ini.Empty()]: every document starts with the default section. *)
Definition Empty : File := [mkSection DefaultSection []].

(** [cfg.Sections()] *)
Definition Sections (cfg : File) : list Section := cfg.

(** The first section of the document that carries the name. *)
Fixpoint sectionNamed (cfg : File) (name : string) : option Section :=
  match cfg with
  | [] => None
  | s :: rest => if String.eqb (Name s) name then Some s
                 else sectionNamed rest name
  end.

(** The name the library looks up for [name]: the empty name stands for
    the default section. *)
Definition resolve (name : string) : string :=
  if String.eqb name "" then DefaultSection else name.

(** [cfg.GetSection(name)] *)
Definition GetSection (cfg : File) (name : string) : option Section :=
  sectionNamed cfg (resolve name).

(** [cfg.Section(name)]: the named section, or a fresh empty one; never
    nil. *)
Definition SectionOf (cfg : File) (name : string) : Section :=
  match GetSection cfg name with
  | Some s => s
  | None => mkSection (resolve name) []
  end.

Fixpoint lookupKey (kvs : list (string * string)) (k : string)
  : option string :=
  match kvs with
  | [] => None
  | (k', v) :: rest => if String.eqb k' k then Some v else lookupKey rest k
  end.

(** The prefixes of [name] that end just before one of its "."s, shortest
    first. *)
Fixpoint cutsAtDots (name : string) : list string :=
  match name with
  | EmptyString => []
  | String c rest =>
      let longer := map (String c) (cutsAtDots rest) in
      if Ascii.eqb c "." then EmptyString :: longer else longer
  end.

(** The names [section.GetKey] tries for a child section called [name]:
    [name] cut at its last ".", then at the one before, and so on. *)
Definition parents (name : string) : list string := rev (cutsAtDots name).

(** The loop of [section.GetKey] over the parent names: the first of them
    that is declared and holds the key decides. *)
Fixpoint inherited (cfg : File) (names : list string) (k : string)
  : option (string * string) :=
  match names with
  | [] => None
  | n :: rest =>
      match GetSection cfg n with
      | Some sec =>
          match lookupKey (keys sec) k with
          | Some v => Some (Name sec, v)
          | None => inherited cfg rest k
          end
      | None => inherited cfg rest k
      end
  end.

(** [section.GetKey(k)]: the key of the section itself or else of a parent
    section, as the name of the section that holds it and its value. *)
Definition GetKey (cfg : File) (s : Section) (k : string)
  : option (string * string) :=
  match lookupKey (keys s) k with
  | Some v => Some (Name s, v)
  | None => inherited cfg (parents (Name s)) k
  end.

(** [section.HasKey(k)] *)
Definition HasKey (cfg : File) (s : Section) (k : string) : bool :=
  match GetKey cfg s k with Some _ => true | None => false end.

(** [section.Key(k).String()]: the zero value when no key is found; a
    value that holds a "%" goes through the library's substitution of
    [%(name)s] references, [interpolate], which is given the document, the
    section holding the key, the key and the stored value. *)
Definition KeyString
  (interpolate : File -> string -> string -> string -> string)
  (cfg : File) (s : Section) (k : string) : string :=
  match GetKey cfg s k with
  | Some (owner, v) =>
      if strings.Contains v "%" then interpolate cfg owner k v else v
  | None => ""
  end.

Fixpoint setKey (kvs : list (string * string)) (k v : string)
  : list (string * string) :=
  match kvs with
  | [] => [(k, v)]
  | (k', v') :: rest => if String.eqb k' k then (k, v) :: rest
                        else (k', v') :: setKey rest k v
  end.

(** [cfg.NewSection(name)]: appends an empty section unless one of that
    name exists; an empty name is an error. *)
Definition NewSection (cfg : File) (name : string) : result File :=
  if String.eqb name "" then Err (ExtError "empty section name")
  else match sectionNamed cfg name with
       | Some _ => Ok cfg
       | None => Ok (cfg ++ [mkSection name []])%list
       end.

(** The document after [cfg.Section(name)] has been called on it. *)
Definition ensureSection (cfg : File) (name : string) : File :=
  match GetSection cfg name with
  | Some _ => cfg
  | None => (cfg ++ [mkSection (resolve name) []])%list
  end.

(** [section.NewKey(k, v)] on the section of [cfg] called [name]: the key
    of the section itself is set, or added after its other keys. *)
Fixpoint NewKey (cfg : File) (name k v : string) : File :=
  match cfg with
  | [] => []
  | s :: rest =>
      if String.eqb (Name s) name
      then mkSection (Name s) (setKey (keys s) k v) :: rest
      else s :: NewKey rest name k v
  end.

(** [section.Key(k).SetValue(v)] on the section of [cfg] called [name],
    which exists: [Key] answers with the key [GetKey] finds, which may be a
    parent's, and only adds the key to the section when none is found. *)
Definition SetValue (cfg : File) (name k v : string) : File :=
  match GetKey cfg (SectionOf cfg name) k with
  | Some (owner, _) => NewKey cfg owner k v
  | None => NewKey cfg name k v
  end.

Definition pair_eqb (a b : string * string) : bool :=
  String.eqb (fst a) (fst b) && String.eqb (snd a) (snd b).

Fixpoint list_eqb {A} (eqb : A -> A -> bool) (l1 l2 : list A) : bool :=
  match l1, l2 with
  | [], [] => true
  | a :: r1, b :: r2 => eqb a b && list_eqb eqb r1 r2
  | _, _ => false
  end.

Definition Section_eqb (a b : Section) : bool :=
  String.eqb (Name a) (Name b) && list_eqb pair_eqb (keys a) (keys b).

Definition File_eqb (a b : File) : bool := list_eqb Section_eqb a b.

End ini.

(** ** The world outside main.go *)

(** The calls into [os] (and [cfg.SaveTo]) that can fail. *)
Inductive IOCall : Type :=
| ReadDir (path : string)
| ReadFile (path : string)
| Info (path : string)
| Stat (path : string)
| MkdirAll (path : string)
| WriteFile (path data : string)
| OpenAppend (path : string)   (* os.OpenFile(path, O_APPEND|O_CREATE|O_WRONLY) *)
| WriteString (path data : string)
| Rename (oldpath newpath : string)
| Remove (path : string)
| SaveTo (cfg : ini.File) (path : string).

(** A decoded JSON value, as far as main.go tells values apart. *)
Inductive JValue : Type :=
| JString (s : string)
| JOther.

Definition JObject := list (string * JValue).

Fixpoint jlookup (m : JObject) (k : string) : option JValue :=
  match m with
  | [] => None
  | (k', v) :: rest => if String.eqb k' k then Some v else jlookup rest k
  end.

(** The type assertion [m[k].(string)]: the string and [ok]. *)
Definition asString (m : JObject) (k : string) : string * bool :=
  match jlookup m k with
  | Some (JString s) => (s, true)
  | _ => ("", false)
  end.

Record ssoTypesAccount := mkAccount {
  acctAccountId : string;
  acctAccountName : string
}.

Record ssoTypesRole := mkSsoRole { roleRoleName : string }.

Record RegisterClientOutput := mkRegOut {
  ClientId : string;
  ClientSecret : string
}.

Record StartDeviceAuthorizationOutput := mkDevOut {
  DeviceCode : string;
  UserCode : string;
  VerificationUriComplete : string;
  Interval : Z;       (* int32, seconds *)
  ExpiresIn : Z       (* int32, seconds *)
}.

Record CreateTokenOutput := mkTokenOut {
  AccessToken : option string;   (* *string: nil or a token *)
  tokenExpiresIn : Z
}.

(** Everything main.go calls but does not define. Remote endpoints and the
    clock-dependent calls take the time of the call (nanoseconds). A failing
    [config.LoadDefaultConfig] counts as a failure of the client call that
    follows it: both errors are returned unchanged. [io_error] gives the
    error of a call into [os] that fails for a reason the [World] does not
    show (permissions, a full disk, a missing parent directory). *)
Record Env := mkEnv {
  io_error : IOCall -> option error;
  homeDir : string;
  ini_parse : string -> option ini.File;
  ini_render : ini.File -> string;
  ini_interpolate : ini.File -> string -> string -> string -> string;
  json_Unmarshal : string -> option JObject;
  json_MarshalIndent : JObject -> result string;
  time_FormatRFC3339 : Z -> string;
  RegisterClient : Z -> result RegisterClientOutput;
  StartDeviceAuthorization :
    Z -> string -> string -> string -> result StartDeviceAuthorizationOutput;
  CreateToken : Z -> string -> string -> string -> result CreateTokenOutput;
  CreateToken_latency : Z -> Z;
  ListAccounts : Z -> string -> result (list ssoTypesAccount);
  ListAccountRoles : Z -> string -> string -> result (list ssoTypesRole)
}.

(** One file of the token cache directory. *)
Record DirEntry := mkDirEntry {
  de_name : string;
  de_data : string;
  de_modTime : Z     (* modification time, nanoseconds *)
}.

Record World := mkWorld {
  ssoSessionConfigName : string;   (* the package variable login rebinds *)
  configFile : option string;      (* bytes of [ssoConfigFile]; None: no file *)
  cacheDirExists : bool;           (* is there a directory ~/.aws/sso/cache *)
  cacheDir : list DirEntry;        (* its files, in [os.ReadDir] order *)
  now : Z;                         (* [time.Now()], nanoseconds *)
  calls : list IOCall              (* mutating calls issued so far, oldest first *)
}.

Definition set_session (w : World) (name : string) : World :=
  mkWorld name (configFile w) (cacheDirExists w) (cacheDir w) (now w)
          (calls w).

Definition set_config (w : World) (data : option string) : World :=
  mkWorld (ssoSessionConfigName w) data (cacheDirExists w) (cacheDir w)
          (now w) (calls w).

Definition set_cache (w : World) (d : list DirEntry) : World :=
  mkWorld (ssoSessionConfigName w) (configFile w) (cacheDirExists w) d
          (now w) (calls w).

Definition set_now (w : World) (t : Z) : World :=
  mkWorld (ssoSessionConfigName w) (configFile w) (cacheDirExists w)
          (cacheDir w) t (calls w).

(** Records that [c] was issued. *)
Definition issue (w : World) (c : IOCall) : World :=
  mkWorld (ssoSessionConfigName w) (configFile w) (cacheDirExists w)
          (cacheDir w) (now w) (calls w ++ [c])%list.

(** The cache directory after [os.MkdirAll] succeeded on it: made, empty,
    when it was missing. *)
Definition madeCacheDir (w : World) : World :=
  if cacheDirExists w then w
  else mkWorld (ssoSessionConfigName w) (configFile w) true [] (now w)
               (calls w).

Definition second : Z := 1000000000.
Definition millisecond : Z := 1000000.

(** [time.Sleep(d)] *)
Definition Sleep (w : World) (d : Z) : World := set_now w (now w + Z.max d 0).

(** ** Paths *)

(** The loop of [filepath.Clean] over the elements between the slashes of
    a path; [out] holds the elements kept so far, last first. *)
Fixpoint cleanLoop (rooted : bool) (elems out : list string) : list string :=
  match elems with
  | [] => out
  | e :: rest =>
      if String.eqb e "" || String.eqb e "." then cleanLoop rooted rest out
      else if String.eqb e ".." then
        match out with
        | top :: out' =>
            if String.eqb top ".." then cleanLoop rooted rest (e :: out)
            else cleanLoop rooted rest out'
        | [] => if rooted then cleanLoop rooted rest []
                else cleanLoop rooted rest [e]
        end
      else cleanLoop rooted rest (e :: out)
  end.

(** [filepath.Clean] where the separator is the slash: empty and "."
    elements go, an inner ".." goes with the element before it, a ".." at
    the root goes, and the empty result is ".". *)
Definition filepath_Clean (p : string) : string :=
  let rooted := strings.HasPrefix p "/" in
  let kept := rev (cleanLoop rooted (strings.Split p "/") []) in
  let body := String.concat "/" kept in
  if rooted then "/" ++ body
  else if String.eqb body "" then "." else body.

(** [filepath.Join(elem...)]: the elements from the first one that is not
    empty on, joined by slashes and cleaned. *)
Fixpoint filepath_Join (elem : list string) : string :=
  match elem with
  | [] => ""
  | e :: rest =>
      if String.eqb e "" then filepath_Join rest
      else filepath_Clean (String.concat "/" elem)
  end.

(** ** Reading the token cache *)

Record candidate := mkCandidate {
  path : string;
  startUrl : string;
  token : string;
  modTime : Z
}.

Definition ssoCacheDir (E : Env) : string :=
  filepath_Join [homeDir E; ".aws"; "sso"; "cache"].

(** The test of line 241 for a decoded cache entry. *)
Definition startUrlMatches (g : Globals) (startUrl : string) : bool :=
  String.eqb startUrl (ssoStartURL g)
  || String.eqb startUrl (strings.TrimRight (ssoStartURL g) "/").

(** The body of the loop over the directory entries: the candidate a file
    contributes, if any. *)
Definition candidateOf (E : Env) (g : Globals) (f : DirEntry)
  : option candidate :=
  if strings.HasSuffix (de_name f) ".json" then
    let fullPath := filepath_Join [ssoCacheDir E; de_name f] in
    match io_error E (ReadFile fullPath) with
    | Some _ => None
    | None =>
        match json_Unmarshal E (de_data f) with
        | None => None
        | Some cache =>
            let '(startUrl, ok) := asString cache "startUrl" in
            let '(accessToken, tokenOk) := asString cache "accessToken" in
            if ok && startUrlMatches g startUrl && tokenOk then
              match io_error E (Info fullPath) with
              | Some _ => None
              | None =>
                  Some (mkCandidate fullPath startUrl accessToken
                          (de_modTime f / second))
              end
            else None
        end
    end
  else None.

Fixpoint collectCandidates (E : Env) (g : Globals) (files : list DirEntry)
  (candidates : list candidate) : list candidate :=
  match files with
  | [] => candidates
  | f :: rest =>
      match candidateOf E g f with
      | Some c => collectCandidates E g rest (candidates ++ [c])%list
      | None => collectCandidates E g rest candidates
      end
  end.

Fixpoint pickLatest (latest : candidate) (cs : list candidate) : candidate :=
  match cs with
  | [] => latest
  | c :: rest =>
      pickLatest (if (modTime c >? modTime latest)%Z then c else latest) rest
  end.

(** [os.ReadDir(ssoCacheDir)]: the files of the directory, or the error
    of a directory that is missing or cannot be read. *)
Definition ReadCacheDir (E : Env) (w : World) : result (list DirEntry) :=
  if cacheDirExists w then
    match io_error E (ReadDir (ssoCacheDir E)) with
    | Some err => Err err
    | None => Ok (cacheDir w)
    end
  else Err (ExtError ("open " ++ ssoCacheDir E
                      ++ ": no such file or directory")).

(** [getAccessTokenFromSsoSessionWithPath], up to the choice of [latest]. *)
Definition findFreshest (E : Env) (g : Globals) (w : World)
  : result candidate :=
  match ReadCacheDir E w with
  | Err err => Err err
  | Ok files =>
      let candidates := collectCandidates E g files [] in
      match candidates with
      | [] => Err (Errorf ("no valid SSO accessToken found for startUrl "
                           ++ ssoStartURL g))
      | c0 :: _ => Ok (pickLatest c0 candidates)
      end
  end.

(** [getAccessTokenFromSsoSessionWithPath] *)
Definition getAccessTokenFromSsoSessionWithPath (E : Env) (g : Globals)
  (w : World) : result (string * string) :=
  match findFreshest E g w with
  | Err e => Err e
  | Ok latest => Ok (token latest, path latest)
  end.

(** ** The config file *)

Definition LF : string := String (ascii_of_nat 10) EmptyString.

Fixpoint lastByte (s : string) : option ascii :=
  match s with
  | EmptyString => None
  | String c EmptyString => Some c
  | String _ s' => lastByte s'
  end.

(** The text of a path up to its last slash, the slash included; empty
    when the path has no slash. *)
Fixpoint uptoLastSlash (s : string) : string :=
  match s with
  | EmptyString => EmptyString
  | String c s' =>
      match uptoLastSlash s' with
      | EmptyString => if Ascii.eqb c "/" then String c EmptyString
                       else EmptyString
      | d => String c d
      end
  end.

(** [filepath.Dir] *)
Definition filepath_Dir (p : string) : string :=
  filepath_Clean (uptoLastSlash p).

(** [ini.Load(ssoConfigFile)] *)
Definition ini_Load (E : Env) (g : Globals) (w : World) : result ini.File :=
  match configFile w with
  | None => Err (ExtError ("open " ++ ssoConfigFile g
                           ++ ": no such file or directory"))
  | Some data =>
      match io_error E (ReadFile (ssoConfigFile g)) with
      | Some err => Err err
      | None =>
          match ini_parse E data with
          | Some cfg => Ok cfg
          | None => Err (ExtError "ini: unable to parse")
          end
      end
  end.

(** [section.Key(k).String()] for a section of the loaded document. *)
Definition KeyString (E : Env) (cfg : ini.File) (section : ini.Section)
  (k : string) : string :=
  ini.KeyString (ini_interpolate E) cfg section k.

(** The test inside the loop of [findAllMatchingSsoSessionNames]. *)
Definition sessionMatches (E : Env) (cfg : ini.File)
  (normStart region : string) (section : ini.Section) : bool :=
  let ssoStart :=
    strings.TrimRight (KeyString E cfg section "sso_start_url") "/" in
  let ssoRegion := KeyString E cfg section "sso_region" in
  String.eqb ssoStart normStart && String.eqb ssoRegion region.

Fixpoint matchLoop (E : Env) (cfg : ini.File) (normStart region : string)
  (sections : list ini.Section) (matches : list string) : list string :=
  match sections with
  | [] => matches
  | section :: rest =>
      let name := ini.Name section in
      if strings.HasPrefix name "sso-session " then
        if sessionMatches E cfg normStart region section then
          match strings.SplitN2 name " " with
          | [_; label] =>
              matchLoop E cfg normStart region rest (matches ++ [label])%list
          | _ => matchLoop E cfg normStart region rest matches
          end
        else matchLoop E cfg normStart region rest matches
      else matchLoop E cfg normStart region rest matches
  end.

(** [findAllMatchingSsoSessionNames(startURL, region, ssoConfigFile)] *)
Definition findAllMatchingSsoSessionNames (E : Env) (g : Globals)
  (startURL region : string) (w : World) : result (list string) :=
  let normStart := strings.TrimRight startURL "/" in
  match ini_Load E g w with
  | Err err => Err err
  | Ok cfg => Ok (matchLoop E cfg normStart region (ini.Sections cfg) [])
  end.

Definition multipleMatchesError (g : Globals) : error :=
  Errorf ("multiple matching sso-session blocks found for startUrl "
          ++ ssoStartURL g ++ " and region " ++ ssoRegion g).

Definition sessionBlock (g : Globals) (w : World) : string :=
  "[sso-session " ++ ssoSessionConfigName w ++ "]" ++ LF
  ++ "sso_start_url = " ++ strings.TrimRight (ssoStartURL g) "/" ++ LF
  ++ "sso_region = " ++ ssoRegion g ++ LF
  ++ "sso_registration_scopes = sso:account:access" ++ LF.

Definition isDefaultSessionName (name : string) : bool :=
  String.eqb name defaultSSOSessionConfigName || String.eqb name "".

(** Lines 474-492 of [ensureSsoSessionConfigPresent]: [Some r] when the
    function returns [r] there, [None] when control falls through. *)
Definition reuseExistingSession (E : Env) (g : Globals) (w : World)
  : option (bool * option error * World) :=
  if isDefaultSessionName (ssoSessionConfigName w) then
    match configFile w, io_error E (Stat (ssoConfigFile g)) with
    | Some _, None =>
        match findAllMatchingSsoSessionNames E g (ssoStartURL g) (ssoRegion g) w
        with
        | Ok [m] => Some (false, None, set_session w m)
        | Ok (_ :: _ :: _) => Some (false, Some (multipleMatchesError g), w)
        | _ => None
        end
    | _, _ => None
    end
  else None.

(** [ensureSsoSessionConfigPresent] *)
Definition ensureSsoSessionConfigPresent (E : Env) (g : Globals) (w : World)
  : bool * option error * World :=
  let awsConfigPath := ssoConfigFile g in
  let sessionHeader := "[sso-session " ++ ssoSessionConfigName w ++ "]" in
  let readFile : result string :=
    match configFile w with
    | None => Ok ""                       (* os.IsNotExist(err) *)
    | Some data =>
        match io_error E (ReadFile awsConfigPath) with
        | Some err => Err err
        | None => Ok data
        end
    end in
  match readFile with
  | Err err => (false, Some err, w)
  | Ok data =>
      if strings.Contains data sessionHeader then (false, None, w)
      else
        match reuseExistingSession E g w with
        | Some r => r
        | None =>
            if dryRun g then (true, None, w)
            else
              let needsNewline :=
                match lastByte data with
                | Some c => negb (Ascii.eqb c (ascii_of_nat 10))
                | None => false
                end in
              let toWrite :=
                if needsNewline then LF ++ sessionBlock g w
                else sessionBlock g w in
              let w1 := issue w (OpenAppend awsConfigPath) in
              match io_error E (OpenAppend awsConfigPath) with
              | Some err => (false, Some err, w1)
              | None =>
                  let w2 := set_config w1 (Some data) in   (* O_CREATE *)
                  let w3 := issue w2 (WriteString awsConfigPath toWrite) in
                  match io_error E (WriteString awsConfigPath toWrite) with
                  | Some err => (false, Some err, w3)
                  | None => (true, None, set_config w3 (Some (data ++ toWrite)))
                  end
              end
        end
  end.

(** [configureSsoSessionConfig] *)
Definition configureSsoSessionConfig (E : Env) (g : Globals) (w : World)
  : option error * World :=
  let '(added, err, w') := ensureSsoSessionConfigPresent E g w in
  (err, w').

(** The document [writeProfileToConfig] builds in memory before saving. *)
Definition profileDocument (E : Env) (g : Globals) (profileName : string)
  (role : CombinedRole) (w : World) : ini.File :=
  let cfg := match ini_Load E g w with
             | Ok cfg => cfg
             | Err _ => ini.Empty
             end in
  let sectionName := "profile " ++ profileName in
  let cfg := match ini.NewSection cfg sectionName with
             | Ok cfg' => cfg'
             | Err _ => ini.ensureSection cfg sectionName
             end in
  let cfg := ini.SetValue cfg sectionName "sso_session"
               (ssoSessionConfigName w) in
  let cfg := ini.SetValue cfg sectionName "sso_account_id" (AccountId role) in
  let cfg := ini.SetValue cfg sectionName "sso_role_name" (RoleName role) in
  let cfg := ini.SetValue cfg sectionName "region" (ssoRegion g) in
  ini.SetValue cfg sectionName "output" (profileOutput g).

(** [writeProfileToConfig] *)
Definition writeProfileToConfig (E : Env) (g : Globals) (profileName : string)
  (role : CombinedRole) (w : World) : option error * World :=
  if dryRun g then (None, w)
  else
    let cfg := profileDocument E g profileName role w in
    let dir := filepath_Dir (ssoConfigFile g) in
    let w1 := issue w (MkdirAll dir) in
    match io_error E (MkdirAll dir) with
    | Some err => (Some err, w1)
    | None =>
        let touch := WriteFile (ssoConfigFile g) "" in
        let w2 := issue w1 touch in
        match io_error E touch with
        | Some err => (Some err, w2)
        | None =>
            let w3 := set_config w2 (Some "") in
            let save := SaveTo cfg (ssoConfigFile g) in
            let w4 := issue w3 save in
            match io_error E save with
            | Some err => (Some err, w4)
            | None => (None, set_config w4 (Some (ini_render E cfg)))
            end
        end
    end.

(** [profileExists(profileName, ssoConfigFile)]; [cfg.Section] is never
    nil, so the key test decides. *)
Definition profileExists (E : Env) (g : Globals) (profileName : string)
  (w : World) : bool :=
  match ini_Load E g w with
  | Err _ => false
  | Ok cfg =>
      let sectionName := "profile " ++ profileName in
      ini.HasKey cfg (ini.SectionOf cfg sectionName) "sso_session"
  end.

(** ** Account and role discovery *)

(** [getListOfSsoAccounts]: all pages of the paginator at once. *)
Definition getListOfSsoAccounts (E : Env) (w : World) (accessToken : string)
  : result (list ssoTypesAccount) :=
  ListAccounts E (now w) accessToken.

(** [getListOfSsoAccountRolesForAccount] *)
Definition getListOfSsoAccountRolesForAccount (E : Env) (w : World)
  (accessToken accountId : string) : result (list ssoTypesRole) :=
  ListAccountRoles E (now w) accessToken accountId.

(** The inner loop of [getCombinedListOfSsoAccountsAndRoles]; [roleNames]
    stands for the lookup map built from it. *)
Fixpoint selectRoles (roleNames : list string) (account : ssoTypesAccount)
  (roles : list ssoTypesRole) (combined : list CombinedRole)
  : list CombinedRole :=
  match roles with
  | [] => combined
  | role :: rest =>
      if existsb (String.eqb (roleRoleName role)) roleNames
      then selectRoles roleNames account rest
             (combined ++ [mkRole (acctAccountId account) (roleRoleName role)
                             (acctAccountName account)])%list
      else selectRoles roleNames account rest combined
  end.

Fixpoint combineAccounts (E : Env) (w : World) (accessToken : string)
  (roleNames : list string) (accounts : list ssoTypesAccount)
  (combined : list CombinedRole) : result (list CombinedRole) :=
  match accounts with
  | [] => Ok combined
  | account :: rest =>
      match getListOfSsoAccountRolesForAccount E w accessToken
              (acctAccountId account) with
      | Err err => Err err
      | Ok roles =>
          combineAccounts E w accessToken roleNames rest
            (selectRoles roleNames account roles combined)
      end
  end.

(** [getCombinedListOfSsoAccountsAndRoles] *)
Definition getCombinedListOfSsoAccountsAndRoles (E : Env) (w : World)
  (accessToken : string) (roleNames : list string)
  : result (list CombinedRole) :=
  match getListOfSsoAccounts E w accessToken with
  | Err err => Err err
  | Ok accounts => combineAccounts E w accessToken roleNames accounts []
  end.

Fixpoint listRolesLoop (E : Env) (w : World) (accessToken : string)
  (accounts : list ssoTypesAccount) : option error :=
  match accounts with
  | [] => None
  | account :: rest =>
      match getListOfSsoAccountRolesForAccount E w accessToken
              (acctAccountId account) with
      | Err err => Some err
      | Ok _ => listRolesLoop E w accessToken rest
      end
  end.

(** [listAllRolesPerAccount]: only its error matters here. *)
Definition listAllRolesPerAccount (E : Env) (w : World) (accessToken : string)
  : option error :=
  match getListOfSsoAccounts E w accessToken with
  | Err err => Some err
  | Ok accounts => listRolesLoop E w accessToken accounts
  end.

(** ** Profile reconciliation *)

(** The loop of [configureSsoProfiles] over [roles], with its two counters. *)
Fixpoint reconcileProfiles (E : Env) (g : Globals) (roles : list CombinedRole)
  (added skipped : nat) (w : World) : nat * nat * World :=
  match roles with
  | [] => (added, skipped, w)
  | role :: rest =>
      let profileName := getProfileNameFromRole g role in
      if profileExists E g profileName w
      then reconcileProfiles E g rest added (S skipped) w
      else
        match writeProfileToConfig E g profileName role w with
        | (Some _, w') => reconcileProfiles E g rest added skipped w'
        | (None, w') => reconcileProfiles E g rest (S added) skipped w'
        end
  end.

(** [configureSsoProfiles] *)
Definition configureSsoProfiles (E : Env) (g : Globals) (accessToken : string)
  (w : World) : option error * World :=
  match (if dryRun g then listAllRolesPerAccount E w accessToken else None)
  with
  | Some err => (Some err, w)
  | None =>
      match getCombinedListOfSsoAccountsAndRoles E w accessToken
              (ssoRoleNames g) with
      | Err err => (Some err, w)
      | Ok roles =>
          let '(added, skipped, w') := reconcileProfiles E g roles 0 0 w in
          (None, w')
      end
  end.

(** ** The device-authorization flow *)

Definition isPendingOrSlowDown (es : string) : bool :=
  strings.Contains es "authorization_pending"
  || strings.Contains es "AuthorizationPending"
  || strings.Contains es "slow_down"
  || strings.Contains es "SlowDown".

(** How the polling loop of [runAwsSsoLogin] is left: through [break] or
    the loop condition, with the current [tokenOut] (nil after a failed
    exchange), or through [return err]. *)
Inductive PollExit : Type :=
| LoopDone (tokenOut : option CreateTokenOutput)
| Returned (err : error).

(** What one exchange attempt leads to. *)
Inductive Attempt : Type :=
| Break (tokenOut : CreateTokenOutput)
| SleepAndRetry
| ReturnErr (err : error).

Definition classifyAttempt (r : result CreateTokenOutput) : Attempt :=
  match r with
  | Ok tokenOut => Break tokenOut
  | Err err =>
      if isPendingOrSlowDown (Error err) then SleepAndRetry
      else ReturnErr err
  end.

(** The clock once the exchange call made at [now w] has returned. *)
Definition afterCall (E : Env) (w : World) : World :=
  set_now w (now w + Z.max (CreateToken_latency E (now w)) 0).

(** The loop [for time.Now().Before(deadline)]. [fuel] bounds the number of
    iterations; [None] means the bound was too small. The clock never runs
    backwards. *)
Fixpoint pollLoop (fuel : nat) (E : Env) (regOut : RegisterClientOutput)
  (devOut : StartDeviceAuthorizationOutput) (interval deadline : Z)
  (w : World) : option (PollExit * World) :=
  match fuel with
  | O => None
  | S fuel' =>
      if (now w <? deadline)%Z then
        let r := CreateToken E (now w) (ClientId regOut) (ClientSecret regOut)
                   (DeviceCode devOut) in
        let w1 := afterCall E w in
        match classifyAttempt r with
        | Break tokenOut => Some (LoopDone (Some tokenOut), w1)
        | SleepAndRetry =>
            pollLoop fuel' E regOut devOut interval deadline
              (Sleep w1 (interval * second))
        | ReturnErr err => Some (Returned err, w1)
        end
      else Some (LoopDone None, w)
  end.

(** Iterations that always suffice: every retry sleeps a second or more. *)
Definition pollFuel (devOut : StartDeviceAuthorizationOutput) : nat :=
  S (Z.to_nat (ExpiresIn devOut)).

Definition noTokenError : error :=
  Errorf "failed to obtain access token via device authorization".

Fixpoint removeEntry (name : string) (d : list DirEntry) : list DirEntry :=
  match d with
  | [] => []
  | e :: rest => if String.eqb (de_name e) name then removeEntry name rest
                 else e :: removeEntry name rest
  end.

(** The directory after a file was created or replaced. *)
Definition putEntry (e : DirEntry) (d : list DirEntry) : list DirEntry :=
  (removeEntry (de_name e) d ++ [e])%list.

Definition decimal (z : Z) : string := NilZero.string_of_int (Z.to_int z).

(** Lines 153-192 of [runAwsSsoLogin]: the token goes to a new cache file. *)
Definition writeTokenCache (E : Env) (g : Globals) (accessToken : string)
  (expiresIn : Z) (w : World) : option error * World :=
  let cacheDirPath := ssoCacheDir E in
  let w1 := issue w (MkdirAll cacheDirPath) in
  match io_error E (MkdirAll cacheDirPath) with
  | Some err => (Some err, w1)
  | None =>
      let w1 := madeCacheDir w1 in
      let ts := now w1 in
      let filename := "sso_token_" ++ decimal ts ++ ".json" in
      let outPath := filepath_Join [cacheDirPath; filename] in
      let expiresAt := time_FormatRFC3339 E (now w1 + expiresIn * second) in
      let m : JObject :=
        [ ("startUrl", JString (strings.TrimRight (ssoStartURL g) "/"));
          ("region", JString (ssoRegion g));
          ("accessToken", JString accessToken);
          ("expiresAt", JString expiresAt) ] in
      match json_MarshalIndent E m with
      | Err err => (Some err, w1)
      | Ok b =>
          let tmpPath := outPath ++ ".tmp" in
          let w2 := issue w1 (WriteFile tmpPath b) in
          match io_error E (WriteFile tmpPath b) with
          | Some err => (Some err, w2)
          | None =>
              let tmpName := filename ++ ".tmp" in
              let w3 := set_cache w2
                          (putEntry (mkDirEntry tmpName b (now w2))
                             (cacheDir w2)) in
              let w4 := issue w3 (Rename tmpPath outPath) in
              match io_error E (Rename tmpPath outPath) with
              | Some err =>
                  let w5 := issue w4 (Remove tmpPath) in
                  match io_error E (Remove tmpPath) with
                  | Some _ => (Some err, w5)
                  | None =>
                      (Some err,
                       set_cache w5 (removeEntry tmpName (cacheDir w5)))
                  end
              | None =>
                  (None,
                   set_cache w4
                     (putEntry (mkDirEntry filename b (now w2))
                        (removeEntry tmpName (cacheDir w4))))
              end
          end
      end
  end.

(** [runAwsSsoLogin] (its default value). *)
Definition runAwsSsoLogin (E : Env) (g : Globals) (session : string)
  (w : World) : option error * World :=
  match RegisterClient E (now w) with
  | Err err => (Some err, w)
  | Ok regOut =>
      match StartDeviceAuthorization E (now w) (ClientId regOut)
              (ClientSecret regOut) (strings.TrimRight (ssoStartURL g) "/")
      with
      | Err err => (Some err, w)
      | Ok devOut =>
          let interval :=
            if (Interval devOut >? 0)%Z then Interval devOut else 5%Z in
          let deadline := (now w + ExpiresIn devOut * second)%Z in
          match pollLoop (pollFuel devOut) E regOut devOut interval deadline w
          with
          | Some (Returned err, w1) => (Some err, w1)
          | Some (LoopDone (Some (mkTokenOut (Some accessToken) expiresIn)),
                  w1) =>
              writeTokenCache E g accessToken expiresIn w1
          | Some (LoopDone _, w1) => (Some noTokenError, w1)
          | None => (Some noTokenError, w)
          end
      end
  end.

(** ** Login *)

(** [isSsoTokenValid], through the default [isSsoTokenValidFunc]. *)
Definition isSsoTokenValid (E : Env) (w : World) (accessToken : string)
  : bool :=
  match getListOfSsoAccounts E w accessToken with
  | Ok _ => true
  | Err _ => false
  end.

(** The session-name resolution login performs at lines 800-813 and
    878-888: [Some err] when login returns there. *)
Definition resolveSessionName (E : Env) (g : Globals) (w : World)
  : option error * World :=
  if isDefaultSessionName (ssoSessionConfigName w) then
    match findAllMatchingSsoSessionNames E g (ssoStartURL g) (ssoRegion g) w
    with
    | Ok [m] => (None, set_session w m)
    | Ok (_ :: _ :: _) => (Some (multipleMatchesError g), w)
    | _ => (None, w)
    end
  else (None, w).

(** The local variables the retry loop of [login] assigns. *)
Record RetryState := mkRetry {
  accessToken : string;
  tokenPath : string;
  lastErr : option error
}.

(** [for i := 0; i < 10; i++] of login, with [n] iterations left. *)
Fixpoint retryLoop (n : nat) (E : Env) (g : Globals) (st : RetryState)
  (w : World) : RetryState * World :=
  match n with
  | O => (st, w)
  | S n' =>
      match getAccessTokenFromSsoSessionWithPath E g w with
      | Ok (tok, p) =>
          if isSsoTokenValid E w tok then (mkRetry tok p None, w)
          else retryLoop n' E g (mkRetry tok p None)
                 (Sleep w (500 * millisecond))
      | Err err =>
          retryLoop n' E g (mkRetry "" "" (Some err))
            (Sleep w (500 * millisecond))
      end
  end.

(** What login does once a valid token is at hand. *)
Definition finishWithToken (E : Env) (g : Globals) (tok : string) (w : World)
  : option error * World :=
  match ssoRoleNames g with
  | [] => (None, w)
  | _ :: _ => configureSsoProfiles E g tok w
  end.

(** [login], from the call of [runAwsSsoLogin] on. *)
Definition loginAfterDeviceFlow (E : Env) (g : Globals) (st : RetryState)
  (w : World) : option error * World :=
  let '(st1, w1) := retryLoop 10 E g st w in
  match lastErr st1 with
  | Some err =>
      (Some (Errorf ("SSO login did not produce a valid access token: "
                     ++ Error err)), w1)
  | None =>
      match resolveSessionName E g w1 with
      | (Some err, w2) => (Some err, w2)
      | (None, w2) =>
          match configureSsoSessionConfig E g w2 with
          | (Some err, w3) => (Some err, w3)
          | (None, w3) => finishWithToken E g (accessToken st1) w3
          end
      end
  end.

(** [login], from line 831 on: no valid cached token was found. *)
Definition loginFresh (E : Env) (g : Globals) (st : RetryState) (w : World)
  : option error * World :=
  match (if negb (dryRun g) then configureSsoSessionConfig E g w
         else (None, w)) with
  | (Some err, w1) => (Some err, w1)
  | (None, w1) =>
      match runAwsSsoLogin E g (ssoSessionConfigName w1) w1 with
      | (Some err, w2) => (Some err, w2)
      | (None, w2) => loginAfterDeviceFlow E g st w2
      end
  end.

(** [login], with the default values of the injectable hooks. *)
Definition login (E : Env) (g : Globals) (w : World) : option error * World :=
  match getAccessTokenFromSsoSessionWithPath E g w with
  | Ok (tok, p) =>
      if isSsoTokenValid E w tok then
        match resolveSessionName E g w with
        | (Some err, w1) => (Some err, w1)
        | (None, w1) => finishWithToken E g tok w1
        end
      else loginFresh E g (mkRetry tok p None) w
  | Err err => loginFresh E g (mkRetry "" "" None) w
  end.

(** ** A concrete environment for examples *)

Module Sample.

(** The lines of a text. *)
Fixpoint lines (s : string) : list string :=
  match s with
  | EmptyString => [EmptyString]
  | String c s' =>
      if Ascii.eqb c (ascii_of_nat 10) then EmptyString :: lines s'
      else match lines s' with
           | l :: rest => String c l :: rest
           | [] => [String c EmptyString]
           end
  end.

Fixpoint TrimLeftSpace (s : string) : string :=
  match s with
  | String c s' => if Ascii.eqb c " " then TrimLeftSpace s' else s
  | EmptyString => EmptyString
  end.

Definition renderKey (kv : string * string) : string :=
  fst kv ++ " = " ++ snd kv ++ LF.

Definition renderSection (s : ini.Section) : string :=
  if String.eqb (ini.Name s) ini.DefaultSection then
    match ini.keys s with
    | [] => ""
    | kvs => String.concat "" (map renderKey kvs) ++ LF
    end
  else
    "[" ++ ini.Name s ++ "]" ++ LF
    ++ String.concat "" (map renderKey (ini.keys s)) ++ LF.

(** A line-oriented INI writer: a header line per section, one
    [key = value] line per key, a blank line after each section; the
    default section has no header and is left out when it has no key. *)
Definition render (cfg : ini.File) : string :=
  String.concat "" (map renderSection cfg).

(** The reader keeps the document read so far and the name of the section
    the next key belongs to; a repeated header continues its section. *)
Definition parseLine (st : option (ini.File * string)) (line : string)
  : option (ini.File * string) :=
  match st with
  | None => None
  | Some (cfg, cur) =>
      match line with
      | EmptyString => Some (cfg, cur)
      | String c rest =>
          if Ascii.eqb c "#" || Ascii.eqb c ";" then Some (cfg, cur)
          else if Ascii.eqb c "[" then
            if strings.HasSuffix rest "]" then
              let name := strings.take (String.length rest - 1) rest in
              match ini.NewSection cfg name with
              | Ok cfg' => Some (cfg', name)
              | Err _ => None
              end
            else None
          else
            match strings.SplitN2 line "=" with
            | [k; v] =>
                Some (ini.NewKey cfg cur
                        (strings.TrimRight k " ") (TrimLeftSpace v), cur)
            | _ => None
            end
      end
  end.

Definition parse (data : string) : option ini.File :=
  match fold_left parseLine (lines data)
          (Some (ini.Empty, ini.DefaultSection)) with
  | Some (cfg, _) => Some cfg
  | None => None
  end.

(** A stand-in for encoding/json on flat objects of strings: one
    [key=value] line per member. *)
Definition marshalMember (kv : string * JValue) : string :=
  match snd kv with
  | JString v => fst kv ++ "=" ++ v ++ LF
  | JOther => fst kv ++ LF
  end.

Definition marshal (m : JObject) : result string :=
  Ok (String.concat "" (map marshalMember m)).

Definition unmarshalLine (acc : option JObject) (line : string)
  : option JObject :=
  match acc with
  | None => None
  | Some m =>
      match line with
      | EmptyString => Some m
      | _ => match strings.SplitN2 line "=" with
             | [k; v] => Some (m ++ [(k, JString v)])%list
             | _ => None
             end
      end
  end.

Definition unmarshal (data : string) : option JObject :=
  fold_left unmarshalLine (lines data) (Some []).

(** No call fails; the device is authorised at once; every token is
    valid and sees one account with two roles. The examples hold no value
    with a "%", so nothing is ever substituted. *)
Definition env : Env :=
  {| io_error := fun _ => None;
     homeDir := "/home/user";
     ini_parse := parse;
     ini_render := render;
     ini_interpolate := fun _ _ _ v => v;
     json_Unmarshal := unmarshal;
     json_MarshalIndent := marshal;
     time_FormatRFC3339 := decimal;
     RegisterClient := fun _ => Ok (mkRegOut "client" "secret");
     StartDeviceAuthorization := fun _ _ _ _ =>
       Ok (mkDevOut "device" "ABCD" "https://device.test/?code=ABCD" 5 600);
     CreateToken := fun _ _ _ _ => Ok (mkTokenOut (Some "fresh-token") 3600);
     CreateToken_latency := fun _ => 0%Z;
     ListAccounts := fun _ _ => Ok [mkAccount "123" "My App"];
     ListAccountRoles := fun _ _ _ =>
       Ok [mkSsoRole "AWSReadOnlyAccess"; mkSsoRole "AWSPowerUserAccess"] |}.

Definition with_io (E : Env) (f : IOCall -> option error) : Env :=
  mkEnv f (homeDir E) (ini_parse E) (ini_render E)
    (ini_interpolate E) (json_Unmarshal E)
    (json_MarshalIndent E) (time_FormatRFC3339 E) (RegisterClient E)
    (StartDeviceAuthorization E) (CreateToken E) (CreateToken_latency E)
    (ListAccounts E) (ListAccountRoles E).

Definition with_CreateToken (E : Env)
  (f : Z -> string -> string -> string -> result CreateTokenOutput) : Env :=
  mkEnv (io_error E) (homeDir E) (ini_parse E) (ini_render E) (ini_interpolate E)
    (json_Unmarshal E) (json_MarshalIndent E) (time_FormatRFC3339 E)
    (RegisterClient E) (StartDeviceAuthorization E) f
    (CreateToken_latency E) (ListAccounts E) (ListAccountRoles E).

Definition with_ListAccounts (E : Env)
  (f : Z -> string -> result (list ssoTypesAccount)) : Env :=
  mkEnv (io_error E) (homeDir E) (ini_parse E) (ini_render E) (ini_interpolate E)
    (json_Unmarshal E) (json_MarshalIndent E) (time_FormatRFC3339 E)
    (RegisterClient E) (StartDeviceAuthorization E) (CreateToken E)
    (CreateToken_latency E) f (ListAccountRoles E).

Definition globals : Globals :=
  {| ssoRoleNames := ["AWSReadOnlyAccess"];
     profilePrefix := "";
     useAutoPrefix := true;
     ssoStartURL := "https://unit.test/start";
     ssoRegion := "us-east-1";
     ssoConfigFile := "/home/user/.aws/config";
     dryRun := false;
     openBrowser := false;
     profileOutput := "json" |}.

Definition with_dryRun (g : Globals) (b : bool) : Globals :=
  mkGlobals (ssoRoleNames g) (profilePrefix g) (useAutoPrefix g)
    (ssoStartURL g) (ssoRegion g) (ssoConfigFile g) b (openBrowser g)
    (profileOutput g).

Definition with_roles (g : Globals) (r : list string) : Globals :=
  mkGlobals r (profilePrefix g) (useAutoPrefix g)
    (ssoStartURL g) (ssoRegion g) (ssoConfigFile g) (dryRun g)
    (openBrowser g) (profileOutput g).

Definition with_startURL (g : Globals) (u : string) : Globals :=
  mkGlobals (ssoRoleNames g) (profilePrefix g) (useAutoPrefix g)
    u (ssoRegion g) (ssoConfigFile g) (dryRun g) (openBrowser g)
    (profileOutput g).

(** An empty machine at 2023-11-14T22:13:20Z. *)
Definition world : World :=
  {| ssoSessionConfigName := "default";
     configFile := None;
     cacheDirExists := true;
     cacheDir := [];
     now := 1700000000 * second;
     calls := [] |}.

Definition sessionText (name url region : string) : string :=
  "[sso-session " ++ name ++ "]" ++ LF
  ++ "sso_start_url = " ++ url ++ LF
  ++ "sso_region = " ++ region ++ LF
  ++ "sso_registration_scopes = sso:account:access" ++ LF.

Definition tokenFile (name url tok : string) (t : Z) : DirEntry :=
  mkDirEntry name ("startUrl=" ++ url ++ LF ++ "accessToken=" ++ tok ++ LF) t.

End Sample.

(** ** Reference notions used in the statements *)

(** The candidates a directory listing yields, file by file. *)
Definition candidatesOf (E : Env) (g : Globals) (files : list DirEntry)
  : list candidate :=
  flat_map (fun f => match candidateOf E g f with
                     | Some c => [c]
                     | None => []
                     end) files.

(** Trailing-slash-insensitive equality of two URLs. *)
Definition sameUrlModuloSlash (a b : string) : bool :=
  String.eqb (strings.TrimRight a "/") (strings.TrimRight b "/").

(** A section that declares a session for the target endpoint: it is named
    [sso-session <label>] and its start URL and region, as the library
    reads them from the document, equal the target's, the URLs compared
    modulo trailing slashes. *)
Definition declaresMatchingSession (E : Env) (g : Globals) (cfg : ini.File)
  (section : ini.Section) : bool :=
  strings.HasPrefix (ini.Name section) "sso-session "
  && sameUrlModuloSlash (KeyString E cfg section "sso_start_url")
       (ssoStartURL g)
  && String.eqb (KeyString E cfg section "sso_region") (ssoRegion g).

(** The label of a section named [sso-session <label>]. *)
Definition sessionLabel (section : ini.Section) : string :=
  strings.drop (String.length "sso-session ") (ini.Name section).

(** The header line [ensureSsoSessionConfigPresent] looks for in the text
    of the config file. *)
Definition sessionHeader (w : World) : string :=
  "[sso-session " ++ ssoSessionConfigName w ++ "]".

(** The section called [n] is declared and holds the key [k] itself. *)
Definition keyAt (cfg : ini.File) (n k : string) : Prop :=
  exists sec, ini.sectionNamed cfg n = Some sec
              /\ ini.lookupKey (ini.keys sec) k <> None.

(** [cfg.Section(name).HasKey(k)] *)
Definition hasKeyIn (cfg : ini.File) (name k : string) : bool :=
  ini.HasKey cfg (ini.SectionOf cfg name) k.

(** A saved document reads back as it was saved: parsing the bytes that
    [cfg.SaveTo] renders gives [cfg] again. Other calls pass. *)
Definition readsBack (E : Env) (c : IOCall) : bool :=
  match c with
  | SaveTo cfg _ =>
      match ini_parse E (ini_render E cfg) with
      | Some cfg' => ini.File_eqb cfg' cfg
      | None => false
      end
  | _ => true
  end.

(** The calls issued between the worlds [w0] and [w1] of one execution. *)
Definition issuedSince (w0 w1 : World) : list IOCall :=
  skipn (List.length (calls w0)) (calls w1).

(** Every exchange attempt meets a pending-authorization or rate-limit
    signal. *)
Definition alwaysPending (E : Env) (regOut : RegisterClientOutput)
  (devOut : StartDeviceAuthorizationOutput) : Prop :=
  forall t, exists err,
    CreateToken E t (ClientId regOut) (ClientSecret regOut) (DeviceCode devOut)
    = Err err
    /\ isPendingOrSlowDown (Error err) = true.

Fixpoint allBytes (p : ascii -> bool) (s : string) : bool :=
  match s with
  | EmptyString => true
  | String c s' => p c && allBytes p s'
  end.

(** ** Further functions of main.go *)

(** The loop of [findMatchingSsoSessionName]: the label of the first
    matching session section. *)
Fixpoint firstMatchLoop (E : Env) (cfg : ini.File) (normStart region : string)
  (sections : list ini.Section) : string * bool :=
  match sections with
  | [] => ("", false)
  | section :: rest =>
      let name := ini.Name section in
      if strings.HasPrefix name "sso-session " then
        if sessionMatches E cfg normStart region section then
          match strings.SplitN2 name " " with
          | [_; label] => (label, true)
          | _ => firstMatchLoop E cfg normStart region rest
          end
        else firstMatchLoop E cfg normStart region rest
      else firstMatchLoop E cfg normStart region rest
  end.

(** [findMatchingSsoSessionName(startURL, region, ssoConfigFile)] *)
Definition findMatchingSsoSessionName (E : Env) (g : Globals)
  (startURL region : string) (w : World) : string * bool :=
  let normStart := strings.TrimRight startURL "/" in
  match ini_Load E g w with
  | Err _ => ("", false)
  | Ok cfg => firstMatchLoop E cfg normStart region (ini.Sections cfg)
  end.

(** The pointer [cfg.Section(name)] that [getExistingSsoSessionBlock] tests
    against nil: the library creates the section when it is missing, so the
    pointer is never nil. *)
Definition cfg_Section (cfg : ini.File) (name : string)
  : option ini.Section :=
  Some (ini.SectionOf cfg name).

(** [getExistingSsoSessionBlock(sessionName, ssoConfigFile)] *)
Definition getExistingSsoSessionBlock (E : Env) (g : Globals)
  (sessionName : string) (w : World) : result string :=
  match ini_Load E g w with
  | Err err => Err err
  | Ok cfg =>
      let sectionName := "sso-session " ++ sessionName in
      match cfg_Section cfg sectionName with
      | None => Err (Errorf ("sso-session " ++ sessionName ++ " not found"))
      | Some section =>
          let ssoStart :=
            strings.TrimRight (KeyString E cfg section "sso_start_url") "/" in
          let ssoRegion := KeyString E cfg section "sso_region" in
          let ssoScopes := KeyString E cfg section "sso_registration_scopes" in
          let ssoScopes := if String.eqb ssoScopes "" then "sso:account:access"
                           else ssoScopes in
          let block := "[sso-session " ++ sessionName ++ "]" ++ LF in
          let block := block ++ ("sso_start_url = " ++ ssoStart ++ LF) in
          let block := block ++ ("sso_region = " ++ ssoRegion ++ LF) in
          let block :=
            block ++ ("sso_registration_scopes = " ++ ssoScopes ++ LF) in
          Ok (block ++ LF)
      end
  end.

(** The loop of [printBlockIndented] from index [i] on, over the [n] lines
    of the block: the text it writes to standard output. *)
Fixpoint printLinesFrom (indent : string) (n i : nat) (lines : list string)
  : string :=
  match lines with
  | [] => ""
  | l :: rest =>
      if Nat.eqb i (n - 1) && String.eqb l "" then ""
      else (if Nat.eqb i 0 then indent ++ l ++ LF
            else indent ++ "  " ++ l ++ LF)
           ++ printLinesFrom indent n (S i) rest
  end.

(** [printBlockIndented(indent, block)] *)
Definition printBlockIndented (indent block : string) : string :=
  let lines := strings.Split block (ascii_of_nat 10) in
  printLinesFrom indent (List.length lines) 0 lines.

(** ** Further reference notions *)

(** The roles of one account that were asked for, as [CombinedRole]s. *)
Definition wantedRoles (roleNames : list string) (account : ssoTypesAccount)
  (roles : list ssoTypesRole) : list CombinedRole :=
  map (fun role => mkRole (acctAccountId account) (roleRoleName role)
                     (acctAccountName account))
      (filter (fun role => existsb (String.eqb (roleRoleName role)) roleNames)
         roles).

(** The five keys [writeProfileToConfig] sets, with their values. *)
Definition profileKeys (g : Globals) (w : World) (role : CombinedRole)
  : list (string * string) :=
  [ ("sso_session", ssoSessionConfigName w);
    ("sso_account_id", AccountId role);
    ("sso_role_name", RoleName role);
    ("region", ssoRegion g);
    ("output", profileOutput g) ].

(** No byte of the string is a line feed. *)
Definition singleLine (s : string) : bool :=
  allBytes (fun c => negb (Ascii.eqb c (ascii_of_nat 10))) s.

(** The object [runAwsSsoLogin] marshals into the cache file when the
    token is written at time [t]. *)
Definition tokenObject (E : Env) (g : Globals) (accessToken : string)
  (expiresIn t : Z) : JObject :=
  [ ("startUrl", JString (strings.TrimRight (ssoStartURL g) "/"));
    ("region", JString (ssoRegion g));
    ("accessToken", JString accessToken);
    ("expiresAt", JString (time_FormatRFC3339 E (t + expiresIn * second))) ].

(** The name of the cache file written at time [t]. *)
Definition tokenFileName (t : Z) : string :=
  "sso_token_" ++ decimal t ++ ".json".

(** [cfg.Section(name).GetKey(k)]: the section that holds the key found,
    and its value. *)
Definition keyOf (cfg : ini.File) (name k : string)
  : option (string * string) :=
  ini.GetKey cfg (ini.SectionOf cfg name) k.

(** The value [cfg.Section(name)] answers with for the key [k], if it
    finds one: its own or that of a parent section. *)
Definition lookupIn (cfg : ini.File) (name k : string) : option string :=
  option_map snd (keyOf cfg name k).

(** The value the section called [name] itself holds for the key [k]. *)
Definition storedIn (cfg : ini.File) (name k : string) : option string :=
  match ini.sectionNamed cfg name with
  | Some s => ini.lookupKey (ini.keys s) k
  | None => None
  end.

(** The roles whose profile the config file of [w] already has. *)
Definition presentRoles (E : Env) (g : Globals) (w : World)
  (roles : list CombinedRole) : list CombinedRole :=
  filter (fun role => profileExists E g (getProfileNameFromRole g role) w)
    roles.

(** The roles whose profile the config file of [w] does not have. *)
Definition absentRoles (E : Env) (g : Globals) (w : World)
  (roles : list CombinedRole) : list CombinedRole :=
  filter (fun role =>
            negb (profileExists E g (getProfileNameFromRole g role) w))
    roles.

(** The error [login] returns when the retries end without a token. *)
Definition noValidTokenError (err : error) : error :=
  Errorf ("SSO login did not produce a valid access token: " ++ Error err).

(** The line [printBlockIndented] prints for a line that is not the first. *)
Definition continuationLine (indent l : string) : string :=
  indent ++ "  " ++ l ++ LF.

(** * Properties *)

(** ** Strings *)

Lemma length_append (a b : string) :
  String.length (a ++ b) = String.length a + String.length b.
Proof. induction a as [|c a IH]; simpl; [reflexivity | now rewrite IH]. Qed.

Lemma drop_append (a b : string) : strings.drop (String.length a) (a ++ b) = b.
Proof. induction a as [|c a IH]; simpl; [now destruct b | exact IH]. Qed.

Lemma take_append (a b : string) : strings.take (String.length a) (a ++ b) = a.
Proof. induction a as [|c a IH]; simpl; [now destruct b | now rewrite IH]. Qed.

Lemma HasSuffix_append (a b : string) : strings.HasSuffix (a ++ b) b = true.
Proof.
  unfold strings.HasSuffix. rewrite length_append.
  replace (String.length a + String.length b - String.length b)
    with (String.length a) by lia.
  rewrite drop_append, String.eqb_refl, andb_true_r.
  apply Nat.leb_le. lia.
Qed.

Lemma TrimSuffix_append (a b : string) : strings.TrimSuffix (a ++ b) b = a.
Proof.
  unfold strings.TrimSuffix. rewrite HasSuffix_append, length_append.
  replace (String.length a + String.length b - String.length b)
    with (String.length a) by lia.
  apply take_append.
Qed.

(** Stripping the vendor marker and the suffix leaves the middle part. *)
Lemma generatePrefixFromRole_strips (x : string) :
  generatePrefixFromRole ("AWS" ++ x ++ "Access")
  = if String.eqb x "" then "" else x ++ "_".
Proof.
  unfold generatePrefixFromRole.
  change (strings.TrimPrefix ("AWS" ++ x ++ "Access") "AWS")
    with (x ++ "Access").
  rewrite TrimSuffix_append. now destruct (String.eqb x "").
Qed.

(** The sanitised account name has no underscore and no white space left. *)
Lemma replaceRuns_clean (s : string) (inRun : bool) :
  allBytes (fun c => negb (regexp.underscoreOrSpace c))
           (regexp.replaceRuns inRun s "-") = true.
Proof.
  revert inRun. induction s as [|c s IH]; intro inRun; simpl; [reflexivity|].
  destruct (regexp.underscoreOrSpace c) eqn:Hc.
  - destruct inRun; simpl; apply IH.
  - simpl. rewrite Hc. simpl. apply IH.
Qed.

(** ** Profile naming *)

(** C5. Profile naming follows the stated algorithm: "AWSReadOnlyAccess"
    gives the prefix "ReadOnly_" and "Access" gives the empty prefix, both
    applied when auto-prefix is on and no explicit prefix is set; "My App"
    is sanitised to "My-App"; an explicit prefix always wins; the name is
    prefix, sanitised account name, underscore and account id when the
    prefix is not empty, and the same without prefix otherwise. *)
Theorem profile_naming_follows_algorithm (g : Globals) (role : CombinedRole) :
  let safe := regexp.ReplaceAllString (AccountName role) "-" in
  let auto := generatePrefixFromRole (RoleName role) in
  generatePrefixFromRole "AWSReadOnlyAccess" = "ReadOnly_"
  /\ generatePrefixFromRole "Access" = ""
  /\ regexp.ReplaceAllString "My App" "-" = "My-App"
  /\ (profilePrefix g = "" -> useAutoPrefix g = true ->
      RoleName role = "AWSReadOnlyAccess" ->
      getProfileNameFromRole g role = "ReadOnly_" ++ safe ++ "_" ++ AccountId role)
  /\ (profilePrefix g = "" -> useAutoPrefix g = true ->
      RoleName role = "Access" ->
      getProfileNameFromRole g role = safe ++ "_" ++ AccountId role)
  /\ (profilePrefix g <> "" ->
      getProfileNameFromRole g role
      = profilePrefix g ++ safe ++ "_" ++ AccountId role)
  /\ (profilePrefix g = "" -> useAutoPrefix g = true -> auto <> "" ->
      getProfileNameFromRole g role = auto ++ safe ++ "_" ++ AccountId role)
  /\ (profilePrefix g = "" -> useAutoPrefix g = false \/ auto = "" ->
      getProfileNameFromRole g role = safe ++ "_" ++ AccountId role).
Proof.
  intros safe auto. subst safe auto.
  repeat match goal with |- _ /\ _ => split end;
    try reflexivity; unfold getProfileNameFromRole.
  - intros Hp Ha Hr. rewrite Hp, Ha, Hr. reflexivity.
  - intros Hp Ha Hr. rewrite Hp, Ha, Hr. reflexivity.
  - intros Hp. destruct (String.eqb_spec (profilePrefix g) ""); [contradiction|].
    simpl. destruct (String.eqb_spec (profilePrefix g) ""); [contradiction|].
    reflexivity.
  - intros Hp Ha Hn. rewrite Hp, Ha. simpl.
    destruct (String.eqb_spec (generatePrefixFromRole (RoleName role)) "");
      [contradiction | reflexivity].
  - intros Hp [Ha | Hn]; rewrite Hp; simpl.
    + rewrite Ha. reflexivity.
    + destruct (useAutoPrefix g); [rewrite Hn|]; reflexivity.
Qed.

Lemma profile_naming_witness :
  getProfileNameFromRole Sample.globals
    (mkRole "123" "AWSReadOnlyAccess" "My App") = "ReadOnly_My-App_123".
Proof.
  exact (proj1 (proj2 (proj2 (proj2
    (profile_naming_follows_algorithm Sample.globals
       (mkRole "123" "AWSReadOnlyAccess" "My App")))))
    eq_refl eq_refl eq_refl).
Defined.

(** ** The token cache *)

Lemma candidate_eq_dec (a b : candidate) : {a = b} + {a <> b}.
Proof. decide equality; auto using string_dec, Z.eq_dec. Qed.

Lemma collectCandidates_spec (E : Env) (g : Globals) (files : list DirEntry) :
  forall acc,
    collectCandidates E g files acc = (acc ++ candidatesOf E g files)%list.
Proof.
  induction files as [|f files IH]; intro acc; simpl.
  - now rewrite app_nil_r.
  - destruct (candidateOf E g f); rewrite IH; simpl; [|reflexivity].
    now rewrite <- app_assoc.
Qed.

Lemma candidatesOf_app (E : Env) (g : Globals) (l1 l2 : list DirEntry) :
  candidatesOf E g (l1 ++ l2)
  = (candidatesOf E g l1 ++ candidatesOf E g l2)%list.
Proof. unfold candidatesOf. apply flat_map_app. Qed.

Lemma candidatesOf_perm (E : Env) (g : Globals) (l1 l2 : list DirEntry) :
  Permutation l1 l2 ->
  Permutation (candidatesOf E g l1) (candidatesOf E g l2).
Proof. intro H. unfold candidatesOf. now apply Permutation_flat_map. Qed.

Lemma pickLatest_in (cs : list candidate) :
  forall c, In (pickLatest c cs) (c :: cs).
Proof.
  induction cs as [|d cs IH]; intro c; simpl; [now left|].
  specialize (IH (if (modTime d >? modTime c)%Z then d else c)).
  destruct IH as [IH | IH]; [|now right; right].
  rewrite <- IH. destruct (modTime d >? modTime c)%Z; auto.
Qed.

Lemma pickLatest_ge_start (cs : list candidate) :
  forall c, (modTime c <= modTime (pickLatest c cs))%Z.
Proof.
  induction cs as [|d cs IH]; intro c; simpl; [lia|].
  specialize (IH (if (modTime d >? modTime c)%Z then d else c)).
  destruct (Z.gtb_spec (modTime d) (modTime c)); lia.
Qed.

Lemma pickLatest_max (cs : list candidate) :
  forall c d, In d (c :: cs) -> (modTime d <= modTime (pickLatest c cs))%Z.
Proof.
  induction cs as [|e cs IH]; intros c d Hin; simpl.
  - destruct Hin as [Hd | []]. subst d. lia.
  - pose proof (pickLatest_ge_start cs
                  (if (modTime e >? modTime c)%Z then e else c)) as H.
    destruct Hin as [Hd | [Hd | Hin]].
    + subst d. destruct (Z.gtb_spec (modTime e) (modTime c)); lia.
    + subst d. destruct (Z.gtb_spec (modTime e) (modTime c)); lia.
    + apply IH. now right.
Qed.

Lemma ReadCacheDir_inv (E : Env) (w : World) (files : list DirEntry) :
  ReadCacheDir E w = Ok files ->
  cacheDirExists w = true
  /\ io_error E (ReadDir (ssoCacheDir E)) = None
  /\ files = cacheDir w.
Proof.
  unfold ReadCacheDir. destruct (cacheDirExists w); [|discriminate].
  destruct (io_error E (ReadDir _)); [discriminate|].
  intro H. injection H as <-. auto.
Qed.

Lemma ReadCacheDir_set_cache (E : Env) (w : World)
  (files files' : list DirEntry) :
  ReadCacheDir E w = Ok files ->
  ReadCacheDir E (set_cache w files') = Ok files'.
Proof.
  intro H. apply ReadCacheDir_inv in H. destruct H as (Hex & Hio & _).
  unfold ReadCacheDir. simpl. now rewrite Hex, Hio.
Qed.

(** What [findFreshest] returns on a listing with candidates. *)
Lemma findFreshest_some (E : Env) (g : Globals) (w : World) :
  ReadCacheDir E w = Ok (cacheDir w) ->
  candidatesOf E g (cacheDir w) <> [] ->
  exists c, findFreshest E g w = Ok c
            /\ In c (candidatesOf E g (cacheDir w))
            /\ forall d, In d (candidatesOf E g (cacheDir w)) ->
                         (modTime d <= modTime c)%Z.
Proof.
  intros Hdir Hne. unfold findFreshest. rewrite Hdir.
  rewrite collectCandidates_spec. simpl.
  destruct (candidatesOf E g (cacheDir w)) as [|c0 cs] eqn:Hc; [contradiction|].
  exists (pickLatest c0 (c0 :: cs)). split; [reflexivity|]. split.
  - destruct (pickLatest_in (c0 :: cs) c0) as [H | H]; [now left | exact H].
  - intros d Hd. apply pickLatest_max. now right.
Qed.

(** What holds of C6: modification times are compared in whole seconds
    ([modTime] of a candidate); whenever the listing holds a candidate for
    the target URL, [findFreshest] returns a candidate whose time in seconds
    is the maximum, and so it does for every other order of the same files,
    with the very same entry when one entry is strictly the newest at that
    granularity; a file that does not decode is skipped; without candidates
    the result is the not-found error. *)
Lemma findFreshest_newest_second (E : Env) (g : Globals) (w : World) :
  ReadCacheDir E w = Ok (cacheDir w) ->
  let cands := candidatesOf E g (cacheDir w) in
  (forall files', Permutation (cacheDir w) files' -> cands <> [] ->
     exists c c',
       findFreshest E g w = Ok c
       /\ getAccessTokenFromSsoSessionWithPath E g w = Ok (token c, path c)
       /\ findFreshest E g (set_cache w files') = Ok c'
       /\ In c cands /\ In c' cands
       /\ (forall d, In d cands -> (modTime d <= modTime c)%Z)
       /\ modTime c' = modTime c
       /\ ((forall d, In d cands -> d <> c -> (modTime d < modTime c)%Z) ->
           c' = c))
  /\ (forall pre post f,
        cacheDir w = (pre ++ f :: post)%list ->
        json_Unmarshal E (de_data f) = None ->
        findFreshest E g w = findFreshest E g (set_cache w (pre ++ post)))
  /\ (cands = [] ->
      findFreshest E g w
      = Err (Errorf ("no valid SSO accessToken found for startUrl "
                     ++ ssoStartURL g))).
Proof.
  intros Hdir cands. subst cands. repeat split.
  - intros files' Hperm Hne.
    pose proof (candidatesOf_perm E g _ _ Hperm) as Hp.
    destruct (findFreshest_some E g w Hdir Hne) as (c & Hc & Hin & Hmax).
    assert (Hdir' : ReadCacheDir E (set_cache w files')
                    = Ok (cacheDir (set_cache w files')))
      by exact (ReadCacheDir_set_cache E w _ files' Hdir).
    assert (Hne' : candidatesOf E g (cacheDir (set_cache w files')) <> []).
    { simpl. intro H0. rewrite H0 in Hp. apply Permutation_sym in Hp.
      apply Permutation_nil in Hp. contradiction. }
    destruct (findFreshest_some E g (set_cache w files') Hdir' Hne')
      as (c' & Hc' & Hin' & Hmax').
    simpl in Hin', Hmax'.
    assert (Hin'' : In c' (candidatesOf E g (cacheDir w))).
    { eapply Permutation_in; [symmetry; exact Hp | exact Hin']. }
    assert (Heq : modTime c' = modTime c).
    { apply Z.le_antisymm; [now apply Hmax|].
      apply Hmax'. eapply Permutation_in; [exact Hp | exact Hin]. }
    exists c, c'. repeat split; auto.
    + unfold getAccessTokenFromSsoSessionWithPath. now rewrite Hc.
    + intro Huniq. destruct (candidate_eq_dec c' c) as [Hcc | Hcc]; [exact Hcc|].
      specialize (Huniq c' Hin'' Hcc). lia.
  - intros pre post f Hsplit Hbad. unfold findFreshest.
    rewrite (ReadCacheDir_set_cache E w _ (pre ++ post) Hdir), Hdir.
    rewrite !collectCandidates_spec. simpl. rewrite Hsplit.
    rewrite !candidatesOf_app. simpl.
    assert (Hnone : candidateOf E g f = None).
    { unfold candidateOf. destruct (strings.HasSuffix (de_name f) ".json");
        [|reflexivity].
      destruct (io_error E (ReadFile _)); [reflexivity|].
      now rewrite Hbad. }
    now rewrite Hnone.
  - intro Hnil. unfold findFreshest. rewrite Hdir, collectCandidates_spec.
    simpl. now rewrite Hnil.
Qed.

Lemma pickLatest_keeps (l : list candidate) :
  forall c, (forall d, In d l -> (modTime d <= modTime c)%Z) ->
            pickLatest c l = c.
Proof.
  induction l as [|d l IH]; intros c Hle; simpl; [reflexivity|].
  destruct (Z.gtb_spec (modTime d) (modTime c)) as [Hgt | _].
  - specialize (Hle d (or_introl eq_refl)). lia.
  - apply IH. intros e He. apply Hle. now right.
Qed.

Lemma pickLatest_reaches (l1 l2 : list candidate) (c : candidate) :
  forall a, (modTime a < modTime c)%Z ->
            (forall d, In d l1 -> (modTime d < modTime c)%Z) ->
            (forall d, In d l2 -> (modTime d <= modTime c)%Z) ->
            pickLatest a (l1 ++ c :: l2) = c.
Proof.
  induction l1 as [|d l1 IH]; intros a Ha H1 H2; simpl.
  - destruct (Z.gtb_spec (modTime c) (modTime a)); [|lia].
    now apply pickLatest_keeps.
  - apply IH; [|intros e He; apply H1; now right | exact H2].
    pose proof (H1 d (or_introl eq_refl)).
    destruct (Z.gtb_spec (modTime d) (modTime a)); lia.
Qed.

(** The loop over the candidates keeps the first one of the newest
    second. *)
Lemma findFreshest_split (E : Env) (g : Globals) (w : World)
  (before after : list candidate) (c : candidate) :
  ReadCacheDir E w = Ok (cacheDir w) ->
  candidatesOf E g (cacheDir w) = (before ++ c :: after)%list ->
  (forall d, In d before -> (modTime d < modTime c)%Z) ->
  (forall d, In d after -> (modTime d <= modTime c)%Z) ->
  findFreshest E g w = Ok c.
Proof.
  intros Hdir Hc Hb Ha.
  unfold findFreshest. rewrite Hdir, collectCandidates_spec. simpl.
  rewrite Hc. destruct before as [|a before]; simpl.
  - f_equal. destruct (Z.gtb_spec (modTime c) (modTime c)); [lia|].
    now apply pickLatest_keeps.
  - f_equal.
    destruct (Z.gtb_spec (modTime a) (modTime a)); [lia|].
    apply pickLatest_reaches; [apply Hb; now left | | exact Ha].
    intros d Hd. apply Hb. now right.
Qed.

Lemma candidateOf_inv (E : Env) (g : Globals) (f : DirEntry) (c : candidate) :
  candidateOf E g f = Some c ->
  strings.HasSuffix (de_name f) ".json" = true
  /\ path c = filepath_Join [ssoCacheDir E; de_name f]
  /\ modTime c = (de_modTime f / second)%Z
  /\ startUrlMatches g (startUrl c) = true
  /\ exists m, json_Unmarshal E (de_data f) = Some m
               /\ asString m "startUrl" = (startUrl c, true)
               /\ asString m "accessToken" = (token c, true).
Proof.
  unfold candidateOf.
  destruct (strings.HasSuffix (de_name f) ".json"); [|discriminate].
  destruct (io_error E (ReadFile _)); [discriminate|].
  destruct (json_Unmarshal E (de_data f)) as [m|]; [|discriminate].
  destruct (asString m "startUrl") as [u ok] eqn:Hu.
  destruct (asString m "accessToken") as [t tokenOk] eqn:Ht.
  destruct ok; simpl; [|discriminate].
  destruct (startUrlMatches g u) eqn:Hm; simpl; [|discriminate].
  destruct tokenOk; [|discriminate].
  destruct (io_error E (Info _)); [discriminate|].
  intro H. injection H as <-. simpl. repeat split; auto.
  exists m. auto.
Qed.

Lemma candidatesOf_hit (E : Env) (g : Globals) (l1 l2 : list DirEntry)
  (f : DirEntry) (c : candidate) :
  candidateOf E g f = Some c ->
  candidatesOf E g (l1 ++ f :: l2)
  = (candidatesOf E g l1 ++ c :: candidatesOf E g l2)%list.
Proof.
  intro H. rewrite candidatesOf_app. simpl. now rewrite H.
Qed.

(** C6. The cache lookup compares modification times in whole seconds
    and replaces its choice only on a strictly greater value. Of two files
    for the target URL that were modified within the same second, none of
    the other candidates being of a later second, the one listed first is
    returned although the other one was modified later: the entry returned
    is not the one with the maximum last-modified time, and listing the two
    files in the opposite order changes the result. *)
Theorem findFreshest_misses_newer_of_same_second (E : Env) (g : Globals)
  (w : World) (pre mid post : list DirEntry) (f1 f2 : DirEntry)
  (c1 c2 : candidate) :
  ReadCacheDir E w = Ok (pre ++ f1 :: mid ++ f2 :: post)%list ->
  candidateOf E g f1 = Some c1 ->
  candidateOf E g f2 = Some c2 ->
  (de_modTime f1 < de_modTime f2)%Z ->
  (de_modTime f1 / second = de_modTime f2 / second)%Z ->
  (forall d, In d (candidatesOf E g pre) -> (modTime d < modTime c1)%Z) ->
  (forall d, In d (candidatesOf E g (mid ++ post)) ->
             (modTime d <= modTime c1)%Z) ->
  getAccessTokenFromSsoSessionWithPath E g w = Ok (token c1, path c1)
  /\ getAccessTokenFromSsoSessionWithPath E g
       (set_cache w (pre ++ f2 :: mid ++ f1 :: post))
     = Ok (token c2, path c2).
Proof.
  intros Hdir H1 H2 _ Hsec Hpre Hrest.
  destruct (candidateOf_inv _ _ _ _ H1) as (_ & _ & Hm1 & _).
  destruct (candidateOf_inv _ _ _ _ H2) as (_ & _ & Hm2 & _).
  assert (Heq : modTime c2 = modTime c1) by congruence.
  pose proof (ReadCacheDir_inv _ _ _ Hdir) as (_ & _ & Hlist).
  rewrite Hlist in Hdir.
  assert (Hmid : forall d, In d (candidatesOf E g mid) ->
                           (modTime d <= modTime c1)%Z).
  { intros d Hd. apply Hrest. rewrite candidatesOf_app.
    apply in_or_app. now left. }
  assert (Hpost : forall d, In d (candidatesOf E g post) ->
                            (modTime d <= modTime c1)%Z).
  { intros d Hd. apply Hrest. rewrite candidatesOf_app.
    apply in_or_app. now right. }
  unfold getAccessTokenFromSsoSessionWithPath. split.
  - rewrite (findFreshest_split E g w (candidatesOf E g pre)
               (candidatesOf E g mid ++ c2 :: candidatesOf E g post) c1);
      [reflexivity | exact Hdir | | exact Hpre |].
    + rewrite <- Hlist, (candidatesOf_hit E g pre _ f1 c1 H1).
      now rewrite (candidatesOf_hit E g mid _ f2 c2 H2).
    + intros d Hd. apply in_app_or in Hd.
      destruct Hd as [Hd | [<- | Hd]]; [now apply Hmid | lia | now apply Hpost].
  - rewrite (findFreshest_split E g _ (candidatesOf E g pre)
               (candidatesOf E g mid ++ c1 :: candidatesOf E g post) c2);
      [reflexivity | | | |].
    + exact (ReadCacheDir_set_cache E w _ _ Hdir).
    + simpl. rewrite (candidatesOf_hit E g pre _ f2 c2 H2).
      now rewrite (candidatesOf_hit E g mid _ f1 c1 H1).
    + intros d Hd. rewrite Heq. now apply Hpre.
    + intros d Hd. rewrite Heq. apply in_app_or in Hd.
      destruct Hd as [Hd | [<- | Hd]]; [now apply Hmid | lia | now apply Hpost].
Qed.

Lemma findFreshest_misses_newer_of_same_second_witness :
  let url := "https://unit.test/start" in
  let older := Sample.tokenFile "a.json" url "older"
                 (5 * second + 100 * millisecond) in
  let newer := Sample.tokenFile "b.json" url "newer"
                 (5 * second + 900 * millisecond) in
  (de_modTime older < de_modTime newer)%Z
  /\ getAccessTokenFromSsoSessionWithPath Sample.env Sample.globals
       (set_cache Sample.world [older; newer])
     = Ok ("older", "/home/user/.aws/sso/cache/a.json")
  /\ getAccessTokenFromSsoSessionWithPath Sample.env Sample.globals
       (set_cache Sample.world [newer; older])
     = Ok ("newer", "/home/user/.aws/sso/cache/b.json").
Proof.
  intros url older newer. split; [reflexivity|].
  refine (findFreshest_misses_newer_of_same_second Sample.env Sample.globals
            (set_cache Sample.world [older; newer]) [] [] [] older newer
            (mkCandidate "/home/user/.aws/sso/cache/a.json" url "older" 5)
            (mkCandidate "/home/user/.aws/sso/cache/b.json" url "newer" 5)
            eq_refl eq_refl eq_refl eq_refl eq_refl _ _).
  - intros d [].
  - intros d [].
Defined.

Lemma TrimRight_idempotent (s cutset : string) :
  strings.TrimRight (strings.TrimRight s cutset) cutset
  = strings.TrimRight s cutset.
Proof.
  induction s as [|c s IH]; simpl; [reflexivity|].
  destruct (strings.TrimRight s cutset) as [|d t] eqn:Ht.
  - destruct (strings.inCutset c cutset) eqn:Hc; simpl; [reflexivity|].
    now rewrite Hc.
  - change (strings.TrimRight (String c (String d t)) cutset)
      with (match strings.TrimRight (String d t) cutset with
            | EmptyString => if strings.inCutset c cutset then EmptyString
                             else String c EmptyString
            | u => String c u
            end).
    now rewrite IH.
Qed.

(** The filter of the cache reader never accepts a URL that differs from
    the target by more than trailing slashes. *)
Lemma startUrlMatches_sound (g : Globals) (stored : string) :
  startUrlMatches g stored = true ->
  sameUrlModuloSlash stored (ssoStartURL g) = true.
Proof.
  unfold startUrlMatches, sameUrlModuloSlash. intro H.
  apply orb_true_iff in H. destruct H as [H | H];
    apply String.eqb_eq in H; subst stored.
  - apply String.eqb_refl.
  - rewrite TrimRight_idempotent. apply String.eqb_refl.
Qed.

Lemma startUrlMatches_iff (g : Globals) (stored : string) :
  startUrlMatches g stored = true <->
  stored = ssoStartURL g \/ stored = strings.TrimRight (ssoStartURL g) "/".
Proof.
  unfold startUrlMatches. rewrite orb_true_iff, !String.eqb_eq. tauto.
Qed.

(** C7. The cache filter compares the stored URL with the target and with
    the target stripped of trailing slashes, never stripping the stored
    one: the entry stored as "https://unit.test/start/" is equal to the
    target "https://unit.test/start" modulo trailing slashes, yet the
    filter rejects it and the lookup ends in the not-found error. The
    converse pair (target with slash, stored without) is accepted, and the
    session matcher of the config file accepts the rejected pair. *)
Theorem cache_filter_rejects_stored_trailing_slash :
  let g := Sample.globals in
  let stored := "https://unit.test/start/" in
  ssoStartURL g = "https://unit.test/start"
  /\ sameUrlModuloSlash stored (ssoStartURL g) = true
  /\ startUrlMatches g stored = false
  /\ findFreshest Sample.env g
       (set_cache Sample.world [Sample.tokenFile "a.json" stored "tok" 0])
     = Err (Errorf "no valid SSO accessToken found for startUrl https://unit.test/start")
  /\ startUrlMatches (Sample.with_startURL g stored) (ssoStartURL g) = true
  /\ (let section :=
        ini.mkSection "sso-session work"
          [("sso_start_url", stored); ("sso_region", "us-east-1")] in
      declaresMatchingSession Sample.env g [section] section = true).
Proof. vm_compute. repeat split. Qed.

(** ** The retry loop of login *)

Lemma getAccessToken_Sleep (E : Env) (g : Globals) (w : World) (d : Z) :
  getAccessTokenFromSsoSessionWithPath E g (Sleep w d)
  = getAccessTokenFromSsoSessionWithPath E g w.
Proof. reflexivity. Qed.

(** When the cache keeps yielding a token that validation keeps rejecting,
    the retries end with that token and with [lastErr] nil. *)
Lemma retryLoop_all_rejected (E : Env) (g : Globals) (tok p : string) :
  (forall t, exists err, ListAccounts E t tok = Err err) ->
  forall n st w,
    getAccessTokenFromSsoSessionWithPath E g w = Ok (tok, p) ->
    fst (retryLoop (S n) E g st w) = mkRetry tok p None.
Proof.
  intros Hrej. induction n as [|n IH]; intros st w Hget.
  - simpl. rewrite Hget. unfold isSsoTokenValid, getListOfSsoAccounts.
    destruct (Hrej (now w)) as [err ->]. reflexivity.
  - change (retryLoop (S (S n)) E g st w)
      with (match getAccessTokenFromSsoSessionWithPath E g w with
            | Ok (tok, p) =>
                if isSsoTokenValid E w tok then (mkRetry tok p None, w)
                else retryLoop (S n) E g (mkRetry tok p None)
                       (Sleep w (500 * millisecond))
            | Err err =>
                retryLoop (S n) E g (mkRetry "" "" (Some err))
                  (Sleep w (500 * millisecond))
            end).
    rewrite Hget. unfold isSsoTokenValid, getListOfSsoAccounts.
    destruct (Hrej (now w)) as [err ->].
    apply IH. now rewrite getAccessToken_Sleep.
Qed.

(** C8. With a cached token that validation rejects at every attempt, the
    ten retries end with [lastErr] nil after ten sleeps of 500 ms; login
    then goes on as if the token were valid and returns nil instead of the
    error "SSO login did not produce a valid access token". *)
Theorem retries_exhausted_on_rejected_token_proceed :
  let E := Sample.with_ListAccounts Sample.env
             (fun _ _ => Err (ExtError "UnauthorizedException")) in
  let g := Sample.with_roles Sample.globals [] in
  let w := set_cache Sample.world
             [Sample.tokenFile "stale.json" "https://unit.test/start" "stale" 0] in
  (forall t tok, isSsoTokenValid E (set_now w t) tok = false)
  /\ retryLoop 10 E g (mkRetry "" "" None) w
     = (mkRetry "stale" "/home/user/.aws/sso/cache/stale.json" None,
        set_now w (now w + 10 * (500 * millisecond)))
  /\ fst (loginAfterDeviceFlow E g (mkRetry "" "" None) w) = None
  /\ fst (login E g w) = None.
Proof. vm_compute. repeat split. Qed.

(** ** The polling loop *)

Section Polling.

Variables (E : Env) (regOut : RegisterClientOutput)
          (devOut : StartDeviceAuthorizationOutput)
          (interval deadline : Z).

Local Abbreviation exchange t :=
  (CreateToken E t (ClientId regOut) (ClientSecret regOut)
     (DeviceCode devOut)).
Local Abbreviation poll fuel w := (pollLoop fuel E regOut devOut interval deadline w).

Lemma pollLoop_deadline (fuel : nat) (w : World) :
  (deadline <= now w)%Z -> poll (S fuel) w = Some (LoopDone None, w).
Proof.
  intro H. simpl.
  destruct (Z.ltb_spec (now w) deadline); [lia | reflexivity].
Qed.


Lemma pollLoop_pending (fuel : nat) (w : World) (err : error) :
  (now w < deadline)%Z -> exchange (now w) = Err err ->
  isPendingOrSlowDown (Error err) = true ->
  poll (S fuel) w = poll fuel (Sleep (afterCall E w) (interval * second)).
Proof.
  intros H Hx Hp. simpl.
  destruct (Z.ltb_spec (now w) deadline); [|lia].
  rewrite Hx. simpl. now rewrite Hp.
Qed.





End Polling.

Lemma noTokenError_is_no_signal :
  isPendingOrSlowDown (Error noTokenError) = false
  /\ forall msg, noTokenError <> ExtError msg.
Proof. split; [reflexivity | discriminate]. Qed.



(** ** Writing a profile *)

(** C10. Every non-dry-run [writeProfileToConfig] issues its calls in the
    order MkdirAll, truncating write, SaveTo, and stops at the first that
    fails: the document is never saved without the file having been
    overwritten with empty content just before. When the first two calls
    succeed and the save fails, the error is returned and the file on disk
    is left empty, whatever it held before. *)
Theorem writeProfile_truncates_before_saving (E : Env) (g : Globals)
  (profileName : string) (role : CombinedRole) (w : World) :
  let p := ssoConfigFile g in
  let cfg := profileDocument E g profileName role w in
  let r := writeProfileToConfig E g profileName role w in
  let sequence := [MkdirAll (filepath_Dir p); WriteFile p ""; SaveTo cfg p] in
  dryRun g = false ->
  (exists k, 1 <= k /\ calls (snd r) = (calls w ++ firstn k sequence)%list)
  /\ (io_error E (MkdirAll (filepath_Dir p)) = None ->
      io_error E (WriteFile p "") = None ->
      calls (snd r) = (calls w ++ sequence)%list
      /\ (forall err, io_error E (SaveTo cfg p) = Some err ->
            fst r = Some err
            /\ configFile (snd r) = Some ""
            /\ (forall old, configFile w = Some old -> old <> "" ->
                  configFile (snd r) <> configFile w))
      /\ (io_error E (SaveTo cfg p) = None ->
            fst r = None /\ configFile (snd r) = Some (ini_render E cfg))).
Proof.
  intros p cfg r sequence Hdry. subst r p cfg sequence.
  unfold writeProfileToConfig. rewrite Hdry. split.
  - destruct (io_error E (MkdirAll _)); [exists 1; simpl; auto|].
    destruct (io_error E (WriteFile _ _));
      [exists 2; simpl; rewrite <- app_assoc; auto|].
    destruct (io_error E (SaveTo _ _)); exists 3; simpl;
      rewrite <- !app_assoc; auto.
  - intros Hmk Htouch. rewrite Hmk, Htouch.
    destruct (io_error E (SaveTo _ _)) as [e|] eqn:Hsave; simpl;
      rewrite <- !app_assoc; simpl; (split; [reflexivity|]); split.
    + intros err Herr. injection Herr as <-. repeat split.
      intros old Hold Hne Heq. rewrite Hold in Heq. congruence.
    + discriminate.
    + discriminate.
    + intros _. split; reflexivity.
Qed.

Lemma writeProfile_truncates_before_saving_witness :
  let diskFull := fun c => match c with
                           | SaveTo _ _ => Some (ExtError "no space left on device")
                           | _ => None
                           end in
  let E := Sample.with_io Sample.env diskFull in
  let w := set_config Sample.world
             (Some (Sample.sessionText "default" "https://unit.test/start"
                      "us-east-1")) in
  let r := writeProfileToConfig E Sample.globals "ReadOnly_My-App_123"
             (mkRole "123" "AWSReadOnlyAccess" "My App") w in
  fst r = Some (ExtError "no space left on device")
  /\ configFile (snd r) = Some "".
Proof.
  intros diskFull E w r.
  destruct (writeProfile_truncates_before_saving E Sample.globals
              "ReadOnly_My-App_123" (mkRole "123" "AWSReadOnlyAccess" "My App")
              w eq_refl) as (_ & Hsteps).
  destruct (Hsteps eq_refl eq_refl) as (_ & Hfail & _).
  destruct (Hfail (ExtError "no space left on device") eq_refl)
    as (Herr & Hempty & _).
  split; assumption.
Defined.

(** ** Session reconciliation *)

Lemma HasPrefix_split (p s : string) :
  strings.HasPrefix s p = true -> s = p ++ strings.drop (String.length p) s.
Proof.
  revert s. induction p as [|a p IH]; intros s H; simpl in *.
  - now destruct s.
  - destruct s as [|b s]; [discriminate|].
    apply andb_true_iff in H. destruct H as [Hab H].
    apply Ascii.eqb_eq in Hab. subst b. simpl. f_equal. now apply IH.
Qed.

Lemma SplitN2_session (name : string) :
  strings.HasPrefix name "sso-session " = true ->
  strings.SplitN2 name " " = ["sso-session"; strings.drop 12 name].
Proof.
  intro H. apply HasPrefix_split in H. rewrite H at 1. reflexivity.
Qed.

(** The loop of [findAllMatchingSsoSessionNames] collects the labels of the
    matching session sections, in file order. *)
Lemma matchLoop_spec (E : Env) (g : Globals) (cfg : ini.File)
  (sections : list ini.Section) :
  forall matches,
    matchLoop E cfg (strings.TrimRight (ssoStartURL g) "/") (ssoRegion g)
      sections matches
    = (matches
       ++ map sessionLabel
            (filter (declaresMatchingSession E g cfg) sections))%list.
Proof.
  induction sections as [|s sections IH]; intro matches;
    cbn [matchLoop filter map].
  - now rewrite app_nil_r.
  - unfold declaresMatchingSession at 1.
    destruct (strings.HasPrefix (ini.Name s) "sso-session ") eqn:Hp;
      cbn [andb]; [|apply IH].
    unfold sessionMatches, sameUrlModuloSlash.
    destruct (String.eqb _ _ && String.eqb _ _); [|apply IH].
    rewrite (SplitN2_session _ Hp), IH. cbn [map].
    rewrite <- app_assoc. reflexivity.
Qed.

Lemma findAllMatchingSsoSessionNames_spec (E : Env) (g : Globals) (w : World)
  (data : string) (cfg : ini.File) :
  configFile w = Some data ->
  io_error E (ReadFile (ssoConfigFile g)) = None ->
  ini_parse E data = Some cfg ->
  findAllMatchingSsoSessionNames E g (ssoStartURL g) (ssoRegion g) w
  = Ok (map sessionLabel
          (filter (declaresMatchingSession E g cfg) (ini.Sections cfg))).
Proof.
  intros Hc Hr Hp. unfold findAllMatchingSsoSessionNames, ini_Load.
  rewrite Hc, Hr, Hp. now rewrite matchLoop_spec.
Qed.




(** C2, as the code has it. When the config file loads, does not contain
    the header of the requested name, and declares two or more sessions for
    the target start URL and region (URLs compared modulo trailing
    slashes), a request that uses the default name makes
    [ensureSsoSessionConfigPresent] fail with the error "multiple matching
    sso-session blocks found for startUrl U and region R"; no write is
    issued and the file is unchanged. *)
Theorem ensure_fails_on_ambiguous_sessions (E : Env) (g : Globals)
  (w : World) (data : string) (cfg : ini.File) :
  configFile w = Some data ->
  io_error E (ReadFile (ssoConfigFile g)) = None ->
  io_error E (Stat (ssoConfigFile g)) = None ->
  ini_parse E data = Some cfg ->
  isDefaultSessionName (ssoSessionConfigName w) = true ->
  strings.Contains data (sessionHeader w) = false ->
  2 <= List.length (filter (declaresMatchingSession E g cfg) (ini.Sections cfg)) ->
  ensureSsoSessionConfigPresent E g w
  = (false,
     Some (Errorf ("multiple matching sso-session blocks found for startUrl "
                   ++ ssoStartURL g ++ " and region " ++ ssoRegion g)),
     w).
Proof.
  intros Hc Hr Hst Hp Hdef Hhdr Htwo.
  unfold ensureSsoSessionConfigPresent, sessionHeader in *.
  rewrite Hc, Hr, Hhdr. unfold reuseExistingSession.
  rewrite Hdef, Hc, Hst.
  rewrite (findAllMatchingSsoSessionNames_spec E g w data cfg Hc Hr Hp).
  destruct (filter (declaresMatchingSession E g cfg) (ini.Sections cfg))
    as [|s1 [|s2 rest]]; simpl in Htwo; try lia.
  reflexivity.
Qed.

Lemma ensure_fails_on_ambiguous_sessions_witness :
  let data :=
    Sample.sessionText "work" "https://unit.test/start/" "us-east-1" ++ LF
    ++ Sample.sessionText "home" "https://unit.test/start" "us-east-1" in
  let w := set_config Sample.world (Some data) in
  ensureSsoSessionConfigPresent Sample.env Sample.globals w
  = (false,
     Some (Errorf "multiple matching sso-session blocks found for startUrl https://unit.test/start and region us-east-1"),
     w).
Proof.
  intros data w.
  assert (Hp : exists cfg, ini_parse Sample.env data = Some cfg
                           /\ 2 <= List.length
                                     (filter (declaresMatchingSession Sample.env
                                                Sample.globals cfg)
                                        (ini.Sections cfg))).
  { eexists. split; [vm_compute; reflexivity | vm_compute; lia]. }
  destruct Hp as (cfg & Hp & Htwo).
  exact (ensure_fails_on_ambiguous_sessions Sample.env Sample.globals w data
           cfg eq_refl eq_refl eq_refl Hp eq_refl eq_refl Htwo).
Defined.

(** C2 as stated fails twice. With sessions "default" and "work" declared
    for the same endpoint, a default-named request finds its own header and
    returns without error; with sessions "work" and "home", the error of
    the ambiguity names neither of them. *)
Lemma ensure_ambiguity_counterexample :
  let g := Sample.globals in
  let url := "https://unit.test/start" in
  let w1 := set_config Sample.world
              (Some (Sample.sessionText "default" url "us-east-1" ++ LF
                     ++ Sample.sessionText "work" (url ++ "/") "us-east-1")) in
  let w2 := set_config Sample.world
              (Some (Sample.sessionText "work" (url ++ "/") "us-east-1" ++ LF
                     ++ Sample.sessionText "home" url "us-east-1")) in
  (ssoSessionConfigName w1 = defaultSSOSessionConfigName
   /\ findAllMatchingSsoSessionNames Sample.env g (ssoStartURL g) (ssoRegion g) w1
      = Ok ["default"; "work"]
   /\ ensureSsoSessionConfigPresent Sample.env g w1 = (false, None, w1))
  /\ (ssoSessionConfigName w2 = defaultSSOSessionConfigName
      /\ findAllMatchingSsoSessionNames Sample.env g (ssoStartURL g) (ssoRegion g) w2
         = Ok ["work"; "home"]
      /\ exists err,
           ensureSsoSessionConfigPresent Sample.env g w2 = (false, Some err, w2)
           /\ strings.Contains (Error err) "work" = false
           /\ strings.Contains (Error err) "home" = false).
Proof.
  intros g url w1 w2. split; [vm_compute; repeat split|].
  split; [reflexivity|]. split; [vm_compute; reflexivity|].
  eexists. split; [vm_compute; reflexivity|]. split; vm_compute; reflexivity.
Qed.

(** ** Dry run *)

(** In a dry run [ensureSsoSessionConfigPresent] issues no write. *)
Lemma ensure_dry_run_writes_nothing (E : Env) (g : Globals) (w : World) :
  dryRun g = true ->
  let w' := snd (ensureSsoSessionConfigPresent E g w) in
  configFile w' = configFile w /\ cacheDir w' = cacheDir w
  /\ calls w' = calls w.
Proof.
  intro Hdry. unfold ensureSsoSessionConfigPresent.
  destruct (configFile w) as [data|] eqn:Hc.
  - destruct (io_error E (ReadFile _)); [simpl; now rewrite Hc|].
    destruct (strings.Contains _ _); [simpl; now rewrite Hc|].
    unfold reuseExistingSession.
    destruct (isDefaultSessionName _); [|rewrite Hdry; simpl; now rewrite Hc].
    rewrite Hc. destruct (io_error E (Stat _));
      [rewrite Hdry; simpl; now rewrite Hc|].
    destruct (findAllMatchingSsoSessionNames _ _ _ _ _) as [[|m [|m' l]]|];
      try (rewrite Hdry); simpl; now rewrite Hc.
  - simpl. unfold reuseExistingSession.
    destruct (isDefaultSessionName _); rewrite ?Hc, Hdry; simpl;
      now rewrite Hc.
Qed.

(** In a dry run [writeProfileToConfig] returns at once. *)
Lemma writeProfile_dry_run_writes_nothing (E : Env) (g : Globals)
  (profileName : string) (role : CombinedRole) (w : World) :
  dryRun g = true ->
  writeProfileToConfig E g profileName role w = (None, w).
Proof. intro Hdry. unfold writeProfileToConfig. now rewrite Hdry. Qed.

(** In a dry run the reconciliation loop leaves the world as it was,
    however many profiles it reports as to be added. *)
Lemma reconcile_dry_run_writes_nothing (E : Env) (g : Globals)
  (roles : list CombinedRole) :
  dryRun g = true ->
  forall added skipped w,
    snd (reconcileProfiles E g roles added skipped w) = w.
Proof.
  intro Hdry. induction roles as [|role roles IH]; intros added skipped w;
    simpl; [reflexivity|].
  destruct (profileExists _ _ _ _); [apply IH|].
  rewrite writeProfile_dry_run_writes_nothing by assumption. apply IH.
Qed.

(** The device flow never reads the dry-run flag. *)
Lemma runAwsSsoLogin_ignores_dryRun (E : Env) (g : Globals) (b : bool)
  (session : string) (w : World) :
  runAwsSsoLogin E (Sample.with_dryRun g b) session w
  = runAwsSsoLogin E g session w.
Proof. destruct g. reflexivity. Qed.

(** C1. A dry-run login that finds no cached token runs the device flow,
    and the device flow stores the token it obtains: on a machine without
    config file and with an empty cache, the dry run ends with a new file in
    the token cache, written through [os.WriteFile] and [os.Rename]; the
    config file is still absent. *)
Theorem dry_run_login_writes_token_cache :
  let g := Sample.with_dryRun Sample.globals true in
  let r := login Sample.env g Sample.world in
  let tokenFile := "/home/user/.aws/sso/cache/sso_token_1700000000000000000.json" in
  let bytes := "startUrl=https://unit.test/start" ++ LF ++ "region=us-east-1" ++ LF
               ++ "accessToken=fresh-token" ++ LF
               ++ "expiresAt=1700003600000000000" ++ LF in
  dryRun g = true
  /\ cacheDir Sample.world = []
  /\ fst r = None
  /\ configFile (snd r) = None
  /\ cacheDir (snd r)
     = [mkDirEntry "sso_token_1700000000000000000.json" bytes
          (now Sample.world)]
  /\ calls (snd r)
     = [MkdirAll "/home/user/.aws/sso/cache";
        WriteFile (tokenFile ++ ".tmp") bytes;
        Rename (tokenFile ++ ".tmp") tokenFile].
Proof. vm_compute. repeat split. Qed.

(** ** Documents *)

Lemma list_eqb_eq {A : Type} (eqb : A -> A -> bool) :
  (forall a b, eqb a b = true -> a = b) ->
  forall l1 l2, ini.list_eqb eqb l1 l2 = true -> l1 = l2.
Proof.
  intros Heq. induction l1 as [|a l1 IH]; intros [|b l2] H; simpl in H;
    try discriminate; [reflexivity|].
  apply andb_true_iff in H. destruct H as [Hab H].
  f_equal; [now apply Heq | now apply IH].
Qed.

Lemma File_eqb_eq (a b : ini.File) : ini.File_eqb a b = true -> a = b.
Proof.
  apply list_eqb_eq. intros [n1 k1] [n2 k2] H. unfold ini.Section_eqb in H.
  simpl in H. apply andb_true_iff in H. destruct H as [Hn Hk].
  apply String.eqb_eq in Hn. subst n2. f_equal.
  revert Hk. apply list_eqb_eq. intros [x1 y1] [x2 y2] H.
  unfold ini.pair_eqb in H. simpl in H. apply andb_true_iff in H.
  destruct H as [Hx Hy]. apply String.eqb_eq in Hx, Hy. now subst.
Qed.

Lemma lookupKey_setKey (kvs : list (string * string)) (k v k' : string) :
  ini.lookupKey (ini.setKey kvs k v) k'
  = if String.eqb k k' then Some v else ini.lookupKey kvs k'.
Proof.
  induction kvs as [|[k0 v0] kvs IH]; simpl.
  - reflexivity.
  - destruct (String.eqb_spec k0 k) as [-> | Hne]; simpl.
    + now destruct (String.eqb k k').
    + rewrite IH. destruct (String.eqb_spec k0 k') as [-> | Hne'];
        [|reflexivity].
      destruct (String.eqb_spec k k'); [congruence | reflexivity].
Qed.

Lemma sectionNamed_Name (cfg : ini.File) (name : string) (s : ini.Section) :
  ini.sectionNamed cfg name = Some s -> ini.Name s = name.
Proof.
  induction cfg as [|s0 cfg IH]; simpl; [discriminate|].
  destruct (String.eqb_spec (ini.Name s0) name) as [Hn | Hn]; [|exact IH].
  intro H. injection H as <-. exact Hn.
Qed.

Lemma sectionNamed_NewKey (cfg : ini.File) (name k v name' : string) :
  ini.sectionNamed (ini.NewKey cfg name k v) name'
  = if String.eqb name name'
    then option_map
           (fun s => ini.mkSection (ini.Name s) (ini.setKey (ini.keys s) k v))
           (ini.sectionNamed cfg name)
    else ini.sectionNamed cfg name'.
Proof.
  induction cfg as [|s cfg IH]; simpl.
  - now destruct (String.eqb name name').
  - destruct (String.eqb_spec (ini.Name s) name) as [Hs | Hs]; simpl.
    + destruct (String.eqb_spec name name') as [Hn | Hn].
      * rewrite <- Hn, Hs, String.eqb_refl. reflexivity.
      * destruct (String.eqb_spec (ini.Name s) name');
          [congruence | reflexivity].
    + rewrite IH. destruct (String.eqb_spec name name') as [Hn | Hn].
      * destruct (String.eqb_spec (ini.Name s) name');
          [congruence | reflexivity].
      * reflexivity.
Qed.

Lemma sectionNamed_app_new (cfg : ini.File) (name name' : string) :
  ini.sectionNamed (cfg ++ [ini.mkSection name []])%list name'
  = match ini.sectionNamed cfg name' with
    | Some s => Some s
    | None => if String.eqb name name' then Some (ini.mkSection name [])
              else None
    end.
Proof.
  induction cfg as [|s cfg IH]; simpl; [reflexivity|].
  destruct (String.eqb (ini.Name s) name'); [reflexivity | exact IH].
Qed.

Lemma resolve_idem (name : string) :
  ini.resolve (ini.resolve name) = ini.resolve name.
Proof.
  unfold ini.resolve. destruct (String.eqb_spec name ""); [reflexivity|].
  destruct (String.eqb_spec name ""); [contradiction | reflexivity].
Qed.

Lemma resolve_nonempty (name : string) : name <> "" -> ini.resolve name = name.
Proof.
  intro H. unfold ini.resolve.
  destruct (String.eqb_spec name ""); [contradiction | reflexivity].
Qed.

Lemma sectionNamed_ensureSection (cfg : ini.File) (name name' : string) :
  ini.sectionNamed (ini.ensureSection cfg name) name'
  = match ini.sectionNamed cfg name' with
    | Some s => Some s
    | None => if String.eqb (ini.resolve name) name'
              then Some (ini.mkSection (ini.resolve name) [])
              else None
    end.
Proof.
  unfold ini.ensureSection, ini.GetSection.
  destruct (ini.sectionNamed cfg (ini.resolve name)) as [s0|] eqn:H0.
  - destruct (ini.sectionNamed cfg name') eqn:H1; [reflexivity|].
    destruct (String.eqb_spec (ini.resolve name) name'); [congruence|].
    reflexivity.
  - apply sectionNamed_app_new.
Qed.

Lemma NewSection_ensures (cfg : ini.File) (name : string) :
  match ini.NewSection cfg name with
  | Ok cfg' => cfg'
  | Err _ => ini.ensureSection cfg name
  end = ini.ensureSection cfg name.
Proof.
  unfold ini.NewSection, ini.ensureSection, ini.GetSection, ini.resolve.
  destruct (String.eqb name ""); [reflexivity|].
  now destruct (ini.sectionNamed cfg name).
Qed.

Lemma inherited_some (cfg : ini.File) (names : list string) (k : string) :
  ini.inherited cfg names k <> None
  <-> exists n, In n names /\ keyAt cfg (ini.resolve n) k.
Proof.
  induction names as [|n names IH]; simpl.
  - split; [congruence | intros (n & [] & _)].
  - unfold ini.GetSection at 1.
    destruct (ini.sectionNamed cfg (ini.resolve n)) as [sec|] eqn:Hsec.
    + destruct (ini.lookupKey (ini.keys sec) k) as [v|] eqn:Hk.
      * split; [|discriminate]. intros _. exists n. split; [now left|].
        exists sec. split; [exact Hsec | congruence].
      * rewrite IH. split.
        -- intros (m & Hm & Hat). exists m. split; [now right | exact Hat].
        -- intros (m & [<- | Hm] & Hat); [|exists m; now split].
           destruct Hat as (sec' & Hs' & Hk'). congruence.
    + rewrite IH. split.
      * intros (m & Hm & Hat). exists m. split; [now right | exact Hat].
      * intros (m & [<- | Hm] & Hat); [|exists m; now split].
        destruct Hat as (sec' & Hs' & _). congruence.
Qed.

Lemma SectionOf_Name (cfg : ini.File) (name : string) :
  ini.Name (ini.SectionOf cfg name) = ini.resolve name.
Proof.
  unfold ini.SectionOf, ini.GetSection.
  destruct (ini.sectionNamed cfg (ini.resolve name)) as [s|] eqn:H;
    [|reflexivity].
  now apply sectionNamed_Name in H.
Qed.

(** [cfg.Section(name).HasKey(k)] holds when the section or one of its
    parent sections is declared with the key. *)
Lemma hasKeyIn_iff (cfg : ini.File) (name k : string) :
  hasKeyIn cfg name k = true
  <-> keyAt cfg (ini.resolve name) k
      \/ exists n, In n (ini.parents (ini.resolve name))
                   /\ keyAt cfg (ini.resolve n) k.
Proof.
  unfold hasKeyIn, ini.HasKey, ini.GetKey. rewrite SectionOf_Name.
  unfold ini.SectionOf, ini.GetSection.
  destruct (ini.sectionNamed cfg (ini.resolve name)) as [s|] eqn:Hs; simpl.
  - destruct (ini.lookupKey (ini.keys s) k) as [v|] eqn:Hk.
    + split; [|reflexivity]. intros _. left. exists s.
      split; [exact Hs | congruence].
    + destruct (ini.inherited cfg _ k) as [r|] eqn:Hi.
      * split; [|reflexivity]. intros _. right. apply inherited_some.
        congruence.
      * split; [discriminate|]. intros [(s' & Hs' & Hk') | Hp];
          [congruence|].
        apply inherited_some in Hp. contradiction.
  - destruct (ini.inherited cfg _ k) as [r|] eqn:Hi.
    + split; [|reflexivity]. intros _. right. apply inherited_some.
      congruence.
    + split; [discriminate|]. intros [(s' & Hs' & _) | Hp]; [congruence|].
      apply inherited_some in Hp. contradiction.
Qed.

Lemma keyAt_NewKey (cfg : ini.File) (o k v n k' : string) :
  keyAt cfg n k' -> keyAt (ini.NewKey cfg o k v) n k'.
Proof.
  intros (sec & Hs & Hk). unfold keyAt. rewrite sectionNamed_NewKey.
  destruct (String.eqb_spec o n) as [-> | Hn]; [|exists sec; now split].
  rewrite Hs. simpl. eexists. split; [reflexivity|]. simpl.
  rewrite lookupKey_setKey. now destruct (String.eqb k k').
Qed.

Lemma keyAt_NewKey_same (cfg : ini.File) (o k v : string) :
  ini.sectionNamed cfg o <> None -> keyAt (ini.NewKey cfg o k v) o k.
Proof.
  intro H. unfold keyAt. rewrite sectionNamed_NewKey, String.eqb_refl.
  destruct (ini.sectionNamed cfg o) as [s|]; [|contradiction].
  simpl. eexists. split; [reflexivity|]. simpl.
  rewrite lookupKey_setKey, String.eqb_refl. discriminate.
Qed.

Lemma keyAt_ensureSection (cfg : ini.File) (name n k : string) :
  keyAt cfg n k -> keyAt (ini.ensureSection cfg name) n k.
Proof.
  intros (sec & Hs & Hk). exists sec.
  rewrite sectionNamed_ensureSection, Hs. now split.
Qed.

Lemma hasKeyIn_mono (cfg cfg' : ini.File) :
  (forall n k, keyAt cfg n k -> keyAt cfg' n k) ->
  forall name k, hasKeyIn cfg name k = true -> hasKeyIn cfg' name k = true.
Proof.
  intros Hmono name k H. apply hasKeyIn_iff in H. apply hasKeyIn_iff.
  destruct H as [H | (n & Hn & H)]; [left; now apply Hmono|].
  right. exists n. split; [exact Hn | now apply Hmono].
Qed.

Lemma hasKeyIn_NewKey_mono (cfg : ini.File) (o k v name' k' : string) :
  hasKeyIn cfg name' k' = true ->
  hasKeyIn (ini.NewKey cfg o k v) name' k' = true.
Proof. apply hasKeyIn_mono. intros n k0. apply keyAt_NewKey. Qed.

Lemma hasKeyIn_SetValue_mono (cfg : ini.File) (name k v name' k' : string) :
  hasKeyIn cfg name' k' = true ->
  hasKeyIn (ini.SetValue cfg name k v) name' k' = true.
Proof.
  unfold ini.SetValue.
  destruct (ini.GetKey cfg (ini.SectionOf cfg name) k) as [[o v0]|];
    apply hasKeyIn_NewKey_mono.
Qed.

Lemma hasKeyIn_SetValue_same (cfg : ini.File) (name k v : string) :
  name <> "" ->
  ini.sectionNamed cfg name <> None ->
  hasKeyIn (ini.SetValue cfg name k v) name k = true.
Proof.
  intros Hne Hsec. unfold ini.SetValue.
  destruct (ini.GetKey cfg (ini.SectionOf cfg name) k) as [[o v0]|] eqn:Hget.
  - apply hasKeyIn_NewKey_mono. unfold hasKeyIn, ini.HasKey. now rewrite Hget.
  - apply hasKeyIn_iff. left. rewrite (resolve_nonempty _ Hne).
    now apply keyAt_NewKey_same.
Qed.

Lemma hasKeyIn_ensureSection_mono (cfg : ini.File) (name name' k' : string) :
  hasKeyIn cfg name' k' = true ->
  hasKeyIn (ini.ensureSection cfg name) name' k' = true.
Proof. apply hasKeyIn_mono. intros n k. apply keyAt_ensureSection. Qed.

Lemma sectionNamed_ensureSection_same (cfg : ini.File) (name : string) :
  name <> "" ->
  ini.sectionNamed (ini.ensureSection cfg name) name <> None.
Proof.
  intro Hne. rewrite sectionNamed_ensureSection, (resolve_nonempty _ Hne).
  destruct (ini.sectionNamed cfg name); [discriminate|].
  rewrite String.eqb_refl. discriminate.
Qed.

Lemma sectionNamed_NewKey_some (cfg : ini.File) (o k v n : string) :
  ini.sectionNamed cfg n <> None ->
  ini.sectionNamed (ini.NewKey cfg o k v) n <> None.
Proof.
  intro H. rewrite sectionNamed_NewKey.
  destruct (String.eqb_spec o n) as [-> | _]; [|exact H].
  destruct (ini.sectionNamed cfg n); [discriminate | contradiction].
Qed.

Lemma sectionNamed_SetValue_some (cfg : ini.File) (name k v n : string) :
  ini.sectionNamed cfg n <> None ->
  ini.sectionNamed (ini.SetValue cfg name k v) n <> None.
Proof.
  unfold ini.SetValue.
  destruct (ini.GetKey cfg (ini.SectionOf cfg name) k) as [[o v0]|];
    apply sectionNamed_NewKey_some.
Qed.

(** ** Reconciliation *)

Section Reconcile.

Variables (E : Env) (g : Globals).
Hypothesis not_dry : dryRun g = false.
Hypothesis config_readable : io_error E (ReadFile (ssoConfigFile g)) = None.

(** The document built for a profile carries the session key of that
    profile and of every profile the file already had. *)
Lemma profileDocument_has (profileName : string) (role : CombinedRole)
  (w : World) :
  let cfg := profileDocument E g profileName role w in
  hasKeyIn cfg ("profile " ++ profileName) "sso_session" = true
  /\ forall n, profileExists E g n w = true ->
               hasKeyIn cfg ("profile " ++ n) "sso_session" = true.
Proof.
  unfold profileDocument. rewrite NewSection_ensures. split.
  - do 4 apply hasKeyIn_SetValue_mono.
    apply hasKeyIn_SetValue_same; [discriminate|].
    apply sectionNamed_ensureSection_same. discriminate.
  - intros n Hn. unfold profileExists in Hn.
    destruct (ini_Load E g w) as [cfg0|]; [|discriminate].
    do 5 apply hasKeyIn_SetValue_mono. now apply hasKeyIn_ensureSection_mono.
Qed.

(** A write that returns nil has issued its three calls and installed the
    rendered document. *)
Lemma writeProfile_ok_inv (profileName : string) (role : CombinedRole)
  (w w' : World) :
  writeProfileToConfig E g profileName role w = (None, w') ->
  let cfg := profileDocument E g profileName role w in
  calls w' = (calls w ++ [MkdirAll (filepath_Dir (ssoConfigFile g));
                          WriteFile (ssoConfigFile g) "";
                          SaveTo cfg (ssoConfigFile g)])%list
  /\ configFile w' = Some (ini_render E cfg).
Proof.
  unfold writeProfileToConfig. rewrite not_dry.
  destruct (io_error E (MkdirAll _)); [discriminate|].
  destruct (io_error E (WriteFile _ _)); [discriminate|].
  destruct (io_error E (SaveTo _ _)); [discriminate|].
  intro H. injection H as <-. simpl. rewrite <- !app_assoc. now split.
Qed.

Lemma writeProfile_calls_extend (profileName : string) (role : CombinedRole)
  (w : World) :
  exists new,
    calls (snd (writeProfileToConfig E g profileName role w))
    = (calls w ++ new)%list.
Proof.
  unfold writeProfileToConfig. rewrite not_dry.
  destruct (io_error E (MkdirAll _)); [simpl; eauto|].
  destruct (io_error E (WriteFile _ _));
    [simpl; rewrite <- app_assoc; eauto|].
  destruct (io_error E (SaveTo _ _)); simpl; rewrite <- !app_assoc; eauto.
Qed.

Lemma reconcile_calls_extend (roles : list CombinedRole) :
  forall added skipped w, exists new,
    calls (snd (reconcileProfiles E g roles added skipped w))
    = (calls w ++ new)%list.
Proof.
  induction roles as [|role roles IH]; intros added skipped w; simpl.
  - exists []. now rewrite app_nil_r.
  - destruct (profileExists _ _ _ _); [apply IH|].
    destruct (writeProfile_calls_extend
                (getProfileNameFromRole g role) role w) as [n1 H1].
    destruct (writeProfileToConfig _ _ _ _ _) as [[e|] w']; simpl in H1.
    + destruct (IH added skipped w') as [n2 H2]. exists (n1 ++ n2)%list.
      now rewrite H2, H1, app_assoc.
    + destruct (IH (S added) skipped w') as [n2 H2]. exists (n1 ++ n2)%list.
      now rewrite H2, H1, app_assoc.
Qed.

(** Each role adds one to one counter at most. *)
Lemma reconcile_counts (roles : list CombinedRole) :
  forall added skipped w,
    let '(a, s, _) := reconcileProfiles E g roles added skipped w in
    a + s <= added + skipped + List.length roles.
Proof.
  induction roles as [|role roles IH]; intros added skipped w; simpl;
    [lia|].
  destruct (profileExists _ _ _ _).
  - specialize (IH added (S skipped) w).
    destruct (reconcileProfiles _ _ _ _ _ _) as [[a s] w1]. lia.
  - destruct (writeProfileToConfig _ _ _ _ _) as [[e|] w'].
    + specialize (IH added skipped w').
      destruct (reconcileProfiles _ _ _ _ _ _) as [[a s] w1]. lia.
    + specialize (IH (S added) skipped w').
      destruct (reconcileProfiles _ _ _ _ _ _) as [[a s] w1]. lia.
Qed.

Lemma skipn_length_app {A : Type} (l r : list A) :
  skipn (List.length l) (l ++ r) = r.
Proof. induction l as [|a l IH]; simpl; [reflexivity | exact IH]. Qed.

(** After a run in which no write failed and every saved document reads
    back, every profile that existed before still exists and every
    requested profile exists. *)
Lemma reconcile_establishes (roles : list CombinedRole) :
  forall added skipped w a s w1,
    reconcileProfiles E g roles added skipped w = (a, s, w1) ->
    a + s = added + skipped + List.length roles ->
    forallb (readsBack E) (issuedSince w w1) = true ->
    (forall n, profileExists E g n w = true -> profileExists E g n w1 = true)
    /\ (forall role, In role roles ->
          profileExists E g (getProfileNameFromRole g role) w1 = true).
Proof.
  induction roles as [|role roles IH]; intros added skipped w a s w1 Hrun Hcnt Hrb.
  - simpl in Hrun. injection Hrun as <- <- <-. split; [auto | intros r []].
  - simpl in Hrun, Hcnt.
    destruct (profileExists E g (getProfileNameFromRole g role) w) eqn:Hex.
    + destruct (IH _ _ _ _ _ _ Hrun) as [Hmono Hall]; [lia | assumption |].
      split; [assumption|]. intros r [<- | Hr]; auto.
    + destruct (writeProfileToConfig E g (getProfileNameFromRole g role) role w)
        as [[e|] w'] eqn:Hw.
      * pose proof (reconcile_counts roles added skipped w') as Hle.
        rewrite Hrun in Hle. lia.
      * destruct (writeProfile_ok_inv _ _ _ _ Hw) as [Hcalls Hfile].
        destruct (reconcile_calls_extend roles (S added) skipped w')
          as [new Hnew].
        rewrite Hrun in Hnew. simpl in Hnew.
        unfold issuedSince in Hrb. rewrite Hnew, Hcalls in Hrb.
        rewrite <- app_assoc, skipn_length_app in Hrb.
        simpl in Hrb.
        destruct (ini_parse E (ini_render E _)) as [cfg'|] eqn:Hparse;
          [|discriminate].
        apply andb_true_iff in Hrb. destruct Hrb as [Heqb Hrb].
        apply File_eqb_eq in Heqb. subst cfg'.
        assert (Hload : ini_Load E g w'
                        = Ok (profileDocument E g
                                (getProfileNameFromRole g role) role w)).
        { unfold ini_Load. now rewrite Hfile, config_readable, Hparse. }
        destruct (profileDocument_has (getProfileNameFromRole g role) role w)
          as [Hself Hold].
        destruct (IH _ _ _ _ _ _ Hrun) as [Hmono Hall]; [lia | |].
        { unfold issuedSince. now rewrite Hnew, skipn_length_app. }
        split.
        -- intros n Hn. apply Hmono. unfold profileExists. rewrite Hload.
           now apply Hold.
        -- intros r [<- | Hr]; [|now apply Hall].
           apply Hmono. unfold profileExists. now rewrite Hload.
Qed.

(** When every requested profile exists, the loop only counts. *)
Lemma reconcile_all_exist (roles : list CombinedRole) :
  forall added skipped w,
    (forall role, In role roles ->
       profileExists E g (getProfileNameFromRole g role) w = true) ->
    reconcileProfiles E g roles added skipped w
    = (added, skipped + List.length roles, w).
Proof.
  induction roles as [|role roles IH]; intros added skipped w Hall; simpl.
  - now rewrite Nat.add_0_r.
  - rewrite (Hall role) by now left.
    rewrite IH by (intros r Hr; apply Hall; now right).
    f_equal. f_equal. lia.
Qed.

End Reconcile.

(** C3. Reconciliation is idempotent. After a non-dry-run first run in
    which every role was added or skipped (no write failed) and every
    document it saved reads back from the file as it was saved, a second
    run over the same roles adds nothing, counts every role as skipped and
    leaves the world, the config file included, as the first run left it. *)
Theorem reconcile_twice_is_idempotent (E : Env) (g : Globals)
  (roles : list CombinedRole) (w0 w1 : World) (added1 skipped1 : nat) :
  dryRun g = false ->
  io_error E (ReadFile (ssoConfigFile g)) = None ->
  reconcileProfiles E g roles 0 0 w0 = (added1, skipped1, w1) ->
  added1 + skipped1 = List.length roles ->
  forallb (readsBack E) (issuedSince w0 w1) = true ->
  reconcileProfiles E g roles 0 0 w1 = (0, List.length roles, w1).
Proof.
  intros Hdry Hread Hrun Hcnt Hrb.
  destruct (reconcile_establishes E g Hdry Hread roles _ _ _ _ _ _ Hrun)
    as [_ Hall]; [simpl; lia | assumption |].
  now rewrite (reconcile_all_exist E g roles 0 0 w1 Hall).
Qed.

Lemma reconcile_twice_is_idempotent_witness :
  let roles := [ mkRole "123" "AWSReadOnlyAccess" "My App";
                 mkRole "456" "AWSReadOnlyAccess" "Data_Lake  Prod";
                 mkRole "123" "AWSReadOnlyAccess" "My App" ] in
  let w0 := set_config Sample.world
              (Some (Sample.sessionText "default" "https://unit.test/start"
                       "us-east-1")) in
  exists w1,
    reconcileProfiles Sample.env Sample.globals roles 0 0 w0 = (2, 1, w1)
    /\ reconcileProfiles Sample.env Sample.globals roles 0 0 w1 = (0, 3, w1).
Proof.
  intros roles w0.
  destruct (reconcileProfiles Sample.env Sample.globals roles 0 0 w0)
    as [[a s] w1] eqn:Hrun.
  exists w1.
  assert (Ha : a = 2 /\ s = 1).
  { vm_compute in Hrun. injection Hrun as <- <- _. split; reflexivity. }
  destruct Ha as [-> ->]. split; [reflexivity|].
  apply (reconcile_twice_is_idempotent Sample.env Sample.globals roles w0 w1
           2 1 eq_refl eq_refl Hrun eq_refl).
  vm_compute in Hrun. injection Hrun as <-. vm_compute. reflexivity.
Defined.

(** * Further properties *)

(** ** More on strings *)

Lemma append_assoc_s (a b c : string) : (a ++ b) ++ c = a ++ (b ++ c).
Proof. induction a as [|x a IH]; simpl; [reflexivity | now rewrite IH]. Qed.

Lemma append_nil_r_s (a : string) : a ++ "" = a.
Proof. induction a as [|x a IH]; simpl; [reflexivity | now rewrite IH]. Qed.

Lemma append_inj_l (a b c : string) : a ++ b = a ++ c -> b = c.
Proof.
  induction a as [|x a IH]; simpl; intro H; [exact H|].
  injection H as H. now apply IH.
Qed.

Lemma take_drop (n : nat) (s : string) :
  strings.take n s ++ strings.drop n s = s.
Proof.
  revert s. induction n as [|n IH]; intros [|c s]; simpl; try reflexivity.
  now rewrite IH.
Qed.

Lemma HasSuffix_split (s suffix : string) :
  strings.HasSuffix s suffix = true ->
  s = strings.take (String.length s - String.length suffix) s ++ suffix.
Proof.
  unfold strings.HasSuffix. intro H. apply andb_true_iff in H.
  destruct H as [_ H]. apply String.eqb_eq in H.
  transitivity (strings.take (String.length s - String.length suffix) s
                ++ strings.drop (String.length s - String.length suffix) s).
  - symmetry. apply take_drop.
  - f_equal. exact H.
Qed.

Lemma HasPrefix_append (p s : string) : strings.HasPrefix (p ++ s) p = true.
Proof.
  induction p as [|c p IH]; simpl; [reflexivity|].
  now rewrite Ascii.eqb_refl, IH.
Qed.

Lemma Contains_append (a h b : string) :
  strings.Contains (a ++ h ++ b) h = true.
Proof.
  induction a as [|c a IH]; simpl.
  - destruct (h ++ b) eqn:Hhb; simpl; rewrite <- Hhb, HasPrefix_append;
      reflexivity.
  - rewrite IH. apply orb_true_r.
Qed.

Lemma lastByte_append (a b : string) :
  b <> "" -> lastByte (a ++ b) = lastByte b.
Proof.
  intro Hb. induction a as [|c a IH]; simpl; [reflexivity|].
  destruct (a ++ b) eqn:Hab; [|exact IH].
  destruct a; simpl in Hab; [contradiction | discriminate].
Qed.

(** ** More on profile names *)

Lemma replaceRuns_clean_id (s : string) (inRun : bool) :
  allBytes (fun c => negb (regexp.underscoreOrSpace c)) s = true ->
  regexp.replaceRuns inRun s "-" = s.
Proof.
  revert inRun. induction s as [|c s IH]; intros inRun H; simpl in *;
    [reflexivity|].
  apply andb_true_iff in H. destruct H as [Hc Hs].
  apply negb_true_iff in Hc. rewrite Hc. now rewrite IH.
Qed.

(** Sanitising an account name twice changes nothing more, so a profile
    name depends on the account name through its sanitised form only. *)
Theorem sanitized_name_is_stable (g : Globals) (role : CombinedRole) :
  let safe := regexp.ReplaceAllString (AccountName role) "-" in
  regexp.ReplaceAllString safe "-" = safe
  /\ getProfileNameFromRole g (mkRole (AccountId role) (RoleName role) safe)
     = getProfileNameFromRole g role.
Proof.
  intro safe.
  assert (H : regexp.ReplaceAllString safe "-" = safe).
  { apply replaceRuns_clean_id. apply replaceRuns_clean. }
  split; [exact H|]. unfold getProfileNameFromRole. simpl.
  fold safe. now rewrite H.
Qed.

(** The derived prefix is what is left of the role name once a leading
    "AWS" has been removed, if the name starts with it, and then a trailing
    "Access", if the rest ends with it, followed by an underscore; it is
    empty when nothing is left. *)
Theorem generatePrefixFromRole_shape (roleName : string) :
  exists pre x suf,
    roleName = pre ++ x ++ suf
    /\ (pre = "AWS" \/ (pre = "" /\ strings.HasPrefix roleName "AWS" = false))
    /\ (suf = "Access"
        \/ (suf = "" /\ strings.HasSuffix x "Access" = false))
    /\ generatePrefixFromRole roleName
       = if String.eqb x "" then "" else x ++ "_".
Proof.
  unfold generatePrefixFromRole, strings.TrimPrefix, strings.TrimSuffix.
  destruct (strings.HasPrefix roleName "AWS") eqn:Hp.
  - pose proof (HasPrefix_split _ _ Hp) as Hr.
    set (r := strings.drop (String.length "AWS") roleName) in *.
    destruct (strings.HasSuffix r "Access") eqn:Hs.
    + pose proof (HasSuffix_split _ _ Hs) as Hr'.
      set (x := strings.take (String.length r - String.length "Access") r) in *.
      exists "AWS", x, "Access". repeat split; auto.
      * now rewrite <- Hr'.
      * now destruct (String.eqb x "").
    + exists "AWS", r, "". repeat split; auto.
      * now rewrite Hr at 1; rewrite append_nil_r_s.
      * now destruct (String.eqb r "").
  - destruct (strings.HasSuffix roleName "Access") eqn:Hs.
    + pose proof (HasSuffix_split _ _ Hs) as Hr'.
      set (x := strings.take (String.length roleName - String.length "Access")
                  roleName) in *.
      exists "", x, "Access". repeat split; auto.
      now destruct (String.eqb x "").
    + exists "", roleName, "". repeat split; auto.
      * simpl. now rewrite append_nil_r_s.
      * now destruct (String.eqb roleName "").
Qed.

(** Under one naming configuration, two entitlements with the same role
    and the same account name but different account ids get different
    profile names. *)
Theorem profile_names_differ_by_account_id (g : Globals)
  (r1 r2 : CombinedRole) :
  RoleName r1 = RoleName r2 ->
  AccountName r1 = AccountName r2 ->
  AccountId r1 <> AccountId r2 ->
  getProfileNameFromRole g r1 <> getProfileNameFromRole g r2.
Proof.
  intros Hr Hn Hid Heq. apply Hid. unfold getProfileNameFromRole in Heq.
  rewrite Hr, Hn in Heq.
  destruct (negb (String.eqb _ "")).
  - apply append_inj_l in Heq. apply append_inj_l in Heq.
    now injection Heq.
  - apply append_inj_l in Heq. now injection Heq.
Qed.

Lemma profile_names_differ_by_account_id_witness :
  getProfileNameFromRole Sample.globals (mkRole "123" "AWSReadOnlyAccess" "My App")
  <> getProfileNameFromRole Sample.globals (mkRole "456" "AWSReadOnlyAccess" "My App").
Proof.
  apply profile_names_differ_by_account_id;
    [reflexivity | reflexivity | discriminate].
Defined.

(** ** More on the token cache *)

(** Among the candidates of the newest second, the first one enumerated is
    returned: every candidate listed before the result is strictly older
    and none listed after it is newer. *)
Theorem findFreshest_first_of_newest (E : Env) (g : Globals) (w : World)
  (before after : list candidate) (c : candidate) :
  ReadCacheDir E w = Ok (cacheDir w) ->
  candidatesOf E g (cacheDir w) = (before ++ c :: after)%list ->
  (forall d, In d before -> (modTime d < modTime c)%Z) ->
  (forall d, In d after -> (modTime d <= modTime c)%Z) ->
  findFreshest E g w = Ok c
  /\ getAccessTokenFromSsoSessionWithPath E g w = Ok (token c, path c).
Proof.
  intros Hdir Hc Hb Ha.
  pose proof (findFreshest_split E g w before after c Hdir Hc Hb Ha) as H.
  split; [exact H|].
  unfold getAccessTokenFromSsoSessionWithPath. now rewrite H.
Qed.

Lemma findFreshest_first_of_newest_witness :
  let url := "https://unit.test/start" in
  let w := set_cache Sample.world
             [ Sample.tokenFile "a.json" url "old" (3 * second);
               Sample.tokenFile "b.json" url "first" (5 * second + 100 * millisecond);
               Sample.tokenFile "c.json" url "second" (5 * second + 900 * millisecond) ] in
  getAccessTokenFromSsoSessionWithPath Sample.env Sample.globals w
  = Ok ("first", "/home/user/.aws/sso/cache/b.json").
Proof.
  intros url w.
  refine (proj2 (findFreshest_first_of_newest Sample.env Sample.globals w
            [mkCandidate "/home/user/.aws/sso/cache/a.json" url "old" 3]
            [mkCandidate "/home/user/.aws/sso/cache/c.json" url "second" 5]
            (mkCandidate "/home/user/.aws/sso/cache/b.json" url "first" 5)
            eq_refl eq_refl _ _)).
  - intros d [<- | []]. simpl. lia.
  - intros d [<- | []]. simpl. lia.
Defined.

Lemma candidatesOf_in (E : Env) (g : Globals) (files : list DirEntry)
  (c : candidate) :
  In c (candidatesOf E g files) ->
  exists f, In f files /\ candidateOf E g f = Some c.
Proof.
  unfold candidatesOf. rewrite in_flat_map. intros (f & Hf & Hc).
  exists f. split; [exact Hf|].
  destruct (candidateOf E g f) as [c'|]; [|contradiction].
  destruct Hc as [<- | []]. reflexivity.
Qed.

(** A lookup that succeeds returns the token and path of a listed file:
    its name ends in ".json", it decodes to an object whose accessToken is
    the returned token, and its startUrl passes the filter for the target
    URL. No token of a file for another URL is ever returned. *)
Theorem lookup_returns_listed_token (E : Env) (g : Globals) (w : World)
  (tok p : string) :
  getAccessTokenFromSsoSessionWithPath E g w = Ok (tok, p) ->
  exists f m u,
    In f (cacheDir w)
    /\ strings.HasSuffix (de_name f) ".json" = true
    /\ p = filepath_Join [ssoCacheDir E; de_name f]
    /\ json_Unmarshal E (de_data f) = Some m
    /\ asString m "accessToken" = (tok, true)
    /\ asString m "startUrl" = (u, true)
    /\ sameUrlModuloSlash u (ssoStartURL g) = true.
Proof.
  unfold getAccessTokenFromSsoSessionWithPath.
  destruct (findFreshest E g w) as [c|] eqn:Hc; [|discriminate].
  intro H. injection H as <- <-.
  assert (Hdir : ReadCacheDir E w = Ok (cacheDir w)).
  { unfold findFreshest in Hc.
    destruct (ReadCacheDir E w) as [files|] eqn:Hr; [|discriminate].
    apply ReadCacheDir_inv in Hr. destruct Hr as (_ & _ & ->).
    reflexivity. }
  assert (Hne : candidatesOf E g (cacheDir w) <> []).
  { unfold findFreshest in Hc. rewrite Hdir, collectCandidates_spec in Hc.
    simpl in Hc. now destruct (candidatesOf E g (cacheDir w)). }
  destruct (findFreshest_some E g w Hdir Hne) as (c' & Hc' & Hin & _).
  rewrite Hc in Hc'. injection Hc' as <-.
  destruct (candidatesOf_in _ _ _ _ Hin) as (f & Hf & Hcand).
  destruct (candidateOf_inv _ _ _ _ Hcand)
    as (Hjson & Hpath & _ & Hmatch & m & Hm & Hu & Ht).
  exists f, m, (startUrl c). repeat split; auto.
  now apply startUrlMatches_sound.
Qed.

Lemma lookup_returns_listed_token_witness :
  let w := set_cache Sample.world
             [Sample.tokenFile "a.json" "https://unit.test/start" "tok" 0] in
  exists f, In f (cacheDir w)
            /\ strings.HasSuffix (de_name f) ".json" = true.
Proof.
  intro w.
  destruct (lookup_returns_listed_token Sample.env Sample.globals w "tok"
              "/home/user/.aws/sso/cache/a.json" eq_refl)
    as (f & m & u & Hin & Hjson & _).
  exists f. split; assumption.
Defined.

(** A file that is no candidate never changes the lookup, wherever it is
    listed: a name that does not end in ".json", an object without a string
    accessToken, or a startUrl that is neither the target nor the target
    without its trailing slashes. *)
Theorem lookup_ignores_other_files (E : Env) (g : Globals) (w : World)
  (pre post : list DirEntry) (f : DirEntry) :
  cacheDir w = (pre ++ f :: post)%list ->
  strings.HasSuffix (de_name f) ".json" = false
  \/ (exists m, json_Unmarshal E (de_data f) = Some m
                /\ (snd (asString m "accessToken") = false
                    \/ startUrlMatches g (fst (asString m "startUrl")) = false)) ->
  getAccessTokenFromSsoSessionWithPath E g w
  = getAccessTokenFromSsoSessionWithPath E g (set_cache w (pre ++ post)).
Proof.
  intros Hsplit Hwhy.
  assert (Hnone : candidateOf E g f = None).
  { unfold candidateOf. destruct Hwhy as [-> | (m & Hm & Hbad)];
      [reflexivity|].
    destruct (strings.HasSuffix (de_name f) ".json"); [|reflexivity].
    destruct (io_error E (ReadFile _)); [reflexivity|]. rewrite Hm.
    destruct (asString m "startUrl") as [u ok].
    destruct (asString m "accessToken") as [t tokenOk]. simpl in Hbad.
    destruct Hbad as [-> | ->]; [now rewrite andb_false_r|].
    now rewrite andb_false_r. }
  unfold getAccessTokenFromSsoSessionWithPath, findFreshest, ReadCacheDir.
  cbn [set_cache cacheDirExists cacheDir].
  destruct (cacheDirExists w); [|reflexivity].
  destruct (io_error E (ReadDir _)); [reflexivity|].
  rewrite !collectCandidates_spec. simpl. rewrite Hsplit.
  rewrite !candidatesOf_app. simpl. now rewrite Hnone.
Qed.

Lemma lookup_ignores_other_files_witness :
  let url := "https://unit.test/start" in
  let f := Sample.tokenFile "notes.txt" url "ignored" (9 * second) in
  let a := Sample.tokenFile "a.json" url "tok" 0 in
  getAccessTokenFromSsoSessionWithPath Sample.env Sample.globals
    (set_cache Sample.world [f; a])
  = getAccessTokenFromSsoSessionWithPath Sample.env Sample.globals
      (set_cache Sample.world [a]).
Proof.
  intros url f a.
  exact (lookup_ignores_other_files Sample.env Sample.globals
           (set_cache Sample.world [f; a]) [] [a] f eq_refl
           (or_introl eq_refl)).
Defined.

(** ** More on the device flow *)

Lemma pollLoop_frame (E : Env) (regOut : RegisterClientOutput)
  (devOut : StartDeviceAuthorizationOutput) (interval deadline : Z)
  (fuel : nat) :
  forall w r w',
    pollLoop fuel E regOut devOut interval deadline w = Some (r, w') ->
    w' = set_now w (now w') /\ (now w <= now w')%Z.
Proof.
  induction fuel as [|fuel IH]; intros w r w' H; simpl in H; [discriminate|].
  destruct (now w <? deadline)%Z.
  - destruct (classifyAttempt _).
    + injection H as _ <-. unfold afterCall. destruct w; simpl.
      split; [reflexivity | lia].
    + apply IH in H. destruct H as [Hw Hle]. unfold Sleep, afterCall in *.
      destruct w; simpl in *. split; [exact Hw | lia].
    + injection H as _ <-. unfold afterCall. destruct w; simpl.
      split; [reflexivity | lia].
  - injection H as _ <-. destruct w; simpl. split; [reflexivity | lia].
Qed.

Lemma madeCacheDir_frame (w : World) :
  configFile (madeCacheDir w) = configFile w
  /\ ssoSessionConfigName (madeCacheDir w) = ssoSessionConfigName w
  /\ now (madeCacheDir w) = now w
  /\ calls (madeCacheDir w) = calls w
  /\ cacheDirExists (madeCacheDir w) = true.
Proof.
  unfold madeCacheDir. destruct (cacheDirExists w) eqn:H; simpl; auto.
Qed.

Lemma writeTokenCache_frame (E : Env) (g : Globals) (tok : string)
  (expiresIn : Z) (w : World) :
  let w' := snd (writeTokenCache E g tok expiresIn w) in
  configFile w' = configFile w
  /\ ssoSessionConfigName w' = ssoSessionConfigName w
  /\ now w' = now w.
Proof.
  unfold writeTokenCache.
  destruct (madeCacheDir_frame (issue w (MkdirAll (ssoCacheDir E))))
    as (H1 & H2 & H3 & _).
  destruct (io_error E (MkdirAll _)); [simpl; auto|].
  destruct (json_MarshalIndent E _); [|simpl; auto].
  destruct (io_error E (WriteFile _ _)); [simpl; auto|].
  destruct (io_error E (Rename _ _)); [|simpl; auto].
  destruct (io_error E (Remove _)); simpl; auto.
Qed.

Lemma runAwsSsoLogin_frame (E : Env) (g : Globals)
  (session : string) (w : World) :
  let w' := snd (runAwsSsoLogin E g session w) in
  configFile w' = configFile w
  /\ ssoSessionConfigName w' = ssoSessionConfigName w
  /\ (now w <= now w')%Z.
Proof.
  unfold runAwsSsoLogin.
  destruct (RegisterClient E (now w)) as [regOut|]; [|simpl; repeat split; lia].
  destruct (StartDeviceAuthorization E _ _ _ _) as [devOut|];
    [|simpl; repeat split; lia].
  destruct (pollLoop _ _ _ _ _ _ _) as [[r w1]|] eqn:Hp;
    [|simpl; repeat split; lia].
  apply pollLoop_frame in Hp. destruct Hp as [Hw Hle].
  assert (Hc : configFile w1 = configFile w) by (rewrite Hw; reflexivity).
  assert (Hs : ssoSessionConfigName w1 = ssoSessionConfigName w)
    by (rewrite Hw; reflexivity).
  destruct r as [[[[tok|] expiresIn]|]|err]; simpl; auto.
  destruct (writeTokenCache_frame E g tok expiresIn w1) as (H1 & H2 & H3).
  rewrite H1, H2, H3. auto.
Qed.

(** The device flow never touches the config file or the session name,
    and the clock never runs backwards through it. *)
Theorem device_flow_leaves_config_alone (E : Env) (g : Globals)
  (session : string) (w : World) :
  let w' := snd (runAwsSsoLogin E g session w) in
  configFile w' = configFile w
  /\ ssoSessionConfigName w' = ssoSessionConfigName w
  /\ (now w <= now w')%Z.
Proof. exact (runAwsSsoLogin_frame E g session w). Qed.

Lemma tmp_name_is_not_json (x : string) :
  strings.HasSuffix (x ++ ".tmp") ".json" = false.
Proof.
  destruct (strings.HasSuffix (x ++ ".tmp") ".json") eqn:H; [|reflexivity].
  apply HasSuffix_split in H.
  assert (Hl : lastByte (x ++ ".tmp") = Some "p"%char)
    by (now rewrite lastByte_append).
  rewrite H, lastByte_append in Hl by discriminate. discriminate.
Qed.

Lemma removeEntry_app (n : string) (l1 l2 : list DirEntry) :
  removeEntry n (l1 ++ l2) = (removeEntry n l1 ++ removeEntry n l2)%list.
Proof.
  induction l1 as [|e l1 IH]; simpl; [reflexivity|].
  destruct (String.eqb (de_name e) n); [exact IH | simpl; now rewrite IH].
Qed.

Lemma candidatesOf_removeEntry_other (E : Env) (g : Globals) (n : string)
  (d : list DirEntry) :
  strings.HasSuffix n ".json" = false ->
  candidatesOf E g (removeEntry n d) = candidatesOf E g d.
Proof.
  intro Hn. induction d as [|e d IH]; simpl; [reflexivity|].
  destruct (String.eqb_spec (de_name e) n) as [He | He].
  - rewrite IH. unfold candidateOf. now rewrite He, Hn.
  - simpl. now rewrite IH.
Qed.

Lemma candidatesOf_removeEntry_incl (E : Env) (g : Globals) (n : string)
  (d : list DirEntry) (c : candidate) :
  In c (candidatesOf E g (removeEntry n d)) -> In c (candidatesOf E g d).
Proof.
  induction d as [|e d IH]; simpl; [auto|].
  destruct (String.eqb (de_name e) n).
  - intro H. apply in_or_app. right. now apply IH.
  - simpl. intro H. apply in_app_or in H. apply in_or_app.
    destruct H as [H | H]; [now left | right; now apply IH].
Qed.

Lemma candidatesOf_tmp (E : Env) (g : Globals) (x b : string) (t : Z) :
  candidatesOf E g [mkDirEntry (x ++ ".tmp") b t] = [].
Proof.
  simpl. unfold candidateOf. simpl. now rewrite tmp_name_is_not_json.
Qed.

(** The files of the cache directory, none when it is missing. *)
Lemma madeCacheDir_cache (w : World) :
  cacheDir (madeCacheDir w) = if cacheDirExists w then cacheDir w else [].
Proof. unfold madeCacheDir. now destruct (cacheDirExists w). Qed.

(** A write of the token that fails leaves the candidates of an existing
    directory as they were, and leaves a directory that was missing
    missing or without candidates. *)
Lemma writeTokenCache_error_candidates (E : Env) (g : Globals) (tok : string)
  (expiresIn : Z) (w : World) (err : error) :
  fst (writeTokenCache E g tok expiresIn w) = Some err ->
  let w' := snd (writeTokenCache E g tok expiresIn w) in
  (cacheDirExists w = true ->
   cacheDirExists w' = true
   /\ candidatesOf E g (cacheDir w') = candidatesOf E g (cacheDir w))
  /\ (cacheDirExists w = false ->
      cacheDirExists w' = false \/ candidatesOf E g (cacheDir w') = []).
Proof.
  unfold writeTokenCache.
  destruct (madeCacheDir_frame (issue w (MkdirAll (ssoCacheDir E))))
    as (_ & _ & _ & _ & Hex).
  pose proof (madeCacheDir_cache (issue w (MkdirAll (ssoCacheDir E)))) as Hcd.
  cbn [issue cacheDirExists cacheDir] in Hcd.
  set (w1 := madeCacheDir (issue w (MkdirAll (ssoCacheDir E)))) in *.
  destruct (io_error E (MkdirAll _)); [simpl; intuition auto|].
  assert (Hsame : cacheDirExists w = true ->
                  candidatesOf E g (cacheDir w1) = candidatesOf E g (cacheDir w)).
  { intro H. rewrite Hcd, H. reflexivity. }
  assert (Hnone : cacheDirExists w = false -> candidatesOf E g (cacheDir w1) = []).
  { intro H. rewrite Hcd, H. reflexivity. }
  destruct (json_MarshalIndent E _) as [b|]; [|simpl; intuition auto].
  destruct (io_error E (WriteFile _ _)); [simpl; intuition auto|].
  destruct (io_error E (Rename _ _)); [|discriminate].
  intros _.
  destruct (io_error E (Remove _));
    cbn [snd fst cacheDir cacheDirExists set_cache issue];
    unfold putEntry; cbn [de_name].
  - rewrite candidatesOf_app, candidatesOf_tmp, app_nil_r.
    rewrite candidatesOf_removeEntry_other by apply tmp_name_is_not_json.
    intuition auto.
  - rewrite removeEntry_app. cbn [removeEntry de_name].
    rewrite String.eqb_refl, app_nil_r.
    rewrite !candidatesOf_removeEntry_other by apply tmp_name_is_not_json.
    intuition auto.
Qed.

(** The lookup depends on the cache through its candidates only. *)
Lemma lookup_ext (E : Env) (g : Globals) (w1 w2 : World) :
  cacheDirExists w1 = cacheDirExists w2 ->
  candidatesOf E g (cacheDir w1) = candidatesOf E g (cacheDir w2) ->
  getAccessTokenFromSsoSessionWithPath E g w1
  = getAccessTokenFromSsoSessionWithPath E g w2.
Proof.
  intros Hex Hc.
  unfold getAccessTokenFromSsoSessionWithPath, findFreshest, ReadCacheDir.
  rewrite Hex. destruct (cacheDirExists w2); [|reflexivity].
  destruct (io_error E (ReadDir _)); [reflexivity|].
  rewrite !collectCandidates_spec. simpl. now rewrite Hc.
Qed.

Lemma lookup_needs_candidates (E : Env) (g : Globals) (w : World)
  (r : string * string) :
  getAccessTokenFromSsoSessionWithPath E g w = Ok r ->
  cacheDirExists w = true /\ candidatesOf E g (cacheDir w) <> [].
Proof.
  unfold getAccessTokenFromSsoSessionWithPath, findFreshest, ReadCacheDir.
  destruct (cacheDirExists w); [|discriminate].
  destruct (io_error E (ReadDir _)); [discriminate|].
  rewrite collectCandidates_spec. simpl.
  destruct (candidatesOf E g (cacheDir w)); [discriminate|].
  intros _. split; [reflexivity | discriminate].
Qed.

Lemma failed_device_flow_cache (E : Env) (g : Globals)
  (session : string) (w : World) (err : error) :
  fst (runAwsSsoLogin E g session w) = Some err ->
  let w' := snd (runAwsSsoLogin E g session w) in
  (cacheDirExists w = true ->
   cacheDirExists w' = true
   /\ candidatesOf E g (cacheDir w') = candidatesOf E g (cacheDir w))
  /\ (cacheDirExists w = false ->
      cacheDirExists w' = false \/ candidatesOf E g (cacheDir w') = []).
Proof.
  unfold runAwsSsoLogin.
  destruct (RegisterClient E (now w)) as [regOut|]; [|simpl; intuition auto].
  destruct (StartDeviceAuthorization E _ _ _ _) as [devOut|];
    [|simpl; intuition auto].
  destruct (pollLoop _ _ _ _ _ _ _) as [[r w1]|] eqn:Hp;
    [|simpl; intuition auto].
  apply pollLoop_frame in Hp. destruct Hp as [Hw _].
  assert (Hc : cacheDir w1 = cacheDir w) by (rewrite Hw; reflexivity).
  assert (Hx : cacheDirExists w1 = cacheDirExists w)
    by (rewrite Hw; reflexivity).
  destruct r as [[[[tok|] expiresIn]|]|e]; simpl;
    try (rewrite Hc, Hx; intuition auto).
  intro Herr.
  pose proof (writeTokenCache_error_candidates _ _ _ _ _ _ Herr) as H.
  simpl in H. rewrite Hc, Hx in H. exact H.
Qed.

(** A device flow that ends in an error never makes the cache lookup
    find a token it did not find before: the token file only appears
    through the final rename, and a left-over ".tmp" file is no candidate.
    When the cache directory existed, the lookup answers as before; when
    it was missing, the flow may have created it, which changes the error
    of the lookup, not its failure. *)
Theorem failed_device_flow_keeps_lookup (E : Env) (g : Globals)
  (session : string) (w : World) (err : error) :
  fst (runAwsSsoLogin E g session w) = Some err ->
  let w' := snd (runAwsSsoLogin E g session w) in
  (forall r, getAccessTokenFromSsoSessionWithPath E g w' = Ok r ->
             getAccessTokenFromSsoSessionWithPath E g w = Ok r)
  /\ (cacheDirExists w = true ->
      candidatesOf E g (cacheDir w') = candidatesOf E g (cacheDir w)
      /\ getAccessTokenFromSsoSessionWithPath E g w'
         = getAccessTokenFromSsoSessionWithPath E g w).
Proof.
  intros Herr w'.
  destruct (failed_device_flow_cache E g session w err Herr) as [Hyes Hno].
  fold w' in Hyes, Hno.
  assert (Hsame : cacheDirExists w = true ->
                  candidatesOf E g (cacheDir w') = candidatesOf E g (cacheDir w)
                  /\ getAccessTokenFromSsoSessionWithPath E g w'
                     = getAccessTokenFromSsoSessionWithPath E g w).
  { intro Hex. destruct (Hyes Hex) as [Hex' Hc]. split; [exact Hc|].
    apply lookup_ext; [congruence | exact Hc]. }
  split; [|exact Hsame].
  intros r Hr. destruct (cacheDirExists w) eqn:Hex.
  - now rewrite <- (proj2 (Hsame eq_refl)).
  - apply lookup_needs_candidates in Hr. destruct Hr as [Hex' Hne].
    destruct (Hno eq_refl) as [H | H]; [congruence | contradiction].
Qed.

Lemma failed_device_flow_keeps_lookup_witness :
  let renameFails := fun c => match c with
                              | Rename _ _ => Some (ExtError "permission denied")
                              | _ => None
                              end in
  let E := Sample.with_io Sample.env renameFails in
  let w := set_cache Sample.world
             [Sample.tokenFile "a.json" "https://unit.test/start" "old" 0] in
  getAccessTokenFromSsoSessionWithPath E Sample.globals
    (snd (runAwsSsoLogin E Sample.globals "default" w))
  = Ok ("old", "/home/user/.aws/sso/cache/a.json").
Proof.
  intros renameFails E w.
  rewrite (proj2 (proj2 (failed_device_flow_keeps_lookup E Sample.globals
                           "default" w (ExtError "permission denied") eq_refl)
                    eq_refl)).
  reflexivity.
Defined.

Lemma writeTokenCache_ok (E : Env) (g : Globals) (tok : string)
  (expiresIn : Z) (w : World) (b : string) :
  (forall c, io_error E c = None) ->
  json_MarshalIndent E (tokenObject E g tok expiresIn (now w)) = Ok b ->
  let tmp := mkDirEntry (tokenFileName (now w) ++ ".tmp") b (now w) in
  let new := mkDirEntry (tokenFileName (now w)) b (now w) in
  let old := if cacheDirExists w then cacheDir w else [] in
  exists w',
    writeTokenCache E g tok expiresIn w = (None, w')
    /\ cacheDirExists w' = true
    /\ cacheDir w'
       = putEntry new (removeEntry (de_name tmp) (putEntry tmp old)).
Proof.
  intros Hio Hm tmp new old. unfold writeTokenCache.
  destruct (madeCacheDir_frame (issue w (MkdirAll (ssoCacheDir E))))
    as (_ & _ & Hnow & _ & Hex).
  pose proof (madeCacheDir_cache (issue w (MkdirAll (ssoCacheDir E)))) as Hcd.
  cbn [issue cacheDirExists cacheDir now] in Hcd, Hnow.
  set (w1 := madeCacheDir (issue w (MkdirAll (ssoCacheDir E)))) in *.
  rewrite !Hio. cbv zeta. rewrite Hnow.
  unfold tokenObject in Hm. rewrite Hm. rewrite !Hio.
  eexists. split; [reflexivity|].
  cbn [cacheDirExists cacheDir set_cache issue now]. rewrite Hnow, Hcd.
  split; [exact Hex | reflexivity].
Qed.

(** Write then read. When no file-system call fails, the codec decodes the
    object it encoded, and every cached candidate is older than the current
    second, the token stored by the device flow is the one the next lookup
    returns, with the path of the new file. *)
Theorem written_token_is_found (E : Env) (g : Globals) (tok : string)
  (expiresIn : Z) (w : World) (b : string) :
  (forall c, io_error E c = None) ->
  json_MarshalIndent E (tokenObject E g tok expiresIn (now w)) = Ok b ->
  json_Unmarshal E b = Some (tokenObject E g tok expiresIn (now w)) ->
  (forall d, In d (candidatesOf E g (cacheDir w)) ->
             (modTime d < now w / second)%Z) ->
  let w' := snd (writeTokenCache E g tok expiresIn w) in
  fst (writeTokenCache E g tok expiresIn w) = None
  /\ getAccessTokenFromSsoSessionWithPath E g w'
     = Ok (tok, filepath_Join [ssoCacheDir E; tokenFileName (now w)]).
Proof.
  intros Hio Hm Hu Hold w'.
  destruct (writeTokenCache_ok E g tok expiresIn w b Hio Hm)
    as (w1 & Hw & Hex & Hcache).
  subst w'. rewrite Hw. simpl. split; [reflexivity|].
  set (old := if cacheDirExists w then cacheDir w else []) in *.
  assert (Hold' : forall d, In d (candidatesOf E g old) ->
                            (modTime d < now w / second)%Z).
  { intros d Hd. subst old. destruct (cacheDirExists w); [now apply Hold|].
    destruct Hd. }
  set (new := mkDirEntry (tokenFileName (now w)) b (now w)) in *.
  set (c := mkCandidate (filepath_Join [ssoCacheDir E; tokenFileName (now w)])
              (strings.TrimRight (ssoStartURL g) "/") tok (now w / second)).
  assert (Hnew : candidateOf E g new = Some c).
  { assert (Hs : strings.HasSuffix (tokenFileName (now w)) ".json" = true).
    { unfold tokenFileName. rewrite <- append_assoc_s.
      apply HasSuffix_append. }
    assert (Hurl : asString (tokenObject E g tok expiresIn (now w)) "startUrl"
                   = (strings.TrimRight (ssoStartURL g) "/", true))
      by reflexivity.
    assert (Htok : asString (tokenObject E g tok expiresIn (now w))
                     "accessToken" = (tok, true)) by reflexivity.
    unfold candidateOf, new. cbn [de_name de_data de_modTime].
    rewrite Hs, !Hio, Hu, Hurl, Htok. cbv beta iota.
    unfold startUrlMatches. rewrite String.eqb_refl, orb_true_r.
    reflexivity. }
  assert (H : findFreshest E g w1 = Ok c).
  { apply findFreshest_split
      with (before := candidatesOf E g
                        (removeEntry (de_name new)
                           (removeEntry (tokenFileName (now w) ++ ".tmp")
                              (putEntry
                                 (mkDirEntry (tokenFileName (now w) ++ ".tmp")
                                    b (now w)) old))))
           (after := []).
    - unfold ReadCacheDir. now rewrite Hex, Hio.
    - rewrite Hcache. unfold putEntry at 1. rewrite candidatesOf_app.
      simpl. now rewrite Hnew.
    - intros d Hd. simpl. apply Hold'.
      apply candidatesOf_removeEntry_incl in Hd.
      apply candidatesOf_removeEntry_incl in Hd.
      unfold putEntry in Hd. rewrite candidatesOf_app, candidatesOf_tmp in Hd.
      rewrite app_nil_r in Hd.
      now apply candidatesOf_removeEntry_incl in Hd.
    - intros d []. }
  unfold getAccessTokenFromSsoSessionWithPath. rewrite H. reflexivity.
Qed.

Lemma written_token_is_found_witness :
  let w := set_cache Sample.world
             [Sample.tokenFile "a.json" "https://unit.test/start" "old"
                (1600000000 * second)] in
  getAccessTokenFromSsoSessionWithPath Sample.env Sample.globals
    (snd (writeTokenCache Sample.env Sample.globals "fresh-token" 3600 w))
  = Ok ("fresh-token",
        "/home/user/.aws/sso/cache/sso_token_1700000000000000000.json").
Proof.
  intro w.
  refine (proj2 (written_token_is_found Sample.env Sample.globals
                   "fresh-token" 3600 w _ (fun _ => eq_refl) eq_refl eq_refl _)).
  intros d Hd. vm_compute in Hd. destruct Hd as [<- | []]. vm_compute.
  reflexivity.
Defined.

Lemma pollLoop_overshoot (E : Env) (regOut : RegisterClientOutput)
  (devOut : StartDeviceAuthorizationOutput) (interval deadline : Z)
  (n : nat) :
  alwaysPending E regOut devOut -> (1 <= interval)%Z ->
  (forall t, (CreateToken_latency E t <= 0)%Z) ->
  forall w, (now w < deadline + interval * second)%Z ->
            (deadline - now w <= Z.of_nat n * second)%Z ->
            exists t,
              pollLoop (S n) E regOut devOut interval deadline w
              = Some (LoopDone None, set_now w t)
              /\ (deadline <= t < deadline + interval * second)%Z.
Proof.
  intros Hall Hi Hlat. induction n as [|n IH]; intros w Hlt Hn.
  - rewrite pollLoop_deadline by (simpl in Hn; lia).
    exists (now w). destruct w; simpl in *. split; [reflexivity | lia].
  - destruct (Z.lt_ge_cases (now w) deadline) as [Hnd | Hge].
    + destruct (Hall (now w)) as (err & Hx & Hp).
      rewrite (pollLoop_pending _ _ _ _ _ _ _ err) by assumption.
      assert (Hnow : now (Sleep (afterCall E w) (interval * second))
                     = (now w + interval * second)%Z).
      { unfold Sleep, afterCall. simpl. specialize (Hlat (now w)).
        unfold second in *. lia. }
      destruct (IH (Sleep (afterCall E w) (interval * second)))
        as (t & Ht & Hb); [rewrite Hnow | rewrite Hnow |];
        try (unfold second in *; lia).
      exists t. rewrite Ht. split; [reflexivity | exact Hb].
    + rewrite pollLoop_deadline by lia.
      exists (now w). destruct w; simpl in *. split; [reflexivity | lia].
Qed.

(** When the exchange answers at once and never grants the token, the
    device flow gives up at the first multiple of the polling interval that
    is at or after the deadline: it overshoots the validity window by less
    than one interval. *)
Theorem device_flow_gives_up_within_one_interval (E : Env) (g : Globals)
  (session : string) (w : World) (regOut : RegisterClientOutput)
  (devOut : StartDeviceAuthorizationOutput) :
  RegisterClient E (now w) = Ok regOut ->
  StartDeviceAuthorization E (now w) (ClientId regOut) (ClientSecret regOut)
    (strings.TrimRight (ssoStartURL g) "/") = Ok devOut ->
  alwaysPending E regOut devOut ->
  (forall t, (CreateToken_latency E t <= 0)%Z) ->
  (0 <= ExpiresIn devOut)%Z ->
  let interval := if (Interval devOut >? 0)%Z then Interval devOut else 5%Z in
  let deadline := (now w + ExpiresIn devOut * second)%Z in
  exists t,
    runAwsSsoLogin E g session w = (Some noTokenError, set_now w t)
    /\ (deadline <= t < deadline + interval * second)%Z.
Proof.
  intros Hreg Hdev Hall Hlat Hexp interval deadline.
  assert (Hint : (1 <= interval)%Z).
  { subst interval. destruct (Z.gtb_spec (Interval devOut) 0); lia. }
  destruct (pollLoop_overshoot E regOut devOut interval deadline
              (Z.to_nat (ExpiresIn devOut)) Hall Hint Hlat w)
    as (t & Ht & Hb).
  - subst deadline. unfold second. lia.
  - subst deadline. unfold second. lia.
  - exists t. unfold runAwsSsoLogin. rewrite Hreg, Hdev.
    fold interval. fold deadline. unfold pollFuel. rewrite Ht.
    split; [reflexivity | exact Hb].
Qed.

Lemma device_flow_gives_up_within_one_interval_witness :
  let E := Sample.with_CreateToken Sample.env
             (fun _ _ _ _ => Err (ExtError "SlowDownException: slow_down")) in
  exists t,
    runAwsSsoLogin E Sample.globals "default" Sample.world
    = (Some noTokenError, set_now Sample.world t)
    /\ (now Sample.world + 600 * second <= t
        < now Sample.world + 600 * second + 5 * second)%Z.
Proof.
  intro E.
  destruct (device_flow_gives_up_within_one_interval E Sample.globals
              "default" Sample.world (mkRegOut "client" "secret")
              (mkDevOut "device" "ABCD" "https://device.test/?code=ABCD" 5 600)
              eq_refl eq_refl) as (t & Hr & Hb).
  - intro t. eexists. split; reflexivity.
  - intro t. simpl. lia.
  - simpl. lia.
  - exists t. split; [exact Hr | exact Hb].
Defined.

(** ** More on session reconciliation *)

Lemma sessionBlock_header (g : Globals) (w : World) :
  exists rest, sessionBlock g w = sessionHeader w ++ rest.
Proof.
  unfold sessionBlock, sessionHeader. eexists.
  rewrite !append_assoc_s. reflexivity.
Qed.

(** What a non-dry-run call that reports an addition has done. *)
Lemma ensure_added_inv (E : Env) (g : Globals) (w w1 : World) :
  dryRun g = false ->
  ensureSsoSessionConfigPresent E g w = (true, None, w1) ->
  let old := match configFile w with Some d => d | None => "" end in
  let sep := match lastByte old with
             | Some c => if Ascii.eqb c (ascii_of_nat 10) then "" else LF
             | None => ""
             end in
  strings.Contains old (sessionHeader w) = false
  /\ configFile w1 = Some (old ++ sep ++ sessionBlock g w)
  /\ ssoSessionConfigName w1 = ssoSessionConfigName w
  /\ cacheDir w1 = cacheDir w
  /\ calls w1 = (calls w ++ [OpenAppend (ssoConfigFile g);
                             WriteString (ssoConfigFile g)
                               (sep ++ sessionBlock g w)])%list.
Proof.
  intros Hdry H. unfold ensureSsoSessionConfigPresent in H.
  fold (sessionHeader w) in H.
  assert (Hgen : forall data,
    (if strings.Contains data (sessionHeader w) then (false, None, w)
     else match reuseExistingSession E g w with
          | Some r => r
          | None =>
              if dryRun g then (true, None, w)
              else
                let needsNewline :=
                  match lastByte data with
                  | Some c => negb (Ascii.eqb c (ascii_of_nat 10))
                  | None => false
                  end in
                let toWrite := if needsNewline then LF ++ sessionBlock g w
                               else sessionBlock g w in
                let w1 := issue w (OpenAppend (ssoConfigFile g)) in
                match io_error E (OpenAppend (ssoConfigFile g)) with
                | Some err => (false, Some err, w1)
                | None =>
                    let w2 := set_config w1 (Some data) in
                    let w3 := issue w2 (WriteString (ssoConfigFile g) toWrite) in
                    match io_error E (WriteString (ssoConfigFile g) toWrite) with
                    | Some err => (false, Some err, w3)
                    | None => (true, None, set_config w3 (Some (data ++ toWrite)))
                    end
                end
          end) = (true, None, w1) ->
    let sep := match lastByte data with
               | Some c => if Ascii.eqb c (ascii_of_nat 10) then "" else LF
               | None => ""
               end in
    strings.Contains data (sessionHeader w) = false
    /\ configFile w1 = Some (data ++ sep ++ sessionBlock g w)
    /\ ssoSessionConfigName w1 = ssoSessionConfigName w
    /\ cacheDir w1 = cacheDir w
    /\ calls w1 = (calls w ++ [OpenAppend (ssoConfigFile g);
                               WriteString (ssoConfigFile g)
                                 (sep ++ sessionBlock g w)])%list).
  { intros data Hd.
    destruct (strings.Contains data (sessionHeader w)); [discriminate|].
    unfold reuseExistingSession in Hd.
    assert (Hfall : (if dryRun g then (true, None, w)
              else
                let needsNewline :=
                  match lastByte data with
                  | Some c => negb (Ascii.eqb c (ascii_of_nat 10))
                  | None => false
                  end in
                let toWrite := if needsNewline then LF ++ sessionBlock g w
                               else sessionBlock g w in
                let w1 := issue w (OpenAppend (ssoConfigFile g)) in
                match io_error E (OpenAppend (ssoConfigFile g)) with
                | Some err => (false, Some err, w1)
                | None =>
                    let w2 := set_config w1 (Some data) in
                    let w3 := issue w2 (WriteString (ssoConfigFile g) toWrite) in
                    match io_error E (WriteString (ssoConfigFile g) toWrite) with
                    | Some err => (false, Some err, w3)
                    | None => (true, None, set_config w3 (Some (data ++ toWrite)))
                    end
                end) = (true, None, w1)).
    { destruct (isDefaultSessionName _); [|exact Hd].
      destruct (configFile w); [|exact Hd].
      destruct (io_error E (Stat _)); [exact Hd|].
      destruct (findAllMatchingSsoSessionNames _ _ _ _ _) as [[|m [|m' l]]|];
        try exact Hd; discriminate. }
    clear Hd. rewrite Hdry in Hfall. cbv zeta in Hfall.
    destruct (io_error E (OpenAppend _)); [discriminate|].
    destruct (io_error E (WriteString _ _)); [discriminate|].
    injection Hfall as <-. simpl.
    destruct (lastByte data) as [c|]; simpl;
      [destruct (Ascii.eqb c _); simpl|];
      rewrite <- !app_assoc; auto. }
  destruct (configFile w) as [data|].
  - destruct (io_error E (ReadFile _)); [discriminate|]. now apply Hgen.
  - now apply Hgen.
Qed.

(** Once a session block has been added, calling again finds it and adds
    nothing. *)
Theorem ensure_twice_adds_once (E : Env) (g : Globals) (w w1 : World) :
  dryRun g = false ->
  io_error E (ReadFile (ssoConfigFile g)) = None ->
  ensureSsoSessionConfigPresent E g w = (true, None, w1) ->
  ensureSsoSessionConfigPresent E g w1 = (false, None, w1).
Proof.
  intros Hdry Hread H.
  destruct (ensure_added_inv E g w w1 Hdry H) as (_ & Hfile & Hname & _).
  destruct (sessionBlock_header g w) as [rest Hblock].
  unfold ensureSsoSessionConfigPresent. rewrite Hfile, Hread.
  fold (sessionHeader w1). unfold sessionHeader at 1. rewrite Hname.
  fold (sessionHeader w). rewrite Hblock, <- !append_assoc_s.
  rewrite append_assoc_s, Contains_append. reflexivity.
Qed.

Lemma ensure_twice_adds_once_witness :
  exists w1,
    ensureSsoSessionConfigPresent Sample.env Sample.globals Sample.world
    = (true, None, w1)
    /\ ensureSsoSessionConfigPresent Sample.env Sample.globals w1
       = (false, None, w1).
Proof.
  eexists. split; [reflexivity|].
  apply (ensure_twice_adds_once Sample.env Sample.globals Sample.world);
    reflexivity.
Defined.

(** An addition appends and never rewrites: the new file is the old
    content, a line feed when the old content did not end in one, and the
    session block, which therefore starts at the beginning of a line; a
    missing file is created holding the block alone. *)
Theorem ensure_appends_block_on_fresh_line (E : Env) (g : Globals)
  (w w1 : World) :
  dryRun g = false ->
  ensureSsoSessionConfigPresent E g w = (true, None, w1) ->
  let old := match configFile w with Some d => d | None => "" end in
  exists sep,
    configFile w1 = Some (old ++ sep ++ sessionBlock g w)
    /\ (sep = "" \/ sep = LF)
    /\ (lastByte (old ++ sep) = None
        \/ lastByte (old ++ sep) = Some (ascii_of_nat 10))
    /\ (configFile w = None -> configFile w1 = Some (sessionBlock g w)).
Proof.
  intros Hdry H old.
  destruct (ensure_added_inv E g w w1 Hdry H) as (_ & Hfile & _).
  fold old in Hfile.
  exists (match lastByte old with
          | Some c => if Ascii.eqb c (ascii_of_nat 10) then "" else LF
          | None => ""
          end).
  split; [exact Hfile|].
  destruct (lastByte old) as [c|] eqn:Hl.
  - destruct (Ascii.eqb_spec c (ascii_of_nat 10)) as [-> | Hc].
    + rewrite append_nil_r_s, Hl. repeat split; auto.
      intro Hn. subst old. rewrite Hn in Hl. discriminate.
    + repeat split; auto.
      * right. now rewrite lastByte_append.
      * intro Hn. subst old. rewrite Hn in Hl. discriminate.
  - rewrite append_nil_r_s, Hl. repeat split; auto.
    intro Hn. subst old. rewrite Hn in Hfile. exact Hfile.
Qed.

Lemma ensure_appends_block_on_fresh_line_witness :
  let w := set_config Sample.world (Some "[default]") in
  exists w1 sep,
    ensureSsoSessionConfigPresent Sample.env Sample.globals w = (true, None, w1)
    /\ configFile w1
       = Some ("[default]" ++ sep ++ sessionBlock Sample.globals w)
    /\ (lastByte ("[default]" ++ sep) = None
        \/ lastByte ("[default]" ++ sep) = Some (ascii_of_nat 10)).
Proof.
  intro w. eexists.
  destruct (ensure_appends_block_on_fresh_line Sample.env Sample.globals w _
              eq_refl eq_refl) as (sep & Hfile & _ & Hline & _).
  exists sep. split; [reflexivity|]. split; [exact Hfile | exact Hline].
Defined.

(** A session name given explicitly is never rebound, and no existing
    session is looked for: when the header of that name is not in the
    file, a real run adds the block even if the endpoint is already declared
    under other names. *)
Theorem ensure_keeps_explicit_name (E : Env) (g : Globals) (w : World) :
  isDefaultSessionName (ssoSessionConfigName w) = false ->
  let r := ensureSsoSessionConfigPresent E g w in
  ssoSessionConfigName (snd r) = ssoSessionConfigName w
  /\ (dryRun g = false ->
      (forall c, io_error E c = None) ->
      strings.Contains
        (match configFile w with Some d => d | None => "" end)
        (sessionHeader w) = false ->
      fst r = (true, None)).
Proof.
  intros Hname r. subst r. unfold ensureSsoSessionConfigPresent.
  fold (sessionHeader w). unfold reuseExistingSession. rewrite Hname. split.
  - destruct (configFile w) as [data|].
    + destruct (io_error E (ReadFile _)); [reflexivity|].
      destruct (strings.Contains _ _); [reflexivity|].
      destruct (dryRun g); [reflexivity|].
      destruct (io_error E (OpenAppend _)); [reflexivity|].
      destruct (io_error E (WriteString _ _)); reflexivity.
    + simpl. destruct (dryRun g); [reflexivity|].
      destruct (io_error E (OpenAppend _)); [reflexivity|].
      destruct (io_error E (WriteString _ _)); reflexivity.
  - intros Hdry Hio Hc. rewrite Hdry.
    destruct (configFile w) as [data|]; rewrite ?Hio, Hc; cbv zeta;
      rewrite ?Hio; reflexivity.
Qed.

Lemma ensure_keeps_explicit_name_witness :
  let w := set_session
             (set_config Sample.world
                (Some (Sample.sessionText "work" "https://unit.test/start"
                         "us-east-1")))
             "mine" in
  let r := ensureSsoSessionConfigPresent Sample.env Sample.globals w in
  ssoSessionConfigName (snd r) = "mine" /\ fst r = (true, None).
Proof.
  intros w r.
  destruct (ensure_keeps_explicit_name Sample.env Sample.globals w eq_refl)
    as [Hn Hadd].
  split; [exact Hn|].
  apply Hadd; [reflexivity | intro c; reflexivity | reflexivity].
Defined.

(** A dry run announces what the real run does: when opening and appending
    to the config file do not fail, both runs report the same created flag
    and the same error and resolve the same session name. *)
Theorem ensure_dry_run_predicts_real_run (E : Env) (g : Globals) (w : World) :
  io_error E (OpenAppend (ssoConfigFile g)) = None ->
  (forall data, io_error E (WriteString (ssoConfigFile g) data) = None) ->
  let dry := ensureSsoSessionConfigPresent E (Sample.with_dryRun g true) w in
  let real := ensureSsoSessionConfigPresent E (Sample.with_dryRun g false) w in
  fst dry = fst real
  /\ ssoSessionConfigName (snd dry) = ssoSessionConfigName (snd real).
Proof.
  intros Hopen Hwrite dry real. subst dry real.
  unfold ensureSsoSessionConfigPresent, reuseExistingSession,
    findAllMatchingSsoSessionNames, ini_Load, sessionBlock.
  cbn [Sample.with_dryRun ssoConfigFile ssoStartURL ssoRegion dryRun].
  rewrite Hopen.
  destruct (configFile w) as [data|].
  - destruct (io_error E (ReadFile _)); [split; reflexivity|].
    destruct (strings.Contains _ _); [split; reflexivity|].
    destruct (isDefaultSessionName _).
    + destruct (io_error E (Stat _)); [rewrite !Hwrite; split; reflexivity|].
      destruct (ini_parse E data) as [cfg|];
        [|rewrite !Hwrite; split; reflexivity].
      destruct (matchLoop _ _ _ _) as [|m [|m' l]];
        rewrite ?Hwrite; split; reflexivity.
    + rewrite !Hwrite; split; reflexivity.
  - cbn [strings.Contains strings.HasPrefix orb].
    destruct (isDefaultSessionName _); rewrite !Hwrite; split; reflexivity.
Qed.

Lemma ensure_dry_run_predicts_real_run_witness :
  let w := set_config Sample.world
             (Some (Sample.sessionText "work" "https://unit.test/start/"
                      "us-east-1")) in
  fst (ensureSsoSessionConfigPresent Sample.env
         (Sample.with_dryRun Sample.globals true) w)
  = (false, None)
  /\ fst (ensureSsoSessionConfigPresent Sample.env
            (Sample.with_dryRun Sample.globals false) w)
     = (false, None).
Proof.
  intro w.
  destruct (ensure_dry_run_predicts_real_run Sample.env Sample.globals w
              eq_refl (fun _ => eq_refl)) as [H _].
  split; [reflexivity|]. rewrite <- H. reflexivity.
Defined.

Lemma firstMatchLoop_spec (E : Env) (cfg : ini.File)
  (normStart region : string) (sections : list ini.Section) :
  forall acc,
    matchLoop E cfg normStart region sections acc
    = (acc ++ matchLoop E cfg normStart region sections [])%list
    /\ firstMatchLoop E cfg normStart region sections
       = match matchLoop E cfg normStart region sections [] with
         | m :: _ => (m, true)
         | [] => ("", false)
         end.
Proof.
  induction sections as [|s sections IH]; intro acc;
    cbn [matchLoop firstMatchLoop].
  - rewrite app_nil_r. split; reflexivity.
  - destruct (strings.HasPrefix (ini.Name s) "sso-session "); [|apply IH].
    destruct (sessionMatches E cfg normStart region s); [|apply IH].
    destruct (strings.SplitN2 (ini.Name s) " ") as [|a [|label [|x l]]];
      try apply IH.
    cbn [app]. split.
    + rewrite (proj1 (IH (acc ++ [label])%list)), (proj1 (IH [label])).
      now rewrite <- app_assoc.
    + rewrite (proj1 (IH [label])). reflexivity.
Qed.

(** [findMatchingSsoSessionName] answers with the first of the names
    [findAllMatchingSsoSessionNames] collects, and with "not found" when
    there is none or the file does not load. *)
Theorem findMatching_is_first_of_findAll (E : Env) (g : Globals)
  (startURL region : string) (w : World) :
  findMatchingSsoSessionName E g startURL region w
  = match findAllMatchingSsoSessionNames E g startURL region w with
    | Ok (m :: _) => (m, true)
    | _ => ("", false)
    end.
Proof.
  unfold findMatchingSsoSessionName, findAllMatchingSsoSessionNames.
  destruct (ini_Load E g w) as [cfg|]; [|reflexivity].
  apply (proj2 (firstMatchLoop_spec E cfg _ _ (ini.Sections cfg) [])).
Qed.

(** The block rebuilt from an existing session has the format of the block
    that would be added for it, followed by a blank line: for a section of
    the requested name that reads as the target's start URL (up to trailing
    slashes) and region, with the default scope or none. *)
Theorem existing_block_has_added_format (E : Env) (g : Globals) (w : World)
  (cfg : ini.File) (s : ini.Section) :
  ini_Load E g w = Ok cfg ->
  ini.GetSection cfg ("sso-session " ++ ssoSessionConfigName w) = Some s ->
  sameUrlModuloSlash (KeyString E cfg s "sso_start_url") (ssoStartURL g)
  = true ->
  KeyString E cfg s "sso_region" = ssoRegion g ->
  KeyString E cfg s "sso_registration_scopes" = "sso:account:access"
  \/ KeyString E cfg s "sso_registration_scopes" = "" ->
  getExistingSsoSessionBlock E g (ssoSessionConfigName w) w
  = Ok (sessionBlock g w ++ LF).
Proof.
  intros Hload Hs Hurl Hreg Hscope.
  unfold getExistingSsoSessionBlock, cfg_Section, ini.SectionOf.
  rewrite Hload, Hs. unfold sameUrlModuloSlash in Hurl.
  apply String.eqb_eq in Hurl. rewrite Hurl, Hreg.
  assert (Hsc : (if String.eqb (KeyString E cfg s "sso_registration_scopes") ""
                 then "sso:account:access"
                 else KeyString E cfg s "sso_registration_scopes")
                = "sso:account:access").
  { destruct Hscope as [-> | ->]; reflexivity. }
  rewrite Hsc. unfold sessionBlock. f_equal.
  rewrite !append_assoc_s. reflexivity.
Qed.

Lemma existing_block_has_added_format_witness :
  let w := set_session
             (set_config Sample.world
                (Some (Sample.sessionText "work" "https://unit.test/start//"
                         "us-east-1")))
             "work" in
  getExistingSsoSessionBlock Sample.env Sample.globals "work" w
  = Ok (sessionBlock Sample.globals w ++ LF).
Proof.
  intro w.
  exact (existing_block_has_added_format Sample.env Sample.globals w _ _
           eq_refl eq_refl eq_refl eq_refl (or_introl eq_refl)).
Defined.

Lemma inherited_none (cfg : ini.File) (names : list string) (k : string) :
  (forall p, In p names -> ini.GetSection cfg p = None) ->
  ini.inherited cfg names k = None.
Proof.
  induction names as [|n names IH]; intro H; simpl; [reflexivity|].
  rewrite (H n) by now left. apply IH. intros p Hp. apply H. now right.
Qed.

(** [getExistingSsoSessionBlock] fails only when the file does not load.
    For a session that is not declared, and that has no declared parent
    section to answer for it, the function returns, without error, a block
    with empty start URL and region and the default scope. *)
Theorem existing_block_of_missing_session (E : Env) (g : Globals)
  (sessionName : string) (w : World) :
  (forall err, getExistingSsoSessionBlock E g sessionName w = Err err ->
               ini_Load E g w = Err err)
  /\ (forall cfg,
        ini_Load E g w = Ok cfg ->
        ini.GetSection cfg ("sso-session " ++ sessionName) = None ->
        (forall p, In p (ini.parents ("sso-session " ++ sessionName)) ->
                   ini.GetSection cfg p = None) ->
        getExistingSsoSessionBlock E g sessionName w
        = Ok ("[sso-session " ++ sessionName ++ "]" ++ LF
              ++ "sso_start_url = " ++ LF
              ++ "sso_region = " ++ LF
              ++ "sso_registration_scopes = sso:account:access" ++ LF
              ++ LF)).
Proof.
  unfold getExistingSsoSessionBlock, cfg_Section, ini.SectionOf. split.
  - intros err. destruct (ini_Load E g w);
      [intro H; discriminate H | intro H; injection H as ->; reflexivity].
  - intros cfg Hload Hs Hparents. rewrite Hload, Hs.
    unfold KeyString, ini.KeyString, ini.GetKey.
    cbn [ini.keys ini.lookupKey ini.Name].
    change (ini.resolve ("sso-session " ++ sessionName))
      with ("sso-session " ++ sessionName).
    rewrite !(inherited_none cfg _ _ Hparents). simpl.
    rewrite !append_assoc_s. reflexivity.
Qed.

Lemma existing_block_of_missing_session_witness :
  exists block,
    getExistingSsoSessionBlock Sample.env Sample.globals "absent"
      (set_config Sample.world (Some "")) = Ok block.
Proof.
  eexists.
  apply (proj2 (existing_block_of_missing_session Sample.env Sample.globals
                  "absent" (set_config Sample.world (Some "")))
           ini.Empty);
    [reflexivity | reflexivity | intros p []].
Defined.

(** ** More on writing profiles *)

Lemma Names_NewKey (cfg : ini.File) (o k v : string) :
  map ini.Name (ini.NewKey cfg o k v) = map ini.Name cfg.
Proof.
  induction cfg as [|s cfg IH]; simpl; [reflexivity|].
  destruct (String.eqb (ini.Name s) o); simpl; [reflexivity|].
  now rewrite IH.
Qed.

Lemma Names_SetValue (cfg : ini.File) (name k v : string) :
  map ini.Name (ini.SetValue cfg name k v) = map ini.Name cfg.
Proof.
  unfold ini.SetValue.
  destruct (ini.GetKey cfg (ini.SectionOf cfg name) k) as [[o v0]|];
    apply Names_NewKey.
Qed.

(** The keys the section called [n] answers with after a key was set in
    the section called [o]. *)
Lemma own_NewKey (cfg : ini.File) (o k v n k' : string) :
  ini.lookupKey (ini.keys (ini.SectionOf (ini.NewKey cfg o k v) n)) k'
  = if String.eqb o (ini.resolve n) && String.eqb k k'
    then match ini.sectionNamed cfg o with
         | Some _ => Some v
         | None => None
         end
    else ini.lookupKey (ini.keys (ini.SectionOf cfg n)) k'.
Proof.
  unfold ini.SectionOf, ini.GetSection. rewrite sectionNamed_NewKey.
  destruct (String.eqb_spec o (ini.resolve n)) as [-> | Ho]; simpl;
    [|reflexivity].
  destruct (ini.sectionNamed cfg (ini.resolve n)) as [s|]; simpl.
  - rewrite lookupKey_setKey. reflexivity.
  - now destruct (String.eqb k k').
Qed.

Lemma inherited_NewKey_other (cfg : ini.File) (o k v : string)
  (names : list string) (k' : string) :
  k <> k' ->
  ini.inherited (ini.NewKey cfg o k v) names k' = ini.inherited cfg names k'.
Proof.
  intro Hk. induction names as [|n names IH]; simpl; [reflexivity|].
  unfold ini.GetSection. rewrite sectionNamed_NewKey.
  destruct (String.eqb_spec o (ini.resolve n)) as [-> | Ho];
    [|now rewrite IH].
  destruct (ini.sectionNamed cfg (ini.resolve n)) as [s|]; simpl;
    [|exact IH].
  rewrite lookupKey_setKey.
  destruct (String.eqb_spec k k'); [contradiction|]. now rewrite IH.
Qed.

Lemma keyOf_NewKey_other (cfg : ini.File) (o k v name' k' : string) :
  k <> k' -> keyOf (ini.NewKey cfg o k v) name' k' = keyOf cfg name' k'.
Proof.
  intro Hk. unfold keyOf, ini.GetKey. rewrite !SectionOf_Name, own_NewKey.
  destruct (String.eqb_spec k k'); [contradiction|].
  rewrite andb_false_r. now rewrite inherited_NewKey_other.
Qed.

Lemma lookupIn_SetValue_other (cfg : ini.File) (name k v name' k' : string) :
  k <> k' ->
  lookupIn (ini.SetValue cfg name k v) name' k' = lookupIn cfg name' k'.
Proof.
  intro Hk. unfold lookupIn, ini.SetValue. fold (keyOf cfg name k).
  destruct (keyOf cfg name k) as [[o v0]|];
    now rewrite keyOf_NewKey_other.
Qed.

Lemma inherited_NewKey_owner (cfg : ini.File) (names : list string)
  (k v o v0 : string) :
  ini.inherited cfg names k = Some (o, v0) ->
  ini.inherited (ini.NewKey cfg o k v) names k = Some (o, v).
Proof.
  induction names as [|n names IH]; simpl; [discriminate|].
  unfold ini.GetSection. rewrite sectionNamed_NewKey.
  destruct (ini.sectionNamed cfg (ini.resolve n)) as [sec|] eqn:Hsec.
  - pose proof (sectionNamed_Name _ _ _ Hsec) as Hname.
    destruct (ini.lookupKey (ini.keys sec) k) as [v1|] eqn:Hk.
    + intro H. injection H as <- <-. rewrite Hname, String.eqb_refl, Hsec.
      simpl. rewrite lookupKey_setKey, String.eqb_refl. now rewrite Hname.
    + intro H. destruct (String.eqb_spec o (ini.resolve n)) as [-> | Ho].
      * rewrite Hsec. simpl. rewrite lookupKey_setKey, String.eqb_refl.
        now rewrite Hname.
      * rewrite Hk. now apply IH.
  - intro H. destruct (String.eqb_spec o (ini.resolve n)) as [-> | Ho].
    + rewrite Hsec. simpl. now apply IH.
    + now apply IH.
Qed.

Lemma own_some_declared (cfg : ini.File) (n k v : string) :
  ini.lookupKey (ini.keys (ini.SectionOf cfg n)) k = Some v ->
  ini.sectionNamed cfg (ini.resolve n) <> None.
Proof.
  unfold ini.SectionOf, ini.GetSection.
  destruct (ini.sectionNamed cfg (ini.resolve n)); [discriminate|].
  simpl. discriminate.
Qed.

Lemma keyOf_NewKey_owner (cfg : ini.File) (name k v o v0 : string) :
  keyOf cfg name k = Some (o, v0) ->
  keyOf (ini.NewKey cfg o k v) name k = Some (o, v).
Proof.
  unfold keyOf, ini.GetKey. rewrite !SectionOf_Name, own_NewKey.
  rewrite String.eqb_refl, andb_true_r.
  destruct (ini.lookupKey (ini.keys (ini.SectionOf cfg name)) k) as [v1|] eqn:Hown.
  - intro H. injection H as <- <-. rewrite String.eqb_refl.
    apply own_some_declared in Hown.
    now destruct (ini.sectionNamed cfg (ini.resolve name)).
  - intro H. destruct (String.eqb_spec o (ini.resolve name)) as [-> | Ho].
    + destruct (ini.sectionNamed cfg (ini.resolve name)); [reflexivity|].
      now apply inherited_NewKey_owner with (v0 := v0).
    + now apply inherited_NewKey_owner with (v0 := v0).
Qed.

(** Reading back the key that was just set gives the value set. *)
Lemma lookupIn_SetValue_same (cfg : ini.File) (name k v : string) :
  name <> "" ->
  ini.sectionNamed cfg name <> None ->
  lookupIn (ini.SetValue cfg name k v) name k = Some v.
Proof.
  intros Hne Hsec. unfold lookupIn, ini.SetValue. fold (keyOf cfg name k).
  destruct (keyOf cfg name k) as [[o v0]|] eqn:Hget.
  - now rewrite (keyOf_NewKey_owner _ _ _ v _ _ Hget).
  - unfold keyOf, ini.GetKey. rewrite own_NewKey.
    rewrite (resolve_nonempty _ Hne), !String.eqb_refl. simpl.
    now destruct (ini.sectionNamed cfg name).
Qed.

Lemma lookupIn_hasKeyIn (cfg : ini.File) (name k v : string) :
  lookupIn cfg name k = Some v -> hasKeyIn cfg name k = true.
Proof.
  unfold lookupIn, keyOf, hasKeyIn, ini.HasKey.
  now destruct (ini.GetKey cfg (ini.SectionOf cfg name) k).
Qed.

Lemma storedIn_NewKey (cfg : ini.File) (o k v n k' : string) :
  storedIn (ini.NewKey cfg o k v) n k'
  = if String.eqb o n && String.eqb k k'
    then match ini.sectionNamed cfg o with
         | Some _ => Some v
         | None => None
         end
    else storedIn cfg n k'.
Proof.
  unfold storedIn. rewrite sectionNamed_NewKey.
  destruct (String.eqb_spec o n) as [-> | Ho]; simpl; [|reflexivity].
  destruct (ini.sectionNamed cfg n) as [s|]; simpl.
  - rewrite lookupKey_setKey. reflexivity.
  - now destruct (String.eqb k k').
Qed.

Lemma storedIn_ensureSection (cfg : ini.File) (name n k : string) :
  storedIn (ini.ensureSection cfg name) n k = storedIn cfg n k.
Proof.
  unfold storedIn. rewrite sectionNamed_ensureSection.
  destruct (ini.sectionNamed cfg n); [reflexivity|].
  now destruct (String.eqb (ini.resolve name) n).
Qed.

Lemma inherited_owner (cfg : ini.File) (names : list string) (k o v : string) :
  ini.inherited cfg names k = Some (o, v) ->
  exists n, In n names /\ o = ini.resolve n.
Proof.
  induction names as [|n names IH]; simpl; [discriminate|].
  unfold ini.GetSection.
  destruct (ini.sectionNamed cfg (ini.resolve n)) as [sec|] eqn:Hsec.
  - destruct (ini.lookupKey (ini.keys sec) k).
    + intro H. injection H as <- _. exists n. split; [now left|].
      now apply sectionNamed_Name in Hsec.
    + intro H. destruct (IH H) as (m & Hm & Ho). exists m. auto.
  - intro H. destruct (IH H) as (m & Hm & Ho). exists m. auto.
Qed.

(** The parents of a name that does not start with a "." start like it,
    so none of them is the empty name, and all are shorter than it. *)
Lemma cutsAtDots_head (c : ascii) (rest p : string) :
  Ascii.eqb c "." = false ->
  In p (ini.cutsAtDots (String c rest)) -> exists p', p = String c p'.
Proof.
  intros Hc. simpl. rewrite Hc. intro H. apply in_map_iff in H.
  destruct H as (p' & <- & _). eauto.
Qed.

Lemma cutsAtDots_shorter (name p : string) :
  In p (ini.cutsAtDots name) -> String.length p < String.length name.
Proof.
  revert p. induction name as [|c rest IH]; intros p H; simpl in H;
    [contradiction|].
  assert (Hmap : In p (map (String c) (ini.cutsAtDots rest)) ->
                 String.length p < String.length (String c rest)).
  { intro Hm. apply in_map_iff in Hm. destruct Hm as (p' & <- & Hp').
    simpl. apply IH in Hp'. lia. }
  destruct (Ascii.eqb c "."); [|now apply Hmap].
  destruct H as [<- | H]; [simpl; lia | now apply Hmap].
Qed.

Lemma parents_resolve (c : ascii) (rest p : string) :
  Ascii.eqb c "." = false ->
  In p (ini.parents (String c rest)) -> ini.resolve p = p.
Proof.
  intros Hc H. unfold ini.parents in H. apply in_rev in H.
  destruct (cutsAtDots_head c rest p Hc H) as (p' & ->). reflexivity.
Qed.

Lemma keyOf_owner (cfg : ini.File) (c : ascii) (rest k o v : string) :
  Ascii.eqb c "." = false ->
  keyOf cfg (String c rest) k = Some (o, v) ->
  In o (String c rest :: ini.parents (String c rest)).
Proof.
  intros Hc. unfold keyOf, ini.GetKey. rewrite SectionOf_Name.
  change (ini.resolve (String c rest)) with (String c rest).
  destruct (ini.lookupKey _ k).
  - intro H. injection H as <- _. now left.
  - intro H. apply inherited_owner in H. destruct H as (n & Hn & ->).
    right. now rewrite (parents_resolve c rest n Hc Hn).
Qed.

(** Setting a key of a section stores nothing anywhere but in that section
    and its parents, and under no other key. *)
Lemma storedIn_SetValue_outside (cfg : ini.File) (c : ascii)
  (rest k v n k' : string) :
  Ascii.eqb c "." = false ->
  ~ In n (String c rest :: ini.parents (String c rest)) \/ k <> k' ->
  storedIn (ini.SetValue cfg (String c rest) k v) n k' = storedIn cfg n k'.
Proof.
  intros Hc Hout. unfold ini.SetValue. fold (keyOf cfg (String c rest) k).
  assert (Hcond : forall o, In o (String c rest :: ini.parents (String c rest)) ->
                    String.eqb o n && String.eqb k k' = false).
  { intros o Ho. destruct (String.eqb_spec o n) as [-> | Hn]; [|reflexivity].
    destruct (String.eqb_spec k k') as [Hk | Hk]; [|reflexivity].
    destruct Hout; contradiction. }
  destruct (keyOf cfg (String c rest) k) as [[o v0]|] eqn:Hget;
    rewrite storedIn_NewKey, Hcond; try reflexivity.
  - now apply (keyOf_owner cfg c rest k o v0).
  - now left.
Qed.

(** What a section answers with is its own when no parent is declared. *)
Lemma lookupIn_stored (cfg : ini.File) (name k v : string) :
  name <> "" ->
  (forall p, In p (ini.parents name) -> ini.GetSection cfg p = None) ->
  lookupIn cfg name k = Some v -> storedIn cfg name k = Some v.
Proof.
  intros Hne Hp. unfold lookupIn, keyOf, ini.GetKey, storedIn.
  rewrite SectionOf_Name, (resolve_nonempty _ Hne).
  rewrite (inherited_none cfg _ _ Hp).
  unfold ini.SectionOf, ini.GetSection. rewrite (resolve_nonempty _ Hne).
  destruct (ini.sectionNamed cfg name) as [s|]; simpl.
  - destruct (ini.lookupKey (ini.keys s) k); [|discriminate].
    intro H. now injection H as ->.
  - discriminate.
Qed.

(** The five keys of the document built for a profile, as the library
    reads them. *)
Lemma profileDocument_keys (E : Env) (g : Globals) (profileName : string)
  (role : CombinedRole) (w : World) :
  let doc := profileDocument E g profileName role w in
  let sectionName := "profile " ++ profileName in
  lookupIn doc sectionName "sso_session" = Some (ssoSessionConfigName w)
  /\ lookupIn doc sectionName "sso_account_id" = Some (AccountId role)
  /\ lookupIn doc sectionName "sso_role_name" = Some (RoleName role)
  /\ lookupIn doc sectionName "region" = Some (ssoRegion g)
  /\ lookupIn doc sectionName "output" = Some (profileOutput g).
Proof.
  unfold profileDocument. rewrite NewSection_ensures.
  set (sn := "profile " ++ profileName).
  set (c0 := ini.ensureSection _ sn).
  assert (Hsn : sn <> "") by discriminate.
  assert (H0 : ini.sectionNamed c0 sn <> None)
    by (apply sectionNamed_ensureSection_same; exact Hsn).
  assert (Hset : forall c k v, ini.sectionNamed c sn <> None ->
                   lookupIn (ini.SetValue c sn k v) sn k = Some v).
  { intros c k v Hc. now apply lookupIn_SetValue_same. }
  repeat split;
    repeat (first
      [ rewrite Hset by (repeat apply sectionNamed_SetValue_some; exact H0);
        reflexivity
      | rewrite lookupIn_SetValue_other by discriminate ]).
Qed.

(** A write that returns nil has saved a document whose profile section
    answers for the five keys with the session name, account id, role
    name, region and output format of the call; the section holds the five
    keys itself when none of its parent sections is declared, as is the
    case of a profile name without a ".". *)
Theorem written_profile_has_five_keys (E : Env) (g : Globals)
  (profileName : string) (role : CombinedRole) (w w' : World) :
  dryRun g = false ->
  writeProfileToConfig E g profileName role w = (None, w') ->
  let sectionName := "profile " ++ profileName in
  exists doc,
    configFile w' = Some (ini_render E doc)
    /\ Forall (fun kv => hasKeyIn doc sectionName (fst kv) = true
                         /\ lookupIn doc sectionName (fst kv) = Some (snd kv))
              (profileKeys g w role)
    /\ ((forall p, In p (ini.parents sectionName) ->
                   ini.GetSection doc p = None) ->
        Forall (fun kv => storedIn doc sectionName (fst kv) = Some (snd kv))
               (profileKeys g w role)).
Proof.
  intros Hdry Hw sectionName.
  destruct (writeProfile_ok_inv E g Hdry _ _ _ _ Hw) as [_ Hfile].
  exists (profileDocument E g profileName role w). split; [exact Hfile|].
  destruct (profileDocument_keys E g profileName role w)
    as (H1 & H2 & H3 & H4 & H5).
  fold sectionName in H1, H2, H3, H4, H5. unfold profileKeys. split.
  - repeat (apply Forall_cons;
            [split; [eapply lookupIn_hasKeyIn|]; cbn [fst snd]; eassumption|]).
    apply Forall_nil.
  - intro Hp.
    repeat (apply Forall_cons;
            [apply lookupIn_stored; [discriminate | exact Hp |];
             cbn [fst snd]; assumption|]).
    apply Forall_nil.
Qed.

Lemma written_profile_has_five_keys_witness :
  exists w' doc,
    writeProfileToConfig Sample.env Sample.globals "ReadOnly_My-App_123"
      (mkRole "123" "AWSReadOnlyAccess" "My App") Sample.world = (None, w')
    /\ configFile w' = Some (ini_render Sample.env doc)
    /\ lookupIn doc "profile ReadOnly_My-App_123" "sso_role_name"
       = Some "AWSReadOnlyAccess".
Proof.
  eexists.
  destruct (written_profile_has_five_keys Sample.env Sample.globals
              "ReadOnly_My-App_123" (mkRole "123" "AWSReadOnlyAccess" "My App")
              Sample.world _ eq_refl eq_refl) as (doc & Hfile & Hkeys & _).
  exists doc. split; [reflexivity|]. split; [exact Hfile|].
  inversion Hkeys as [|? ? _ Hrest]. inversion Hrest as [|? ? _ Hrest'].
  inversion Hrest' as [|? ? Hrole _]. exact (proj2 Hrole).
Defined.

(** Writing a profile keeps the rest of a file that loads: no section is
    dropped or reordered, at most the profile's section is appended, and
    every key keeps the value its section holds, except the five keys in
    the profile's section and in its parent sections. *)
Theorem write_profile_keeps_other_entries (E : Env) (g : Globals)
  (profileName : string) (role : CombinedRole) (w : World) (cfg : ini.File) :
  ini_Load E g w = Ok cfg ->
  let doc := profileDocument E g profileName role w in
  let sectionName := "profile " ++ profileName in
  (exists tail, map ini.Name doc = (map ini.Name cfg ++ tail)%list
                /\ (tail = [] \/ tail = [sectionName]))
  /\ (forall name k,
        ~ In name (sectionName :: ini.parents sectionName)
        \/ ~ In k (map fst (profileKeys g w role)) ->
        storedIn doc name k = storedIn cfg name k).
Proof.
  intros Hload doc sectionName. subst doc. unfold profileDocument.
  rewrite Hload, NewSection_ensures. fold sectionName. split.
  - rewrite !Names_SetValue. unfold ini.ensureSection, ini.GetSection.
    change (ini.resolve sectionName) with sectionName.
    destruct (ini.sectionNamed cfg sectionName).
    + exists []. rewrite app_nil_r. auto.
    + exists [sectionName]. rewrite map_app. auto.
  - intros name k Hother.
    assert (Hcond : forall k0, In k0 (map fst (profileKeys g w role)) ->
                      ~ In name (sectionName :: ini.parents sectionName)
                      \/ k0 <> k).
    { intros k0 Hk0. destruct Hother as [Ho | Ho]; [now left|].
      right. intros ->. contradiction. }
    unfold sectionName in *.
    change ("profile " ++ profileName)
      with (String "p" ("rofile " ++ profileName)) in *.
    rewrite !storedIn_SetValue_outside
      by (try reflexivity; apply Hcond; simpl; auto 10).
    apply storedIn_ensureSection.
Qed.

Lemma write_profile_keeps_other_entries_witness :
  let w := set_config Sample.world
             (Some (Sample.sessionText "work" "https://unit.test/start"
                      "us-east-1")) in
  storedIn (profileDocument Sample.env Sample.globals "P"
              (mkRole "1" "R" "A") w) "sso-session work" "sso_region"
  = Some "us-east-1".
Proof.
  intro w.
  rewrite (proj2 (write_profile_keeps_other_entries Sample.env Sample.globals
                    "P" (mkRole "1" "R" "A") w _ eq_refl)).
  - reflexivity.
  - left. simpl. intros [H | []]. discriminate H.
Defined.

(** A document that holds the default section and one profile section
    only: no parent of the profile answers for it. *)
Lemma SetValue_alone (x : string) (ks : list (string * string)) (k v : string) :
  ini.SetValue [ini.mkSection ini.DefaultSection [];
                ini.mkSection ("profile " ++ x) ks] ("profile " ++ x) k v
  = [ini.mkSection ini.DefaultSection [];
     ini.mkSection ("profile " ++ x) (ini.setKey ks k v)].
Proof.
  set (name := "profile " ++ x).
  set (cfg := [ini.mkSection ini.DefaultSection []; ini.mkSection name ks]).
  assert (Hnew : ini.NewKey cfg name k v
                 = [ini.mkSection ini.DefaultSection [];
                    ini.mkSection name (ini.setKey ks k v)]).
  { unfold cfg. cbn [ini.NewKey ini.Name ini.keys].
    change (String.eqb ini.DefaultSection name) with false.
    cbv iota. now rewrite String.eqb_refl. }
  assert (Hpar : forall p, In p (ini.parents name) -> ini.GetSection cfg p = None).
  { intros p Hp. unfold ini.GetSection.
    rewrite (parents_resolve "p" ("rofile " ++ x) p eq_refl Hp).
    unfold ini.parents in Hp. apply in_rev in Hp.
    pose proof (cutsAtDots_shorter _ _ Hp) as Hlen.
    destruct (cutsAtDots_head "p" ("rofile " ++ x) p eq_refl Hp) as (p' & ->).
    unfold cfg. cbn [ini.sectionNamed ini.Name].
    change (String.eqb ini.DefaultSection (String "p" p')) with false.
    cbv iota.
    destruct (String.eqb_spec name (String "p" p')) as [Heq | _];
      [|reflexivity].
    rewrite <- Heq in Hlen. lia. }
  unfold ini.SetValue, ini.GetKey. rewrite SectionOf_Name.
  change (ini.resolve name) with name.
  rewrite (inherited_none cfg _ _ Hpar).
  assert (Hsec : ini.SectionOf cfg name = ini.mkSection name ks).
  { unfold ini.SectionOf, ini.GetSection, cfg.
    change (ini.resolve name) with name. cbn [ini.sectionNamed ini.Name].
    change (String.eqb ini.DefaultSection name) with false.
    cbv iota. now rewrite String.eqb_refl. }
  rewrite Hsec. cbn [ini.keys ini.Name].
  destruct (ini.lookupKey ks k); exact Hnew.
Qed.

(** When the config file is missing or does not load, a successful write
    leaves a file that holds the one profile and nothing else: whatever
    the file contained before is not kept. *)
Theorem write_profile_replaces_unreadable_file (E : Env) (g : Globals)
  (profileName : string) (role : CombinedRole) (w w' : World) (err : error) :
  dryRun g = false ->
  ini_Load E g w = Err err ->
  writeProfileToConfig E g profileName role w = (None, w') ->
  configFile w'
  = Some (ini_render E
            (ini.Empty
             ++ [ini.mkSection ("profile " ++ profileName)
                   (profileKeys g w role)])%list).
Proof.
  intros Hdry Hload Hw.
  destruct (writeProfile_ok_inv E g Hdry _ _ _ _ Hw) as [_ Hfile].
  rewrite Hfile. do 2 f_equal. unfold profileDocument.
  rewrite Hload, NewSection_ensures.
  unfold ini.ensureSection, ini.GetSection, ini.Empty.
  change (ini.resolve ("profile " ++ profileName))
    with ("profile " ++ profileName).
  cbn [ini.sectionNamed ini.Name app].
  change (String.eqb ini.DefaultSection ("profile " ++ profileName))
    with false.
  cbv iota. rewrite !SetValue_alone. reflexivity.
Qed.

Lemma write_profile_replaces_unreadable_file_witness :
  let w := set_config Sample.world (Some "[broken") in
  exists w',
    writeProfileToConfig Sample.env Sample.globals "P" (mkRole "1" "R" "A") w
    = (None, w')
    /\ configFile w'
       = Some (Sample.render
                 [ini.mkSection "DEFAULT" [];
                  ini.mkSection "profile P"
                    (profileKeys Sample.globals w (mkRole "1" "R" "A"))]).
Proof.
  intro w. eexists. split; [reflexivity|].
  exact (write_profile_replaces_unreadable_file Sample.env Sample.globals
           "P" (mkRole "1" "R" "A") w _ _ eq_refl eq_refl eq_refl).
Defined.

Lemma writeProfile_then_exists (E : Env) (g : Globals)
  (profileName : string) (role : CombinedRole) (w w' : World) :
  dryRun g = false ->
  io_error E (ReadFile (ssoConfigFile g)) = None ->
  writeProfileToConfig E g profileName role w = (None, w') ->
  readsBack E (SaveTo (profileDocument E g profileName role w)
                 (ssoConfigFile g)) = true ->
  profileExists E g profileName w' = true.
Proof.
  intros Hdry Hread Hw Hrb.
  destruct (writeProfile_ok_inv E g Hdry _ _ _ _ Hw) as [_ Hfile].
  unfold readsBack in Hrb.
  destruct (ini_parse E (ini_render E _)) as [cfg'|] eqn:Hparse;
    [|discriminate].
  apply File_eqb_eq in Hrb. subst cfg'.
  unfold profileExists, ini_Load. rewrite Hfile, Hread, Hparse.
  apply (proj1 (profileDocument_has E g profileName role w)).
Qed.

(** Write then look up: after a write that returned nil, when the saved
    document reads back as saved, [profileExists] finds the profile. *)
Theorem written_profile_exists (E : Env) (g : Globals)
  (profileName : string) (role : CombinedRole) (w w' : World) :
  dryRun g = false ->
  io_error E (ReadFile (ssoConfigFile g)) = None ->
  writeProfileToConfig E g profileName role w = (None, w') ->
  readsBack E (SaveTo (profileDocument E g profileName role w)
                 (ssoConfigFile g)) = true ->
  profileExists E g profileName w' = true.
Proof. exact (writeProfile_then_exists E g profileName role w w'). Qed.

Lemma written_profile_exists_witness :
  exists w',
    writeProfileToConfig Sample.env Sample.globals "P" (mkRole "1" "R" "A")
      Sample.world = (None, w')
    /\ profileExists Sample.env Sample.globals "P" w' = true.
Proof.
  eexists. split; [reflexivity|].
  apply (written_profile_exists Sample.env Sample.globals "P"
           (mkRole "1" "R" "A") Sample.world); reflexivity.
Defined.

(** ** More on reconciliation *)

Lemma profileExists_same_file (E : Env) (g : Globals) (n : string)
  (w1 w2 : World) :
  configFile w1 = configFile w2 ->
  profileExists E g n w1 = profileExists E g n w2.
Proof. intro H. unfold profileExists, ini_Load. now rewrite H. Qed.

(** A dry run counts every role on its own against the file as it is: the
    summary reports as to be added each listed role whose profile is
    missing, repeated roles included, and leaves the world unchanged. *)
Theorem dry_run_summary_counts_each_role (E : Env) (g : Globals)
  (roles : list CombinedRole) (added skipped : nat) (w : World) :
  dryRun g = true ->
  reconcileProfiles E g roles added skipped w
  = (added + List.length (absentRoles E g w roles),
     skipped + List.length (presentRoles E g w roles), w).
Proof.
  intro Hdry. revert added skipped.
  induction roles as [|role roles IH]; intros added skipped;
    cbn [reconcileProfiles absentRoles presentRoles filter].
  - cbn [List.length]. now rewrite !Nat.add_0_r.
  - destruct (profileExists E g (getProfileNameFromRole g role) w);
      cbn [negb].
    + rewrite IH. unfold absentRoles, presentRoles. cbn [List.length].
      f_equal. f_equal. lia.
    + rewrite writeProfile_dry_run_writes_nothing by assumption.
      rewrite IH. unfold absentRoles, presentRoles. cbn [List.length].
      f_equal. f_equal. lia.
Qed.

Lemma dry_run_summary_counts_each_role_witness :
  let roles := [ mkRole "123" "AWSReadOnlyAccess" "My App";
                 mkRole "123" "AWSReadOnlyAccess" "My App" ] in
  reconcileProfiles Sample.env (Sample.with_dryRun Sample.globals true)
    roles 0 0 Sample.world
  = (2, 0, Sample.world).
Proof.
  intro roles.
  exact (dry_run_summary_counts_each_role Sample.env
           (Sample.with_dryRun Sample.globals true) roles 0 0 Sample.world
           eq_refl).
Defined.

Lemma writeProfile_frame (E : Env) (g : Globals) (profileName : string)
  (role : CombinedRole) (w : World) :
  let w' := snd (writeProfileToConfig E g profileName role w) in
  cacheDir w' = cacheDir w /\ now w' = now w
  /\ ssoSessionConfigName w' = ssoSessionConfigName w.
Proof.
  unfold writeProfileToConfig. destruct (dryRun g); [simpl; auto|].
  destruct (io_error E (MkdirAll _)); [simpl; auto|].
  destruct (io_error E (WriteFile _ _)); [simpl; auto|].
  destruct (io_error E (SaveTo _ _)); simpl; auto.
Qed.

Lemma reconcile_frame (E : Env) (g : Globals) (roles : list CombinedRole) :
  forall added skipped w,
    let w' := snd (reconcileProfiles E g roles added skipped w) in
    cacheDir w' = cacheDir w /\ now w' = now w
    /\ ssoSessionConfigName w' = ssoSessionConfigName w.
Proof.
  induction roles as [|role roles IH]; intros added skipped w; simpl;
    [auto|].
  destruct (profileExists _ _ _ _); [apply IH|].
  pose proof (writeProfile_frame E g (getProfileNameFromRole g role) role w)
    as (H1 & H2 & H3).
  destruct (writeProfileToConfig _ _ _ _ _) as [[e|] w1]; simpl in *.
  - destruct (IH added skipped w1) as (I1 & I2 & I3).
    rewrite I1, I2, I3. auto.
  - destruct (IH (S added) skipped w1) as (I1 & I2 & I3).
    rewrite I1, I2, I3. auto.
Qed.

Lemma configure_frame (E : Env) (g : Globals)
  (tok : string) (w : World) :
  let w' := snd (configureSsoProfiles E g tok w) in
  cacheDir w' = cacheDir w /\ now w' = now w
  /\ ssoSessionConfigName w' = ssoSessionConfigName w.
Proof.
  unfold configureSsoProfiles.
  destruct (if dryRun g then _ else _); [simpl; auto|].
  destruct (getCombinedListOfSsoAccountsAndRoles _ _ _ _) as [roles|];
    [|simpl; auto].
  pose proof (reconcile_frame E g roles 0 0 w) as H.
  destruct (reconcileProfiles E g roles 0 0 w) as [[a s] w1]. exact H.
Qed.

(** Configuring profiles never touches the token cache, the clock or the
    session name: only the config file and the log of calls can change. *)
Theorem configure_profiles_touches_only_config (E : Env) (g : Globals)
  (tok : string) (w : World) :
  let w' := snd (configureSsoProfiles E g tok w) in
  cacheDir w' = cacheDir w /\ now w' = now w
  /\ ssoSessionConfigName w' = ssoSessionConfigName w.
Proof. exact (configure_frame E g tok w). Qed.

Lemma reconcile_all_writes_fail (E : Env) (g : Globals) (err : error)
  (roles : list CombinedRole) :
  dryRun g = false ->
  io_error E (MkdirAll (filepath_Dir (ssoConfigFile g))) = Some err ->
  forall added skipped w, exists w',
    reconcileProfiles E g roles added skipped w
    = (added, skipped + List.length (presentRoles E g w roles), w')
    /\ configFile w' = configFile w.
Proof.
  intros Hdry Hmk. induction roles as [|role roles IH];
    intros added skipped w; cbn [reconcileProfiles presentRoles filter].
  - exists w. cbn [List.length]. now rewrite Nat.add_0_r.
  - destruct (profileExists E g (getProfileNameFromRole g role) w) eqn:Hex.
    + destruct (IH added (S skipped) w) as (w' & Hr & Hc).
      exists w'. rewrite Hr. split; [|exact Hc].
      unfold presentRoles. cbn [List.length]. f_equal. f_equal. lia.
    + unfold writeProfileToConfig. rewrite Hdry, Hmk.
      set (w1 := issue w _).
      destruct (IH added skipped w1) as (w' & Hr & Hc).
      exists w'. rewrite Hr. split; [|exact Hc].
      assert (Hp : presentRoles E g w1 roles = presentRoles E g w roles).
      { unfold presentRoles. apply filter_ext. intro r.
        now apply profileExists_same_file. }
      now rewrite Hp.
Qed.

(** Failed writes are reported nowhere in the result: when the directory
    of the config file cannot be created, [configureSsoProfiles] still
    returns nil, with no profile added and the config file as it was. *)
Theorem failed_writes_still_return_nil (E : Env) (g : Globals) (tok : string)
  (w : World) (roles : list CombinedRole) (err : error) :
  dryRun g = false ->
  getCombinedListOfSsoAccountsAndRoles E w tok (ssoRoleNames g) = Ok roles ->
  io_error E (MkdirAll (filepath_Dir (ssoConfigFile g))) = Some err ->
  exists w',
    configureSsoProfiles E g tok w = (None, w')
    /\ configFile w' = configFile w
    /\ fst (fst (reconcileProfiles E g roles 0 0 w)) = 0.
Proof.
  intros Hdry Hroles Hmk.
  destruct (reconcile_all_writes_fail E g err roles Hdry Hmk 0 0 w)
    as (w' & Hr & Hc).
  exists w'. unfold configureSsoProfiles. rewrite Hdry, Hroles, Hr.
  repeat split. exact Hc.
Qed.

Lemma failed_writes_still_return_nil_witness :
  let readOnly := fun c => match c with
                           | MkdirAll _ => Some (ExtError "read-only file system")
                           | _ => None
                           end in
  let E := Sample.with_io Sample.env readOnly in
  exists w',
    configureSsoProfiles E Sample.globals "tok" Sample.world = (None, w')
    /\ configFile w' = None.
Proof.
  intros readOnly E.
  destruct (failed_writes_still_return_nil E Sample.globals "tok" Sample.world
              [mkRole "123" "AWSReadOnlyAccess" "My App"]
              (ExtError "read-only file system") eq_refl eq_refl eq_refl)
    as (w' & Hr & Hc & _).
  exists w'. split; [exact Hr | exact Hc].
Defined.

Lemma selectRoles_spec (roleNames : list string) (account : ssoTypesAccount)
  (roles : list ssoTypesRole) :
  forall combined,
    selectRoles roleNames account roles combined
    = (combined ++ wantedRoles roleNames account roles)%list.
Proof.
  induction roles as [|role roles IH]; intro combined;
    unfold wantedRoles; cbn [selectRoles filter map].
  - now rewrite app_nil_r.
  - destruct (existsb _ roleNames); rewrite IH; unfold wantedRoles;
      cbn [map]; [now rewrite <- app_assoc | reflexivity].
Qed.

Lemma combineAccounts_spec (E : Env) (w : World) (tok : string)
  (roleNames : list string) (rolesOf : ssoTypesAccount -> list ssoTypesRole)
  (accounts : list ssoTypesAccount) :
  (forall a, In a accounts ->
     ListAccountRoles E (now w) tok (acctAccountId a) = Ok (rolesOf a)) ->
  forall combined,
    combineAccounts E w tok roleNames accounts combined
    = Ok (combined
          ++ flat_map (fun a => wantedRoles roleNames a (rolesOf a)) accounts)%list.
Proof.
  induction accounts as [|a accounts IH]; intros Hroles combined;
    cbn [combineAccounts flat_map].
  - now rewrite app_nil_r.
  - unfold getListOfSsoAccountRolesForAccount.
    rewrite (Hroles a) by now left.
    rewrite IH by (intros b Hb; apply Hroles; now right).
    now rewrite selectRoles_spec, <- app_assoc.
Qed.

(** When every listing succeeds, the combined list is, account by account
    in listing order, exactly the roles of the account that were asked for;
    no role outside the requested names is ever returned. *)
Theorem combined_list_is_requested_roles (E : Env) (w : World) (tok : string)
  (roleNames : list string) (accounts : list ssoTypesAccount)
  (rolesOf : ssoTypesAccount -> list ssoTypesRole) :
  ListAccounts E (now w) tok = Ok accounts ->
  (forall a, In a accounts ->
     ListAccountRoles E (now w) tok (acctAccountId a) = Ok (rolesOf a)) ->
  let combined :=
    flat_map (fun a => wantedRoles roleNames a (rolesOf a)) accounts in
  getCombinedListOfSsoAccountsAndRoles E w tok roleNames = Ok combined
  /\ (forall r, In r combined -> In (RoleName r) roleNames)
  /\ (forall a role,
        In a accounts -> In role (rolesOf a) ->
        In (roleRoleName role) roleNames ->
        In (mkRole (acctAccountId a) (roleRoleName role) (acctAccountName a))
           combined).
Proof.
  intros Hacc Hroles combined. split; [|split].
  - unfold getCombinedListOfSsoAccountsAndRoles, getListOfSsoAccounts.
    rewrite Hacc. now rewrite (combineAccounts_spec E w tok roleNames rolesOf).
  - intros r Hr. subst combined. apply in_flat_map in Hr.
    destruct Hr as (a & _ & Hr). unfold wantedRoles in Hr.
    apply in_map_iff in Hr. destruct Hr as (role & <- & Hf).
    apply filter_In in Hf. destruct Hf as [_ Hf].
    apply existsb_exists in Hf. destruct Hf as (n & Hn & Heq).
    apply String.eqb_eq in Heq. simpl. now rewrite Heq.
  - intros a role Ha Hrole Hn. subst combined. apply in_flat_map.
    exists a. split; [exact Ha|]. unfold wantedRoles. apply in_map_iff.
    exists role. split; [reflexivity|]. apply filter_In. split; [exact Hrole|].
    apply existsb_exists. exists (roleRoleName role).
    split; [exact Hn | apply String.eqb_refl].
Qed.

Lemma combined_list_is_requested_roles_witness :
  getCombinedListOfSsoAccountsAndRoles Sample.env Sample.world "tok"
    ["AWSPowerUserAccess"]
  = Ok [mkRole "123" "AWSPowerUserAccess" "My App"].
Proof.
  exact (proj1 (combined_list_is_requested_roles Sample.env Sample.world "tok"
                  ["AWSPowerUserAccess"] [mkAccount "123" "My App"]
                  (fun _ => [mkSsoRole "AWSReadOnlyAccess";
                             mkSsoRole "AWSPowerUserAccess"])
                  eq_refl (fun _ _ => eq_refl))).
Defined.

Lemma role_blind_names (g : Globals) (r1 r2 : CombinedRole) :
  profilePrefix g <> "" \/ useAutoPrefix g = false ->
  AccountId r1 = AccountId r2 ->
  AccountName r1 = AccountName r2 ->
  getProfileNameFromRole g r1 = getProfileNameFromRole g r2.
Proof.
  intros Hblind Hid Hname. unfold getProfileNameFromRole.
  rewrite Hid, Hname. destruct Hblind as [Hp | Ha].
  - destruct (String.eqb_spec (profilePrefix g) ""); [contradiction|].
    reflexivity.
  - rewrite Ha. reflexivity.
Qed.

(** With an explicit prefix, or with auto-prefix off, the profile name does
    not depend on the role: of two roles of one account, a successful run
    writes the profile of the first and counts the second as already
    existing, so the second role is never written. *)
Theorem second_role_of_account_is_skipped (E : Env) (g : Globals)
  (r1 r2 : CombinedRole) (w w1 : World) (added skipped : nat) :
  dryRun g = false ->
  io_error E (ReadFile (ssoConfigFile g)) = None ->
  profilePrefix g <> "" \/ useAutoPrefix g = false ->
  AccountId r1 = AccountId r2 ->
  AccountName r1 = AccountName r2 ->
  profileExists E g (getProfileNameFromRole g r1) w = false ->
  reconcileProfiles E g [r1; r2] 0 0 w = (added, skipped, w1) ->
  added + skipped = 2 ->
  forallb (readsBack E) (issuedSince w w1) = true ->
  added = 1 /\ skipped = 1
  /\ exists doc,
       configFile w1 = Some (ini_render E doc)
       /\ lookupIn doc ("profile " ++ getProfileNameFromRole g r2)
            "sso_role_name" = Some (RoleName r1).
Proof.
  intros Hdry Hread Hblind Hid Hname Hex Hrun Hcnt Hrb.
  pose proof (role_blind_names g r1 r2 Hblind Hid Hname) as Hsame.
  cbn [reconcileProfiles] in Hrun. rewrite Hex in Hrun.
  destruct (writeProfileToConfig E g (getProfileNameFromRole g r1) r1 w)
    as [[e|] w'] eqn:Hw.
  - exfalso. rewrite <- Hsame in Hrun.
    destruct (profileExists E g (getProfileNameFromRole g r1) w').
    + injection Hrun as <- <- _. lia.
    + destruct (writeProfileToConfig E g _ r2 w') as [[e'|] w''];
        injection Hrun as <- <- _; lia.
  - destruct (writeProfile_ok_inv E g Hdry _ _ _ _ Hw) as [Hcalls Hfile].
    rewrite <- Hsame in Hrun.
    destruct (profileExists E g (getProfileNameFromRole g r1) w') eqn:Hex'.
    + injection Hrun as <- <- <-. repeat split.
      exists (profileDocument E g (getProfileNameFromRole g r1) r1 w).
      split; [exact Hfile|]. rewrite <- Hsame.
      apply (profileDocument_keys E g (getProfileNameFromRole g r1) r1 w).
    + exfalso.
      destruct (writeProfile_calls_extend E g Hdry
                  (getProfileNameFromRole g r1) r2 w') as [new Hnew].
      assert (Hw1 : calls w1 = (calls w' ++ new)%list).
      { destruct (writeProfileToConfig E g _ r2 w') as [[e'|] w''];
          injection Hrun as _ _ <-; exact Hnew. }
      unfold issuedSince in Hrb. rewrite Hw1, Hcalls in Hrb.
      rewrite <- app_assoc, skipn_length_app in Hrb. simpl in Hrb.
      assert (Hsave : readsBack E
                        (SaveTo (profileDocument E g
                                   (getProfileNameFromRole g r1) r1 w)
                           (ssoConfigFile g)) = true).
      { unfold readsBack.
        destruct (ini_parse E (ini_render E _)); [|discriminate].
        now apply andb_true_iff in Hrb. }
      rewrite (writeProfile_then_exists E g _ r1 w w' Hdry Hread Hw Hsave)
        in Hex'.
      discriminate.
Qed.

Lemma second_role_of_account_is_skipped_witness :
  let g := mkGlobals ["AWSReadOnlyAccess"; "AWSPowerUserAccess"] "Team_" true
             "https://unit.test/start" "us-east-1" "/home/user/.aws/config"
             false false "json" in
  let r1 := mkRole "123" "AWSReadOnlyAccess" "My App" in
  let r2 := mkRole "123" "AWSPowerUserAccess" "My App" in
  exists w1 doc,
    reconcileProfiles Sample.env g [r1; r2] 0 0 Sample.world = (1, 1, w1)
    /\ configFile w1 = Some (ini_render Sample.env doc)
    /\ lookupIn doc "profile Team_My-App_123" "sso_role_name"
       = Some "AWSReadOnlyAccess".
Proof.
  intros g r1 r2.
  destruct (reconcileProfiles Sample.env g [r1; r2] 0 0 Sample.world)
    as [[a s] w1] eqn:Hrun.
  assert (Has : a = 1 /\ s = 1).
  { vm_compute in Hrun. injection Hrun as <- <- _. split; reflexivity. }
  destruct Has as [-> ->].
  destruct (second_role_of_account_is_skipped Sample.env g r1 r2 Sample.world
              w1 1 1 eq_refl eq_refl) as (_ & _ & doc & Hfile & Hrole);
    try reflexivity.
  - left. discriminate.
  - exact Hrun.
  - vm_compute in Hrun. injection Hrun as <-. vm_compute. reflexivity.
  - exists w1, doc. split; [reflexivity|]. split; [exact Hfile | exact Hrole].
Defined.

(** ** More on login *)

Lemma resolveSessionName_frame (E : Env) (g : Globals) (w : World) :
  let w' := snd (resolveSessionName E g w) in
  configFile w' = configFile w /\ cacheDir w' = cacheDir w
  /\ now w' = now w /\ calls w' = calls w.
Proof.
  unfold resolveSessionName. destruct (isDefaultSessionName _); [|simpl; auto].
  destruct (findAllMatchingSsoSessionNames _ _ _ _ _) as [[|m [|m' l]]|];
    simpl; auto.
Qed.

Lemma retryLoop_frame (E : Env) (g : Globals) (n : nat) :
  forall st w,
    let w' := snd (retryLoop n E g st w) in
    configFile w' = configFile w /\ cacheDir w' = cacheDir w
    /\ ssoSessionConfigName w' = ssoSessionConfigName w
    /\ calls w' = calls w
    /\ (now w <= now w' <= now w + Z.of_nat n * (500 * millisecond))%Z.
Proof.
  induction n as [|n IH]; intros st w.
  - simpl. repeat split; lia.
  - cbn [retryLoop].
    assert (Hstep : forall st',
      let w' := snd (retryLoop n E g st' (Sleep w (500 * millisecond))) in
      configFile w' = configFile w /\ cacheDir w' = cacheDir w
      /\ ssoSessionConfigName w' = ssoSessionConfigName w
      /\ calls w' = calls w
      /\ (now w <= now w' <= now w + Z.of_nat (S n) * (500 * millisecond))%Z).
    { intro st'.
      destruct (IH st' (Sleep w (500 * millisecond)))
        as (H1 & H2 & H3 & H4 & H5).
      cbv zeta. rewrite H1, H2, H3, H4. repeat split; try reflexivity;
        unfold Sleep, millisecond in *; simpl in *; lia. }
    destruct (getAccessTokenFromSsoSessionWithPath E g w) as [[tok p]|err].
    + destruct (isSsoTokenValid E w tok); [|apply Hstep].
      simpl. repeat split; unfold millisecond; lia.
    + apply Hstep.
Qed.

Lemma configure_dry_run_frame (E : Env) (g : Globals) (tok : string)
  (w : World) :
  dryRun g = true -> snd (configureSsoProfiles E g tok w) = w.
Proof.
  intro Hdry. unfold configureSsoProfiles.
  destruct (if dryRun g then _ else _); [reflexivity|].
  destruct (getCombinedListOfSsoAccountsAndRoles _ _ _ _) as [roles|];
    [|reflexivity].
  pose proof (reconcile_dry_run_writes_nothing E g roles Hdry 0 0 w) as H.
  destruct (reconcileProfiles E g roles 0 0 w) as [[a s] w1]. exact H.
Qed.

Lemma finishWithToken_dry_run (E : Env) (g : Globals) (tok : string)
  (w : World) :
  dryRun g = true -> snd (finishWithToken E g tok w) = w.
Proof.
  intro Hdry. unfold finishWithToken. destruct (ssoRoleNames g);
    [reflexivity | now apply configure_dry_run_frame].
Qed.

(** A dry-run login never writes the config file, whichever way it goes:
    with a cached token or through the device flow, with or without role
    filters, successful or not. *)
Theorem dry_run_login_keeps_config_file (E : Env) (g : Globals) (w : World) :
  dryRun g = true ->
  configFile (snd (login E g w)) = configFile w.
Proof.
  intro Hdry.
  assert (Hafter : forall st w0,
            configFile (snd (loginAfterDeviceFlow E g st w0)) = configFile w0).
  { intros st w0. unfold loginAfterDeviceFlow.
    pose proof (retryLoop_frame E g 10 st w0) as Hr.
    destruct (retryLoop 10 E g st w0) as [st1 w1]. simpl in Hr.
    destruct Hr as (Hc1 & _).
    destruct (lastErr st1); [simpl; exact Hc1|].
    pose proof (resolveSessionName_frame E g w1) as Hs.
    destruct (resolveSessionName E g w1) as [[e|] w2]; simpl in Hs;
      destruct Hs as (Hc2 & _); [simpl; congruence|].
    unfold configureSsoSessionConfig.
    pose proof (ensure_dry_run_writes_nothing E g w2 Hdry) as He.
    destruct (ensureSsoSessionConfigPresent E g w2) as [[added [e|]] w3];
      simpl in He; destruct He as (Hc3 & _); [simpl; congruence|].
    rewrite finishWithToken_dry_run by assumption. congruence. }
  assert (Hfresh : forall st,
            configFile (snd (loginFresh E g st w)) = configFile w).
  { intro st. unfold loginFresh. rewrite Hdry. cbn [negb].
    pose proof (runAwsSsoLogin_frame E g (ssoSessionConfigName w) w) as Hd.
    destruct (runAwsSsoLogin E g (ssoSessionConfigName w) w) as [[e|] w2];
      simpl in Hd; destruct Hd as (Hc & _); [exact Hc|].
    now rewrite Hafter. }
  unfold login.
  destruct (getAccessTokenFromSsoSessionWithPath E g w) as [[tok p]|err];
    [|apply Hfresh].
  destruct (isSsoTokenValid E w tok); [|apply Hfresh].
  pose proof (resolveSessionName_frame E g w) as Hs.
  destruct (resolveSessionName E g w) as [[e|] w1]; simpl in Hs;
    destruct Hs as (Hc & _); [exact Hc|].
  rewrite finishWithToken_dry_run by assumption. exact Hc.
Qed.

Lemma dry_run_login_keeps_config_file_witness :
  let w := set_config Sample.world (Some "[default]") in
  configFile (snd (login Sample.env (Sample.with_dryRun Sample.globals true) w))
  = Some "[default]".
Proof.
  intro w.
  exact (dry_run_login_keeps_config_file Sample.env
           (Sample.with_dryRun Sample.globals true) w eq_refl).
Defined.

(** With a cached token that validation accepts, login never starts the
    device flow: the token cache and the clock stay as they were, and when
    no role was requested the config file is not written either. *)
Theorem login_with_valid_token_skips_device_flow (E : Env) (g : Globals)
  (w : World) (tok p : string) :
  getAccessTokenFromSsoSessionWithPath E g w = Ok (tok, p) ->
  isSsoTokenValid E w tok = true ->
  let w' := snd (login E g w) in
  cacheDir w' = cacheDir w /\ now w' = now w
  /\ (ssoRoleNames g = [] ->
      configFile w' = configFile w /\ calls w' = calls w).
Proof.
  intros Hget Hvalid. unfold login. rewrite Hget, Hvalid.
  pose proof (resolveSessionName_frame E g w) as Hs.
  destruct (resolveSessionName E g w) as [[e|] w1]; simpl in Hs;
    destruct Hs as (Hc & Hd & Hn & Hl); [simpl; auto|].
  unfold finishWithToken. destruct (ssoRoleNames g) as [|r rs].
  - simpl. auto.
  - destruct (configure_frame E g tok w1) as (F1 & F2 & _).
    cbv zeta. rewrite F1, F2. repeat split; try congruence; discriminate.
Qed.

Lemma login_with_valid_token_skips_device_flow_witness :
  let w := set_cache Sample.world
             [Sample.tokenFile "a.json" "https://unit.test/start" "tok" 0] in
  cacheDir (snd (login Sample.env Sample.globals w)) = cacheDir w.
Proof.
  intro w.
  exact (proj1 (login_with_valid_token_skips_device_flow Sample.env
                  Sample.globals w "tok" "/home/user/.aws/sso/cache/a.json"
                  eq_refl eq_refl)).
Defined.

(** With a valid cached token and the default session name, login fails
    on two or more sessions declared for the endpoint whether or not a
    session of the default name is among them: it does not look for the
    header of the requested name first. Nothing is written. *)
Theorem login_reports_ambiguity_with_valid_token (E : Env) (g : Globals)
  (w : World) (tok p data : string) (cfg : ini.File) :
  getAccessTokenFromSsoSessionWithPath E g w = Ok (tok, p) ->
  isSsoTokenValid E w tok = true ->
  isDefaultSessionName (ssoSessionConfigName w) = true ->
  configFile w = Some data ->
  io_error E (ReadFile (ssoConfigFile g)) = None ->
  ini_parse E data = Some cfg ->
  2 <= List.length (filter (declaresMatchingSession E g cfg) (ini.Sections cfg)) ->
  login E g w = (Some (multipleMatchesError g), w).
Proof.
  intros Hget Hvalid Hdef Hc Hr Hp Htwo.
  unfold login. rewrite Hget, Hvalid. unfold resolveSessionName.
  rewrite Hdef.
  rewrite (findAllMatchingSsoSessionNames_spec E g w data cfg Hc Hr Hp).
  destruct (filter (declaresMatchingSession E g cfg) (ini.Sections cfg))
    as [|s1 [|s2 rest]]; simpl in Htwo; try lia.
  reflexivity.
Qed.

Lemma login_reports_ambiguity_with_valid_token_witness :
  let url := "https://unit.test/start" in
  let w := set_config
             (set_cache Sample.world [Sample.tokenFile "a.json" url "tok" 0])
             (Some (Sample.sessionText "default" url "us-east-1" ++ LF
                    ++ Sample.sessionText "work" (url ++ "/") "us-east-1")) in
  ensureSsoSessionConfigPresent Sample.env Sample.globals w = (false, None, w)
  /\ login Sample.env Sample.globals w
     = (Some (multipleMatchesError Sample.globals), w).
Proof.
  intros url w. split; [reflexivity|].
  assert (Hp : exists cfg,
             ini_parse Sample.env
               (Sample.sessionText "default" url "us-east-1" ++ LF
                ++ Sample.sessionText "work" (url ++ "/") "us-east-1")
             = Some cfg
             /\ 2 <= List.length
                       (filter (declaresMatchingSession Sample.env
                                  Sample.globals cfg)
                          (ini.Sections cfg))).
  { eexists. split; [vm_compute; reflexivity | vm_compute; lia]. }
  destruct Hp as (cfg & Hp & Htwo).
  exact (login_reports_ambiguity_with_valid_token Sample.env Sample.globals w
           "tok" "/home/user/.aws/sso/cache/a.json" _ cfg
           eq_refl eq_refl eq_refl eq_refl eq_refl Hp Htwo).
Defined.

Lemma retryLoop_all_fail (E : Env) (g : Globals) (err : error) (n : nat) :
  forall st w,
    getAccessTokenFromSsoSessionWithPath E g w = Err err ->
    retryLoop (S n) E g st w
    = (mkRetry "" "" (Some err),
       set_now w (now w + Z.of_nat (S n) * (500 * millisecond))).
Proof.
  induction n as [|n IH]; intros st w Hget.
  - simpl. rewrite Hget. unfold Sleep, millisecond. simpl.
    destruct w; simpl. reflexivity.
  - change (retryLoop (S (S n)) E g st w)
      with (match getAccessTokenFromSsoSessionWithPath E g w with
            | Ok (tok, p) =>
                if isSsoTokenValid E w tok then (mkRetry tok p None, w)
                else retryLoop (S n) E g (mkRetry tok p None)
                       (Sleep w (500 * millisecond))
            | Err err =>
                retryLoop (S n) E g (mkRetry "" "" (Some err))
                  (Sleep w (500 * millisecond))
            end).
    rewrite Hget, IH by (now rewrite getAccessToken_Sleep).
    f_equal. unfold Sleep, set_now, millisecond. simpl. f_equal. lia.
Qed.

(** When the cache lookup fails after the device flow, login tries ten
    times, half a second apart, and then returns the error "SSO login did
    not produce a valid access token" wrapping the lookup's error; only the
    clock has moved, by five seconds. *)
Theorem login_gives_up_when_lookup_keeps_failing (E : Env) (g : Globals)
  (st : RetryState) (w : World) (err : error) :
  getAccessTokenFromSsoSessionWithPath E g w = Err err ->
  loginAfterDeviceFlow E g st w
  = (Some (noValidTokenError err), set_now w (now w + 5 * second)).
Proof.
  intro Hget. unfold loginAfterDeviceFlow.
  rewrite (retryLoop_all_fail E g err 9 st w Hget). cbn [lastErr].
  unfold noValidTokenError. f_equal.
Qed.

Lemma login_gives_up_when_lookup_keeps_failing_witness :
  loginAfterDeviceFlow Sample.env Sample.globals (mkRetry "" "" None)
    Sample.world
  = (Some (Errorf "SSO login did not produce a valid access token: no valid SSO accessToken found for startUrl https://unit.test/start"),
     set_now Sample.world (now Sample.world + 5 * second)).
Proof.
  exact (login_gives_up_when_lookup_keeps_failing Sample.env Sample.globals
           (mkRetry "" "" None) Sample.world _ eq_refl).
Defined.

(** ** Printing a block *)

Lemma Split_line (l s : string) :
  singleLine l = true ->
  strings.Split (l ++ LF ++ s) (ascii_of_nat 10)
  = l :: strings.Split s (ascii_of_nat 10).
Proof.
  intro Hl. induction l as [|c l IH]; [reflexivity|].
  unfold singleLine in Hl. cbn [allBytes] in Hl.
  apply andb_true_iff in Hl. destruct Hl as [Hc Hl].
  apply negb_true_iff in Hc.
  change ((String c l ++ LF ++ s)) with (String c (l ++ LF ++ s)).
  cbn [strings.Split]. rewrite Hc, (IH Hl). reflexivity.
Qed.

Lemma Split_lines (first : string) (rest : list string) :
  forallb singleLine (first :: rest) = true ->
  strings.Split (String.concat LF (first :: rest) ++ LF) (ascii_of_nat 10)
  = (first :: rest ++ [""])%list.
Proof.
  revert first. induction rest as [|l rest IH]; intros first H;
    cbn [forallb] in H; apply andb_true_iff in H; destruct H as [Hf Hr].
  - cbn [String.concat].
    replace (first ++ LF) with (first ++ LF ++ "") by reflexivity.
    now rewrite Split_line.
  - change (String.concat LF (first :: l :: rest))
      with (first ++ LF ++ String.concat LF (l :: rest)).
    rewrite !append_assoc_s, Split_line by assumption.
    now rewrite (IH l Hr).
Qed.

Lemma printLinesFrom_tail (indent : string) (n : nat) (rest : list string) :
  forall i, 1 <= i -> i + List.length rest = n - 1 ->
            printLinesFrom indent n i (rest ++ [""])
            = String.concat "" (map (continuationLine indent) rest).
Proof.
  induction rest as [|l rest IH]; intros i Hi Hn; cbn [app printLinesFrom].
  - simpl in Hn. replace (n - 1) with i by lia.
    now rewrite Nat.eqb_refl.
  - simpl in Hn.
    destruct (Nat.eqb_spec i (n - 1)); [lia|]. cbn [andb].
    destruct (Nat.eqb_spec i 0); [lia|].
    rewrite IH by lia. unfold continuationLine. cbn [map].
    destruct rest; cbn [map String.concat];
      now rewrite ?append_nil_r_s, ?append_assoc_s.
Qed.

(** For a block of lines that each end in a line feed, [printBlockIndented]
    prints the first line after the indent and every further line, empty
    ones included, after the indent and two spaces; nothing is printed for
    the end of the block. *)
Theorem printBlockIndented_prints_each_line (indent first : string)
  (rest : list string) :
  forallb singleLine (first :: rest) = true ->
  printBlockIndented indent (String.concat LF (first :: rest) ++ LF)
  = indent ++ first ++ LF
    ++ String.concat "" (map (continuationLine indent) rest).
Proof.
  intro H. unfold printBlockIndented. rewrite (Split_lines first rest H).
  cbn [printLinesFrom List.length]. rewrite length_app. cbn [List.length].
  destruct (Nat.eqb_spec 0 (S (List.length rest + 1) - 1)); [lia|].
  cbn [andb Nat.eqb]. rewrite !append_assoc_s. do 3 f_equal.
  apply printLinesFrom_tail; lia.
Qed.

Lemma printBlockIndented_prints_each_line_witness :
  printBlockIndented "    " (sessionBlock Sample.globals Sample.world)
  = "    [sso-session default]" ++ LF
    ++ "      sso_start_url = https://unit.test/start" ++ LF
    ++ "      sso_region = us-east-1" ++ LF
    ++ "      sso_registration_scopes = sso:account:access" ++ LF.
Proof.
  exact (printBlockIndented_prints_each_line "    " "[sso-session default]"
           [ "sso_start_url = https://unit.test/start";
             "sso_region = us-east-1";
             "sso_registration_scopes = sso:account:access" ] eq_refl).
Defined.
